(** * cf-router-acceptance-tests: a shallow embedding of the checked code

    The development follows the Go sources file by file:

    - [db]: the etcd-backed store of the vendored routing-api
      (SaveRoute, SaveTcpRouteMapping, ReadRoutes, ReadTcpRouteMappings,
      SaveRouterGroup and the router-group readers);
    - [helpers] and [router_helpers]: the two configuration loaders;
    - [router]: the TCP routing specs (configureMapping, checkConnection,
      verifyConnection, the load-balancing spec);
    - [stats]: the statsd specs of the routing API;
    - [golangtls]: the TLS demo asset (the certificate template, the
      certificates, the files, the server).

    Go code that talks to the outside (etcd, the network, the clock, the
    random source, the file system) is embedded as state passing over an
    abstract world; every call on the world is appended to a trace, so that
    the theorems can speak about what the code did and in which order. *)

From Stdlib Require Import ZArith List String Ascii Bool Lia DecimalString.
Import ListNotations.
Local Open Scope string_scope.
Local Open Scope Z_scope.

(** ** Outcomes of a Go call

    A call either returns, or ends abnormally: by a runtime or explicit
    [panic], by a failed Gomega assertion (which aborts the running spec),
    by blocking for ever on a channel, or, in a fuelled loop of the
    embedding, by running out of fuel. *)

Inductive abort : Type :=
| Panic (msg : string)
| Fail (msg : string)
| Blocked
| OutOfFuel.

Inductive outcome (A : Type) : Type :=
| Ret (a : A)
| Abort (why : abort).

Arguments Ret {A} a.
Arguments Abort {A} why.

(** The state-and-abort monad: a computation takes a state and gives an
    outcome together with the state it ended in (the state survives an
    abort, as the world does). *)

Definition M (S A : Type) : Type := S -> outcome A * S.

Definition ret {S A : Type} (a : A) : M S A := fun s => (Ret a, s).

Definition bind {S A B : Type} (m : M S A) (k : A -> M S B) : M S B :=
  fun s =>
    match m s with
    | (Ret a, s') => k a s'
    | (Abort why, s') => (Abort why, s')
    end.

Definition abort_with {S A : Type} (why : abort) : M S A :=
  fun s => (Abort why, s).

Declare Scope go_scope.
Delimit Scope go_scope with go.
Notation "x <- m ;; k" := (bind m (fun x => k))
  (at level 61, m at next level, right associativity) : go_scope.
Notation "' pat <- m ;; k" := (bind m (fun x => match x with pat => k end))
  (at level 61, pat pattern, m at next level, right associativity) : go_scope.
Notation "m ;;; k" := (bind m (fun _ => k))
  (at level 61, right associativity) : go_scope.

(** [fmt.Sprintf("%d", n)]. *)
Definition itoa (z : Z) : string := NilZero.string_of_int (Z.to_int z).

(** [uint16(n)] and [uint32(n)] on a Go [int]. *)
Definition uint16 (n : Z) : Z := n mod 2 ^ 16.
Definition uint32 (n : Z) : Z := n mod 2 ^ 32.

(** Dereference of a Go pointer: a nil pointer panics. *)
Definition deref {S A : Type} (p : option A) : M S A :=
  match p with
  | Some a => ret a
  | None => abort_with (Panic "runtime error: invalid memory address or nil pointer dereference")
  end.

(** [defer d] around [m]: the deferred call runs when [m] returns and when
    it panics (a failed assertion of Gomega is a panic), not while [m] is
    blocked or still running. *)
Definition defer_ {S A : Type} (d : M S unit) (m : M S A) : M S A :=
  fun s =>
    match m s with
    | (Ret a, s') =>
      match d s' with
      | (Ret _, s'') => (Ret a, s'')
      | (Abort why, s'') => (Abort why, s'')
      end
    | (Abort (Panic msg), s') => (Abort (Panic msg), snd (d s'))
    | (Abort (Fail msg), s') => (Abort (Fail msg), snd (d s'))
    | (Abort why, s') => (Abort why, s')
    end.

(** ** Lines of text *)

Definition is_LF (c : ascii) : bool := Ascii.eqb c "010"%char.

(** Lines, each with its newline, one after the other. *)
Definition unlines (ls : list string) : string :=
  fold_right (fun l s => l ++ String "010"%char s) EmptyString ls.

(** The line has no newline in it. *)
Fixpoint one_line (l : string) : bool :=
  match l with
  | EmptyString => true
  | String c l' => negb (is_LF c) && one_line l'
  end.

(** Where a line ends: at the end of the text, or at a newline. *)
Definition line_ends (tail : string) : Prop :=
  tail = "" \/ exists t, tail = String "010" t.

(** [strings.HasPrefix(s, prefix)] *)
Fixpoint strings_HasPrefix (s prefix : string) {struct prefix} : bool :=
  match prefix with
  | EmptyString => true
  | String p prefix' =>
    match s with
    | EmptyString => false
    | String c s' => Ascii.eqb c p && strings_HasPrefix s' prefix'
    end
  end.

(** [strings.Contains(s, substr)] *)
Fixpoint strings_Contains (s substr : string) : bool :=
  strings_HasPrefix s substr
  || match s with
     | EmptyString => false
     | String _ s' => strings_Contains s' substr
     end.

(** ** Go errors that the checked code builds or inspects *)

Inductive DBErrorType : Type := KeyNotFound | NonUpdatableField | UniqueField.

Inductive error : Type :=
| client_Error (Code : Z) (Message : string)   (* etcd's client.Error *)
| errors_New (text : string)                   (* errors.New *)
| DBError (Type_ : DBErrorType) (Message : string)
| foreign_error (text : string).               (* any other error value *)

Definition is_nil {A : Type} (p : option A) : bool :=
  match p with None => true | Some _ => false end.

(** * Package db: the etcd store of the routing API *)

Module db.

(** ** The etcd client, as far as db uses it
    (github.com/coreos/etcd/client: declarations only) *)

Definition ErrorCodeKeyNotFound : Z := 100.
Definition ErrorCodeTestFailed : Z := 101.

#[warnings="-register-all"]
Inductive Node : Type :=
| mkNode (Key Value : string) (Nodes : list Node) (ModifiedIndex : Z).

Definition Node_Key (n : Node) : string := let 'mkNode k _ _ _ := n in k.
Definition Node_Value (n : Node) : string := let 'mkNode _ v _ _ := n in v.
Definition Node_Nodes (n : Node) : list Node := let 'mkNode _ _ ns _ := n in ns.
Definition Node_ModifiedIndex (n : Node) : Z := let 'mkNode _ _ _ i := n in i.

(** [Response.Node] is taken to be non-nil, as the etcd client builds it;
    the response pointer itself may be nil, and the code tests it. *)
Record Response : Type := { Response_Action : string; Response_Node : Node }.

Record GetOptions : Type := { Recursive : bool }.

Record SetOptions : Type :=
  { SetOptions_TTL : Z;            (* a time.Duration, in nanoseconds *)
    SetOptions_PrevExist : string;
    SetOptions_PrevIndex : Z }.

Definition time_Second : Z := 1000000000.

(** ** Package models, as far as db uses it (declarations only) *)

Record ModificationTag : Type := { Guid : string; Index : Z }.

Definition Increment (t : ModificationTag) : ModificationTag :=
  {| Guid := Guid t; Index := uint32 (Index t + 1) |}.

Record Route : Type :=
  { Route_Route : string;
    Route_Port : Z;
    Route_IP : string;
    Route_TTL : option Z;          (* *int *)
    Route_LogGuid : string;
    Route_RouteServiceUrl : string;
    Route_ModificationTag : ModificationTag }.

(** [models.NewRoute(url, port, ip, logGuid, routeServiceUrl, ttl)] *)
Definition NewRoute (url : string) (port : Z) (ip logGuid routeServiceUrl : string)
  (ttl : Z) : Route :=
  {| Route_Route := url; Route_Port := port; Route_IP := ip;
     Route_TTL := Some ttl; Route_LogGuid := logGuid;
     Route_RouteServiceUrl := routeServiceUrl;
     Route_ModificationTag := {| Guid := ""; Index := 0 |} |}.

Definition Route_with_tag (r : Route) (t : ModificationTag) : Route :=
  {| Route_Route := Route_Route r; Route_Port := Route_Port r;
     Route_IP := Route_IP r; Route_TTL := Route_TTL r;
     Route_LogGuid := Route_LogGuid r;
     Route_RouteServiceUrl := Route_RouteServiceUrl r;
     Route_ModificationTag := t |}.

Record TcpRoute : Type := { RouterGroupGuid : string; ExternalPort : Z }.

Record TcpRouteMapping : Type :=
  { TcpMapping_TcpRoute : TcpRoute;
    HostPort : Z;
    HostIP : string;
    TcpMapping_ModificationTag : ModificationTag;
    TcpMapping_TTL : option Z }.   (* *int *)

Definition TcpMapping_with_tag (m : TcpRouteMapping) (t : ModificationTag)
  : TcpRouteMapping :=
  {| TcpMapping_TcpRoute := TcpMapping_TcpRoute m; HostPort := HostPort m;
     HostIP := HostIP m; TcpMapping_ModificationTag := t;
     TcpMapping_TTL := TcpMapping_TTL m |}.

Record RouterGroup : Type :=
  { RouterGroup_Guid : string;
    RouterGroup_Name : string;
    RouterGroup_Type : string;
    RouterGroup_ReservablePorts : string }.

(** encoding/json on a model type: [json.Marshal] (whose error db drops)
    and [json.Unmarshal] into a fresh value. *)
Class JSON (A : Type) : Type :=
  { json_Marshal : A -> string;
    json_Unmarshal : string -> error + A }.

(** ** The world db runs in

    [KeysAPI] is etcd's interface of that name, with the one other source
    of outside input, [models.NewModificationTag] (a random guid). *)
Class KeysAPI (W : Type) : Type :=
  { keysAPI_Get : string -> GetOptions -> W -> (option Response * option error) * W;
    keysAPI_Set : string -> string -> SetOptions -> W -> (option Response * option error) * W;
    keysAPI_Delete : string -> W -> (option Response * option error) * W;
    models_NewModificationTag : W -> (ModificationTag * option error) * W }.

(** The calls db made on the KeysAPI, oldest first, each with its result. *)
Inductive Call : Type :=
| CallGet (key : string) (opts : GetOptions)
          (response : option Response) (err : option error)
| CallSet (key value : string) (opts : SetOptions)
          (response : option Response) (err : option error)
| CallDelete (key : string) (err : option error).

Definition is_Get (c : Call) : bool :=
  match c with CallGet _ _ _ _ => true | _ => false end.
Definition is_Set (c : Call) : bool :=
  match c with CallSet _ _ _ _ _ => true | _ => false end.
Definition Call_err (c : Call) : option error :=
  match c with
  | CallGet _ _ _ e => e
  | CallSet _ _ _ _ e => e
  | CallDelete _ e => e
  end.

(** [cerr, ok := err.(client.Error); ok && cerr.Code == code] *)
Definition is_client_Error (code : Z) (err : option error) : bool :=
  match err with
  | Some (client_Error c _) => c =? code
  | _ => false
  end.

Definition HTTP_ROUTE_BASE_KEY : string := "/routes".
Definition TCP_MAPPING_BASE_KEY : string := "/v1/tcp_routes/router_groups".
Definition ROUTER_GROUP_BASE_KEY : string := "/v1/router_groups".
Definition maxRetries : nat := 3.

Definition ErrorConflict : error := errors_New "etcd failed to compare".

Definition readOpts : GetOptions := {| Recursive := true |}.

Definition createOpts (ttl : Z) : SetOptions :=
  {| SetOptions_TTL := ttl * time_Second;
     SetOptions_PrevExist := "false";
     SetOptions_PrevIndex := 0 |}.

Definition updateOptsWithTTL (ttl : Z) (prevIndex : Z) : SetOptions :=
  {| SetOptions_TTL := ttl * time_Second;
     SetOptions_PrevExist := "";
     SetOptions_PrevIndex := prevIndex |}.

Definition updateOpts (prevIndex : Z) : SetOptions :=
  {| SetOptions_TTL := 0;
     SetOptions_PrevExist := "";
     SetOptions_PrevIndex := prevIndex |}.

(** How a loop body hands control back: the function returned, or the
    loop was left (by [break] or by its condition) with this counter. *)
Inductive flow (R : Type) : Type :=
| Return (r : R)
| Leave (retries : nat).
Arguments Return {R} r.
Arguments Leave {R} retries.

Section Etcd.

Context {W : Type} {api : KeysAPI W}.
Context {JSON_Route : JSON Route} {JSON_TcpRouteMapping : JSON TcpRouteMapping}
        {JSON_RouterGroup : JSON RouterGroup}.
(** [url.QueryEscape] *)
Variable url_QueryEscape : string -> string.

(** The state of a run: the world and the calls made so far. *)
Definition St : Type := (W * list Call)%type.

Definition Get (key : string) (opts : GetOptions)
  : M St (option Response * option error) :=
  fun s =>
    let '(r, w') := keysAPI_Get key opts (fst s) in
    (Ret r, (w', (snd s ++ [CallGet key opts (fst r) (snd r)])%list)).

Definition Set_ (key value : string) (opts : SetOptions)
  : M St (option Response * option error) :=
  fun s =>
    let '(r, w') := keysAPI_Set key value opts (fst s) in
    (Ret r, (w', (snd s ++ [CallSet key value opts (fst r) (snd r)])%list)).

Definition Delete (key : string) : M St (option Response * option error) :=
  fun s =>
    let '(r, w') := keysAPI_Delete key (fst s) in
    (Ret r, (w', (snd s ++ [CallDelete key (snd r)])%list)).

Definition NewModificationTag : M St (ModificationTag * option error) :=
  fun s =>
    let '(r, w') := models_NewModificationTag (fst s) in
    (Ret r, (w', snd s)).

Definition generateHttpRouteKey (route : Route) : string :=
  HTTP_ROUTE_BASE_KEY ++ "/" ++ url_QueryEscape (Route_Route route) ++ ","
    ++ Route_IP route ++ ":" ++ itoa (Route_Port route).

Definition generateRouterGroupKey (routerGroup : RouterGroup) : string :=
  ROUTER_GROUP_BASE_KEY ++ "/" ++ RouterGroup_Guid routerGroup.

Definition generateTcpRouteMappingKey (tcpMapping : TcpRouteMapping) : string :=
  TCP_MAPPING_BASE_KEY ++ "/"
    ++ RouterGroupGuid (TcpMapping_TcpRoute tcpMapping) ++ "/"
    ++ itoa (ExternalPort (TcpMapping_TcpRoute tcpMapping)) ++ "/"
    ++ HostIP tcpMapping ++ ":" ++ itoa (HostPort tcpMapping).

Local Open Scope go_scope.

(** *** SaveRoute *)

Fixpoint SaveRoute_loop (fuel : nat) (key : string) (retries : nat)
  (route : Route) {struct fuel} : M St (flow (option error)) :=
  match fuel with
  | O => abort_with OutOfFuel
  | S fuel' =>
    if (retries <=? maxRetries)%nat then
      (* only retry on a compare and swap error *)
      let retry_or_return (err : option error) (route : Route) :=
        if is_client_Error ErrorCodeTestFailed err
        then SaveRoute_loop fuel' key (S retries) route
        else ret (Return err) in
      '(response, err) <- Get key readOpts ;;
      match response, err with
      | Some resp, None =>
        (* Update *)
        match json_Unmarshal (Node_Value (Response_Node resp)) with
        | inl e => ret (Return (Some e))
        | inr existingRoute =>
          let route :=
            Route_with_tag route (Increment (Route_ModificationTag existingRoute)) in
          let routeJSON := json_Marshal route in
          ttl <- deref (Route_TTL route) ;;
          '(_, err) <- Set_ key routeJSON
                         (updateOptsWithTTL ttl (Node_ModifiedIndex (Response_Node resp))) ;;
          if is_nil err then ret (Leave retries)
          else retry_or_return err route
        end
      | _, _ =>
        if is_client_Error ErrorCodeKeyNotFound err then
          (* create; a delete came in between a read and an update *)
          if (0 <? retries)%nat then ret (Return (Some ErrorConflict))
          else
            '(tag, err) <- NewModificationTag ;;
            match err with
            | Some e => ret (Return (Some e))
            | None =>
              let route := Route_with_tag route tag in
              let routeJSON := json_Marshal route in
              ttl <- deref (Route_TTL route) ;;
              '(_, err) <- Set_ key routeJSON (createOpts ttl) ;;
              if is_nil err then ret (Leave retries)
              else retry_or_return err route
            end
        else retry_or_return err route
      end
    else ret (Leave retries)
  end.

(** The code after the loop. *)
Definition SaveRoute_end (r : flow (option error)) : M St (option error) :=
  match r with
  | Return err => ret err
  | Leave retries =>
    if (maxRetries <? retries)%nat then ret (Some ErrorConflict) else ret None
  end.

Definition SaveRoute (fuel : nat) (route : Route) : M St (option error) :=
  let key := generateHttpRouteKey route in
  r <- SaveRoute_loop fuel key 0 route ;;
  SaveRoute_end r.

(** *** SaveTcpRouteMapping *)

Fixpoint SaveTcpRouteMapping_loop (fuel : nat) (key : string) (retries : nat)
  (tcpMapping : TcpRouteMapping) {struct fuel} : M St (flow (option error)) :=
  match fuel with
  | O => abort_with OutOfFuel
  | S fuel' =>
    if (retries <=? maxRetries)%nat then
      (* return when create or update is successful;
         only retry on a compare and swap error *)
      let finish (err : option error) (tcpMapping : TcpRouteMapping) :=
        if is_nil err then ret (Return None)
        else if is_client_Error ErrorCodeTestFailed err
        then SaveTcpRouteMapping_loop fuel' key (S retries) tcpMapping
        else ret (Return err) in
      '(response, err) <- Get key readOpts ;;
      match response, err with
      | Some resp, None =>
        (* Update *)
        match json_Unmarshal (Node_Value (Response_Node resp)) with
        | inl e => ret (Return (Some e))
        | inr existingTcpRouteMapping =>
          let tcpMapping :=
            TcpMapping_with_tag tcpMapping
              (Increment (TcpMapping_ModificationTag existingTcpRouteMapping)) in
          let tcpRouteJSON := json_Marshal tcpMapping in
          ttl <- deref (TcpMapping_TTL tcpMapping) ;;
          '(_, err) <- Set_ key tcpRouteJSON
                         (updateOptsWithTTL ttl (Node_ModifiedIndex (Response_Node resp))) ;;
          finish err tcpMapping
        end
      | _, _ =>
        if is_client_Error ErrorCodeKeyNotFound err then
          (* create; a delete came in between a read and update *)
          if (0 <? retries)%nat then ret (Return (Some ErrorConflict))
          else
            '(tag, err) <- NewModificationTag ;;
            match err with
            | Some e => ret (Return (Some e))
            | None =>
              let tcpMapping := TcpMapping_with_tag tcpMapping tag in
              let tcpRouteMappingJSON := json_Marshal tcpMapping in
              ttl <- deref (TcpMapping_TTL tcpMapping) ;;
              '(_, err) <- Set_ key tcpRouteMappingJSON (createOpts ttl) ;;
              finish err tcpMapping
            end
        else finish err tcpMapping
      end
    else ret (Leave retries)
  end.

(** The code after the loop. *)
Definition SaveTcpRouteMapping_end (r : flow (option error))
  : M St (option error) :=
  match r with
  | Return err => ret err
  | Leave _ => ret (Some ErrorConflict)  (* number of retries exceeded *)
  end.

Definition SaveTcpRouteMapping (fuel : nat) (tcpMapping : TcpRouteMapping)
  : M St (option error) :=
  let key := generateTcpRouteMappingKey tcpMapping in
  r <- SaveTcpRouteMapping_loop fuel key 0 tcpMapping ;;
  SaveTcpRouteMapping_end r.

(** *** ReadRoutes *)

(** The [for ... range] over the nodes: [inl] is what the function returned
    from inside the loop, [inr] the list the loop ended with. *)
Fixpoint ReadRoutes_range (nodes : list Node) (listRoutes : list Route)
  : (list Route * option error) + list Route :=
  match nodes with
  | [] => inr listRoutes
  | node :: nodes' =>
    match json_Unmarshal (Node_Value node) with
    | inl _ => inl ([], None)
    | inr route => ReadRoutes_range nodes' (listRoutes ++ [route])%list
    end
  end.

Definition ReadRoutes : M St (list Route * option error) :=
  let getOpts := {| Recursive := true |} in
  '(response, err) <- Get HTTP_ROUTE_BASE_KEY getOpts ;;
  if negb (is_nil err) then ret ([], None)
  else
    resp <- deref response ;;
    match ReadRoutes_range (Node_Nodes (Response_Node resp)) [] with
    | inl r => ret r
    | inr listRoutes => ret (listRoutes, None)
    end.

(** *** ReadTcpRouteMappings: three nested loops *)

Fixpoint ReadTcpRouteMappings_mappings (nodes : list Node)
  (listMappings : list TcpRouteMapping)
  : (list TcpRouteMapping * option error) + list TcpRouteMapping :=
  match nodes with
  | [] => inr listMappings
  | mappingNode :: nodes' =>
    match json_Unmarshal (Node_Value mappingNode) with
    | inl _ => inl ([], None)
    | inr tcpMapping =>
      ReadTcpRouteMappings_mappings nodes' (listMappings ++ [tcpMapping])%list
    end
  end.

Fixpoint ReadTcpRouteMappings_externalPorts (nodes : list Node)
  (listMappings : list TcpRouteMapping)
  : (list TcpRouteMapping * option error) + list TcpRouteMapping :=
  match nodes with
  | [] => inr listMappings
  | externalPortNode :: nodes' =>
    match ReadTcpRouteMappings_mappings (Node_Nodes externalPortNode) listMappings with
    | inl r => inl r
    | inr listMappings' => ReadTcpRouteMappings_externalPorts nodes' listMappings'
    end
  end.

Fixpoint ReadTcpRouteMappings_routerGroups (nodes : list Node)
  (listMappings : list TcpRouteMapping)
  : (list TcpRouteMapping * option error) + list TcpRouteMapping :=
  match nodes with
  | [] => inr listMappings
  | routerGroupNode :: nodes' =>
    match ReadTcpRouteMappings_externalPorts (Node_Nodes routerGroupNode) listMappings with
    | inl r => inl r
    | inr listMappings' => ReadTcpRouteMappings_routerGroups nodes' listMappings'
    end
  end.

Definition ReadTcpRouteMappings : M St (list TcpRouteMapping * option error) :=
  let getOpts := {| Recursive := true |} in
  '(tcpMappings, err) <- Get TCP_MAPPING_BASE_KEY getOpts ;;
  if negb (is_nil err) then ret ([], None)
  else
    resp <- deref tcpMappings ;;
    match ReadTcpRouteMappings_routerGroups (Node_Nodes (Response_Node resp)) [] with
    | inl r => ret r
    | inr listMappings => ret (listMappings, None)
    end.

(** *** Router groups *)

Fixpoint ReadRouterGroups_range (nodes : list Node) (results : list RouterGroup)
  : (list RouterGroup * option error) + list RouterGroup :=
  match nodes with
  | [] => inr results
  | node :: nodes' =>
    match json_Unmarshal (Node_Value node) with
    | inl e => inl ([], Some e)
    | inr routerGroup => ReadRouterGroups_range nodes' (results ++ [routerGroup])%list
    end
  end.

Definition ReadRouterGroups : M St (list RouterGroup * option error) :=
  let getOpts := {| Recursive := true |} in
  '(response, err) <- Get ROUTER_GROUP_BASE_KEY getOpts ;;
  if negb (is_nil err) then
    if is_client_Error ErrorCodeKeyNotFound err then ret ([], None)
    else ret ([], err)
  else
    resp <- deref response ;;
    match ReadRouterGroups_range (Node_Nodes (Response_Node resp)) [] with
    | inl r => ret r
    | inr results => ret (results, None)
    end.

Definition zero_RouterGroup : RouterGroup :=
  {| RouterGroup_Guid := ""; RouterGroup_Name := "";
     RouterGroup_Type := ""; RouterGroup_ReservablePorts := "" |}.

(** What [json.Unmarshal] has stored in a fresh [models.RouterGroup] when it
    fails on this text (the fields it had decoded by then). *)
Variable RouterGroup_left_by_Unmarshal : string -> RouterGroup.

(** Returns a zero-value struct and nil error when Router Group with guid
    could not be found. *)
Definition ReadRouterGroup (guid : string) : M St (RouterGroup * option error) :=
  let getOpts := {| Recursive := true |} in
  let query :=
    {| RouterGroup_Guid := guid; RouterGroup_Name := "";
       RouterGroup_Type := ""; RouterGroup_ReservablePorts := "" |} in
  '(response, err) <- Get (generateRouterGroupKey query) getOpts ;;
  if negb (is_nil err) then
    if is_client_Error ErrorCodeKeyNotFound err then ret (zero_RouterGroup, None)
    else ret (zero_RouterGroup, err)
  else
    resp <- deref response ;;
    match json_Unmarshal (Node_Value (Response_Node resp)) with
    | inl e =>
      ret (RouterGroup_left_by_Unmarshal (Node_Value (Response_Node resp)), Some e)
    | inr result => ret (result, None)
    end.

(** check for uniqueness of router group name *)
Fixpoint SaveRouterGroup_range (routerGroups : list RouterGroup)
  (routerGroup : RouterGroup) : option error :=
  match routerGroups with
  | [] => None
  | rg :: routerGroups' =>
    if negb (RouterGroup_Guid rg =? RouterGroup_Guid routerGroup)%string
       && (RouterGroup_Name rg =? RouterGroup_Name routerGroup)%string
    then
      let msg := "The RouterGroup with name: " ++ RouterGroup_Name routerGroup
                   ++ " already exists" in
      Some (DBError UniqueField msg)
    else SaveRouterGroup_range routerGroups' routerGroup
  end.

Definition SaveRouterGroup (routerGroup : RouterGroup) : M St (option error) :=
  if (RouterGroup_Guid routerGroup =? "")%string
  then ret (Some (errors_New "Invalid router group: missing guid"))
  else
    (* fetch router groups *)
    '(routerGroups, err) <- ReadRouterGroups ;;
    if negb (is_nil err) then ret err
    else
      match SaveRouterGroup_range routerGroups routerGroup with
      | Some e => ret (Some e)
      | None =>
        let key := generateRouterGroupKey routerGroup in
        let getOpts := {| Recursive := true |} in
        let write : M St (option error) :=
          let json := json_Marshal routerGroup in
          let setOpt :=
            {| SetOptions_TTL := 0; SetOptions_PrevExist := "";
               SetOptions_PrevIndex := 0 |} in
          '(_, err) <- Set_ key json setOpt ;;
          ret err in
        '(rg, err) <- Get key getOpts ;;
        if is_nil err then
          rg <- deref rg ;;
          match json_Unmarshal (Node_Value (Response_Node rg)) with
          | inl e => ret (Some e)
          | inr current =>
            if negb (RouterGroup_Name routerGroup =? RouterGroup_Name current)%string
            then ret (Some (DBError NonUpdatableField
                                    "The RouterGroup Name cannot be updated"))
            else write
          end
        else write
      end.

(** *** DeleteRoute and DeleteTcpRouteMapping *)

Definition DeleteRoute (route : Route) : M St (option error) :=
  let key := generateHttpRouteKey route in
  '(_, err) <- Delete key ;;
  if negb (is_nil err) && is_client_Error ErrorCodeKeyNotFound err
  then ret (Some (DBError KeyNotFound "The specified route could not be found."))
  else ret err.

(** [tcpMapping.String()], of package models. *)
Variable TcpRouteMapping_String : TcpRouteMapping -> string.

Definition DeleteTcpRouteMapping (tcpMapping : TcpRouteMapping)
  : M St (option error) :=
  let key := generateTcpRouteMappingKey tcpMapping in
  '(_, err) <- Delete key ;;
  if negb (is_nil err) && is_client_Error ErrorCodeKeyNotFound err
  then ret (Some (DBError KeyNotFound
                    ("The specified route (" ++ TcpRouteMapping_String tcpMapping
                       ++ ") could not be found.")))
  else ret err.

End Etcd.

(** ** Reading a trace of calls *)

(** The call reported a compare-and-swap failure. *)
Definition cas_failed (c : Call) : bool :=
  is_client_Error ErrorCodeTestFailed (Call_err c).

(** The call is a Get that found no key. *)
Definition key_not_found_Get (c : Call) : bool :=
  is_Get c && is_client_Error ErrorCodeKeyNotFound (Call_err c).

(** The call is a Set that succeeded. *)
Definition successful_Set (c : Call) : bool :=
  is_Set c && is_nil (Call_err c).

Definition count (p : Call -> bool) (l : list Call) : nat :=
  List.length (filter p l).

Fixpoint last_call (l : list Call) : option Call :=
  match l with
  | [] => None
  | c :: l' => match l' with [] => Some c | _ :: _ => last_call l' end
  end.

(** Every Get but the first comes right after a call that reported a
    compare-and-swap failure. *)
Fixpoint retried_after_cas_only (l : list Call) : bool :=
  match l with
  | [] => true
  | c :: l' =>
    match l' with
    | [] => true
    | c' :: _ => (negb (is_Get c') || cas_failed c) && retried_after_cas_only l'
    end
  end.

Definition head_is_Get (l : list Call) : Prop :=
  match l with [] => True | c :: _ => is_Get c = true end.

(** What one run of a save loop, entered with the counter at [r], leaves
    behind: [ext] are the calls it made and [out] is what the save
    function gave back in the end. *)
Definition save_post (r : nat) (ext : list Call) (out : outcome (option error))
  : Prop :=
  ((exists e, out = Ret e) \/ (exists m, out = Abort (Panic m)))
  /\ (count is_Get ext + r <= S maxRetries)%nat
  /\ (count is_Set ext <= count is_Get ext)%nat
  /\ head_is_Get ext
  /\ retried_after_cas_only ext = true
  /\ (r + count cas_failed ext <= S maxRetries)%nat
  /\ ((r + count cas_failed ext = S maxRetries)%nat ->
      out = Ret (Some ErrorConflict))
  /\ (forall c, last_call ext = Some c -> key_not_found_Get c = true ->
      (0 < r \/ 2 <= List.length ext)%nat ->
      out = Ret (Some ErrorConflict))
  /\ (forall c e, last_call ext = Some c -> Call_err c = Some e ->
      cas_failed c = false -> key_not_found_Get c = false ->
      out = Ret (Some e))
  /\ (forall c, last_call ext = Some c -> successful_Set c = true ->
      out = Ret None).

(** The contract of a save function, read off one finished run: [res] is
    what the function gave back, with the world and the trace it ended in.

    - the run ended (it returned, or a nil pointer made it panic);
    - at most [maxRetries + 1] reads and as many writes were tried;
    - a further attempt was made only right after a call that reported
      a compare-and-swap failure;
    - when the retry budget was used up, ErrorConflict came back;
    - so it did when a read after the first attempt found no key;
    - any other error of the last call came back as it was;
    - and nil came back after a write that succeeded. *)
Definition save_contract {W : Type}
  (res : outcome (option error) * (W * list Call)) : Prop :=
  let out := fst res in
  let tr := snd (snd res) in
  ((exists e, out = Ret e) \/ (exists m, out = Abort (Panic m)))
  /\ (count is_Get tr <= S maxRetries)%nat
  /\ (count is_Set tr <= S maxRetries)%nat
  /\ (forall l1 c g l2, tr = (l1 ++ c :: g :: l2)%list ->
      is_Get g = true -> cas_failed c = true)
  /\ (count cas_failed tr <= S maxRetries)%nat
  /\ (count cas_failed tr = S maxRetries -> out = Ret (Some ErrorConflict))
  /\ (forall c, last_call tr = Some c -> key_not_found_Get c = true ->
      (2 <= List.length tr)%nat -> out = Ret (Some ErrorConflict))
  /\ (forall c e, last_call tr = Some c -> Call_err c = Some e ->
      cas_failed c = false -> key_not_found_Get c = false ->
      out = Ret (Some e))
  /\ (forall c, last_call tr = Some c -> successful_Set c = true ->
      out = Ret None).

(** The call is a Get that found the value: a response and no error. *)
Definition found_Get (c : Call) : bool :=
  match c with
  | CallGet _ _ (Some _) None => true
  | _ => false
  end.

(** What a save loop does after a call of etcd that gave [err], [rest]
    being the calls still to come and [out] the result of the function:
    after a compare-and-swap failure the next round, and otherwise nothing
    more, [err] being the result (nil, when the call succeeded). *)
Definition after_call (err : option error) (rest : list Call)
  (out : outcome (option error)) (next_round : Prop) : Prop :=
  if is_client_Error ErrorCodeTestFailed err then next_round
  else rest = [] /\ out = Ret err.

(** The round ended between its Get and its Set: the stored value could not
    be decoded or no modification tag could be made, and that error is the
    result, or the TTL is a nil pointer. *)
Definition stopped_before_the_write (rest : list Call)
  (out : outcome (option error)) : Prop :=
  rest = []
  /\ ((exists e, out = Ret (Some e)) \/ (exists m, out = Abort (Panic m))).

(** The runs of a save function, as calls of etcd and a result: [tr] is
    what a loop entered with the counter at [retries] does, and [out] what
    the function gives back.

    - With the budget used up nothing is called: ErrorConflict.
    - Otherwise the round begins with a Get.  After a Get that found the
      value, and in the first round after a Get that found no key, the
      round goes on to one Set (unless it stops before the write); what the
      Set reports decides as [after_call] says.
    - A Get that finds no key in a later round ends the run at once with
      ErrorConflict.
    - After any other Get, what the Get reported decides as [after_call]
      says. *)
Fixpoint save_run (retries : nat) (tr : list Call)
  (out : outcome (option error)) {struct tr} : Prop :=
  match tr with
  | [] => (maxRetries < retries)%nat /\ out = Ret (Some ErrorConflict)
  | CallGet _ _ response err :: rest =>
    (retries <= maxRetries)%nat
    /\ let write :=
         match rest with
         | CallSet _ _ _ _ err' :: rest' =>
           after_call err' rest' out (save_run (S retries) rest' out)
         | _ => stopped_before_the_write rest out
         end in
       match response, err with
       | Some _, None => write
       | _, _ =>
         if is_client_Error ErrorCodeKeyNotFound err then
           if (0 <? retries)%nat
           then rest = [] /\ out = Ret (Some ErrorConflict)
           else write
         else after_call err rest out (save_run (S retries) rest out)
       end
  | _ => False
  end.

(** Where a run of a save function goes on and where it stops, read off
    its trace [tr]:

    - it begins with a Get;
    - of two calls in a row, either the first reported a compare-and-swap
      failure and the second is the Get of the next round, or the second is
      the Set of a round whose Get found the value or, as the very first
      call, found no key;
    - so a Get after the first attempt that finds no key is the last call,
      a call that reports any other error is the last call, and a Set that
      succeeds is the last call;
    - and a run ends on a compare-and-swap failure only with the budget
      used up. *)
Definition save_stops {W : Type}
  (res : outcome (option error) * (W * list Call)) : Prop :=
  let tr := snd (snd res) in
  (exists g rest, tr = g :: rest /\ is_Get g = true)
  /\ (forall l1 c c' l2, tr = (l1 ++ c :: c' :: l2)%list ->
      (cas_failed c = true /\ is_Get c' = true)
      \/ (is_Set c' = true
          /\ (found_Get c = true \/ (l1 = [] /\ key_not_found_Get c = true))))
  /\ (forall l1 g l2, tr = (l1 ++ g :: l2)%list -> l1 <> [] ->
      key_not_found_Get g = true -> l2 = [])
  /\ (forall l1 c l2 e, tr = (l1 ++ c :: l2)%list -> Call_err c = Some e ->
      cas_failed c = false -> key_not_found_Get c = false -> l2 = [])
  /\ (forall l1 c l2, tr = (l1 ++ c :: l2)%list ->
      successful_Set c = true -> l2 = [])
  /\ (forall c, last_call tr = Some c -> cas_failed c = true ->
      count cas_failed tr = S maxRetries).

(** Some other stored group, with a different guid, has the group's name. *)
Definition name_taken (routerGroups : list RouterGroup)
  (routerGroup : RouterGroup) : Prop :=
  exists rg, In rg routerGroups
    /\ RouterGroup_Guid rg <> RouterGroup_Guid routerGroup
    /\ RouterGroup_Name rg = RouterGroup_Name routerGroup.

Section Contracts.

Context {W : Type} {api : KeysAPI W} {JSON_RouterGroup : JSON RouterGroup}.

(** The contract of SaveRouterGroup, read off one run from the world [w]
    with an empty trace. *)
Definition SaveRouterGroup_contract (routerGroup : RouterGroup) (w : W)
  (res : outcome (option error) * (W * list Call)) : Prop :=
  let out := fst res in
  let tr := snd (snd res) in
  let key := ROUTER_GROUP_BASE_KEY ++ "/" ++ RouterGroup_Guid routerGroup in
  let getOpts := {| Recursive := true |} in
  (* a missing guid: an error, and etcd is not even read *)
  (RouterGroup_Guid routerGroup = "" ->
     out = Ret (Some (errors_New "Invalid router group: missing guid"))
     /\ tr = [])
  (* the name is taken by another group: UniqueField, nothing written *)
  /\ (forall routerGroups s1,
        RouterGroup_Guid routerGroup <> "" ->
        ReadRouterGroups (w, []) = (Ret (routerGroups, None), s1) ->
        name_taken routerGroups routerGroup ->
        (exists msg, out = Ret (Some (DBError UniqueField msg)))
        /\ count is_Set tr = 0%nat)
  (* the write would rename the stored group: NonUpdatableField, nothing
     written *)
  /\ (forall routerGroups w1 tr1 resp w2 current,
        RouterGroup_Guid routerGroup <> "" ->
        ReadRouterGroups (w, []) = (Ret (routerGroups, None), (w1, tr1)) ->
        ~ name_taken routerGroups routerGroup ->
        keysAPI_Get key getOpts w1 = (Some resp, None, w2) ->
        json_Unmarshal (Node_Value (Response_Node resp)) = inr current ->
        RouterGroup_Name current <> RouterGroup_Name routerGroup ->
        out = Ret (Some (DBError NonUpdatableField
                                 "The RouterGroup Name cannot be updated"))
        /\ count is_Set tr = 0%nat)
  (* only otherwise is the group stored, by one Set, the last call *)
  /\ (forall c, In c tr -> is_Set c = true ->
        RouterGroup_Guid routerGroup <> ""
        /\ (exists routerGroups w1 tr1,
              ReadRouterGroups (w, []) = (Ret (routerGroups, None), (w1, tr1))
              /\ ~ name_taken routerGroups routerGroup
              /\ (snd (fst (keysAPI_Get key getOpts w1)) <> None
                  \/ exists resp current,
                       fst (keysAPI_Get key getOpts w1) = (Some resp, None)
                       /\ json_Unmarshal (Node_Value (Response_Node resp))
                          = inr current
                       /\ RouterGroup_Name current = RouterGroup_Name routerGroup))
        /\ (exists response,
              c = CallSet key (json_Marshal routerGroup)
                    {| SetOptions_TTL := 0; SetOptions_PrevExist := "";
                       SetOptions_PrevIndex := 0 |}
                    response (Call_err c))
        /\ out = Ret (Call_err c)
        /\ last_call tr = Some c
        /\ count is_Set tr = 1%nat).

(** What SaveRouterGroup does past the two name guards, from the answers of
    etcd: an error of the listing or of the decoding of the stored group is
    returned with nothing written; the group is stored, by one Set whose
    error is the result, when the read of its key fails, whatever the
    error, and when the stored group has the same name. *)
Definition SaveRouterGroup_stores (routerGroup : RouterGroup) (w : W)
  (res : outcome (option error) * (W * list Call)) : Prop :=
  let key := ROUTER_GROUP_BASE_KEY ++ "/" ++ RouterGroup_Guid routerGroup in
  let getOpts := {| Recursive := true |} in
  let setOpt := {| SetOptions_TTL := 0; SetOptions_PrevExist := "";
                   SetOptions_PrevIndex := 0 |} in
  let json := json_Marshal routerGroup in
  RouterGroup_Guid routerGroup <> "" ->
  (* the listing fails *)
  (forall routerGroups e s1,
     ReadRouterGroups (w, []) = (Ret (routerGroups, Some e), s1) ->
     res = (Ret (Some e), s1))
  /\ (forall routerGroups w1 tr1,
        ReadRouterGroups (w, []) = (Ret (routerGroups, None), (w1, tr1)) ->
        ~ name_taken routerGroups routerGroup ->
        let g := keysAPI_Get key getOpts w1 in
        let read := CallGet key getOpts (fst (fst g)) (snd (fst g)) in
        let s := keysAPI_Set key json setOpt (snd g) in
        let write := CallSet key json setOpt (fst (fst s)) (snd (fst s)) in
        (* the stored group cannot be decoded *)
        (forall resp e,
           fst g = (Some resp, None) ->
           json_Unmarshal (Node_Value (Response_Node resp))
           = @inl error RouterGroup e ->
           res = (Ret (Some e), (snd g, tr1 ++ [read])%list))
        (* the read of the group's key fails *)
        /\ (snd (fst g) <> None ->
            res = (Ret (snd (fst s)), (snd s, tr1 ++ [read; write])%list))
        (* the stored group has the same name *)
        /\ (forall resp current,
              fst g = (Some resp, None) ->
              json_Unmarshal (Node_Value (Response_Node resp)) = inr current ->
              RouterGroup_Name current = RouterGroup_Name routerGroup ->
              res = (Ret (snd (fst s)), (snd s, tr1 ++ [read; write])%list))).

(** The third guard as the specification words it: a write that would
    change the name of a stored group with the same guid is not made. *)
Definition renames_are_refused : Prop :=
  forall (w : W) (routerGroup existing : RouterGroup)
         (routerGroups : list RouterGroup) (s1 : W * list Call),
    ReadRouterGroups (w, []) = (Ret (routerGroups, None), s1) ->
    In existing routerGroups ->
    RouterGroup_Guid existing = RouterGroup_Guid routerGroup ->
    RouterGroup_Name existing <> RouterGroup_Name routerGroup ->
    count is_Set (snd (snd (SaveRouterGroup routerGroup (w, [])))) = 0%nat
    /\ fst (SaveRouterGroup routerGroup (w, []))
       = Ret (Some (DBError NonUpdatableField
                            "The RouterGroup Name cannot be updated")).

End Contracts.

(** ** Reading what the readers and the deletes return *)

(** The node's value decodes to [a]. *)
Definition decodes {A : Type} {codec : JSON A} (node : Node) (a : A) : Prop :=
  json_Unmarshal (Node_Value node) = inr a.

(** The nodes of the mappings: the third level below the directory. *)
Definition mapping_nodes (routerGroupNodes : list Node) : list Node :=
  flat_map (fun routerGroupNode => flat_map Node_Nodes (Node_Nodes routerGroupNode))
           routerGroupNodes.

(** What a delete gives back for the error of etcd. *)
Definition delete_result (message : string) (err : option error) : option error :=
  if is_client_Error ErrorCodeKeyNotFound err
  then Some (DBError KeyNotFound message)
  else err.

(** ** The writes of the save functions

    A save works in rounds: a Get of the key, and then at most one Set of
    the same key.  [write first response err value opts] says what the Set
    of a round may be after a Get that gave [response] and [err]; [first]
    tells the first round from the retries. *)
Fixpoint rounds (key : string)
  (write : bool -> option Response -> option error -> string -> SetOptions -> Prop)
  (first : bool) (tr : list Call) {struct tr} : Prop :=
  match tr with
  | [] => True
  | CallGet k opts response err :: rest =>
    k = key /\ opts = readOpts
    /\ match rest with
       | CallSet k' value setOpts _ _ :: rest' =>
         k' = key /\ write first response err value setOpts
         /\ rounds key write false rest'
       | _ => rounds key write false rest
       end
  | _ => False
  end.

(** The Set SaveRoute may make after a Get.  After a Get that found the
    route it is an update: the value is the route with the stored
    modification tag incremented, and the write is conditional on the
    index of the node that was read.  After a Get that found no key it is
    a create, in the first round only: the write is conditional on the key
    not being there. *)
Definition route_write {JSON_Route : JSON Route} (route : Route) (first : bool)
  (response : option Response) (err : option error)
  (value : string) (opts : SetOptions) : Prop :=
  exists ttl,
    Route_TTL route = Some ttl
    /\ match response, err with
       | Some resp, None =>
         opts = {| SetOptions_TTL := ttl * time_Second;
                   SetOptions_PrevExist := "";
                   SetOptions_PrevIndex := Node_ModifiedIndex (Response_Node resp) |}
         /\ exists existingRoute,
              json_Unmarshal (Node_Value (Response_Node resp)) = inr existingRoute
              /\ value = json_Marshal
                           (Route_with_tag route
                              (Increment (Route_ModificationTag existingRoute)))
       | _, _ =>
         first = true
         /\ is_client_Error ErrorCodeKeyNotFound err = true
         /\ opts = {| SetOptions_TTL := ttl * time_Second;
                      SetOptions_PrevExist := "false";
                      SetOptions_PrevIndex := 0 |}
         /\ exists tag, value = json_Marshal (Route_with_tag route tag)
       end.

(** The same for SaveTcpRouteMapping. *)
Definition mapping_write {JSON_TcpRouteMapping : JSON TcpRouteMapping}
  (tcpMapping : TcpRouteMapping) (first : bool)
  (response : option Response) (err : option error)
  (value : string) (opts : SetOptions) : Prop :=
  exists ttl,
    TcpMapping_TTL tcpMapping = Some ttl
    /\ match response, err with
       | Some resp, None =>
         opts = {| SetOptions_TTL := ttl * time_Second;
                   SetOptions_PrevExist := "";
                   SetOptions_PrevIndex := Node_ModifiedIndex (Response_Node resp) |}
         /\ exists existing,
              json_Unmarshal (Node_Value (Response_Node resp)) = inr existing
              /\ value = json_Marshal
                           (TcpMapping_with_tag tcpMapping
                              (Increment (TcpMapping_ModificationTag existing)))
       | _, _ =>
         first = true
         /\ is_client_Error ErrorCodeKeyNotFound err = true
         /\ opts = {| SetOptions_TTL := ttl * time_Second;
                      SetOptions_PrevExist := "false";
                      SetOptions_PrevIndex := 0 |}
         /\ exists tag, value = json_Marshal (TcpMapping_with_tag tcpMapping tag)
       end.

(** ** WatchRouteChanges: the goroutine that forwards the events of etcd

    [dispatchWatchEvents] runs in a goroutine of its own.  Its two channels
    are unbuffered: a send goes through when the other end takes the value,
    and blocks for ever when it never does; the world says which. *)

Definition ErrorCodeEventIndexCleared : Z := 401.

(** [context.Canceled].  An error made by [errors.New] is told from the
    others by its text. *)
Definition context_Canceled : error := errors_New "context canceled".

Definition DBErrorType_eqb (a b : DBErrorType) : bool :=
  match a, b with
  | KeyNotFound, KeyNotFound => true
  | NonUpdatableField, NonUpdatableField => true
  | UniqueField, UniqueField => true
  | _, _ => false
  end.

(** [err == err'] on two error values. *)
Definition error_eqb (a b : error) : bool :=
  match a, b with
  | client_Error c m, client_Error c' m' => (c =? c') && (m =? m')%string
  | errors_New t, errors_New t' => (t =? t')%string
  | DBError ty m, DBError ty' m' => DBErrorType_eqb ty ty' && (m =? m')%string
  | foreign_error t, foreign_error t' => (t =? t')%string
  | _, _ => false
  end.

(** etcd's watchers, and the other end of the two channels. *)
Class Watching (W Watcher : Type) : Type :=
  { keysAPI_Watcher : string -> bool -> W -> Watcher * W;
    watcher_Next : Watcher -> W -> (option Response * option error) * W;
    events_taken : W -> bool * W;
    errors_taken : W -> bool * W }.

(** What the goroutine did, oldest first. *)
Inductive Watch (Event : Type) : Type :=
| NewWatcher (key : string) (recursive : bool)
| Next (resp : option Response) (err : option error)
| SendEvent (event : Event)
| SendError (err : error)
| CloseErrors
| CloseEvents.
Arguments NewWatcher {Event} key recursive.
Arguments Next {Event} resp err.
Arguments SendEvent {Event} event.
Arguments SendError {Event} err.
Arguments CloseErrors {Event}.
Arguments CloseEvents {Event}.

Section Watch.

Context {W Watcher : Type} {watching : Watching W Watcher}.
(** The events of package db, and [NewEvent], which makes one of a
    response of the watcher. *)
Variable Event : Type.
Variable NewEvent : option Response -> Event * option error.

Definition WatchSt : Type := (W * list (Watch Event))%type.

Definition watch_call {A : Type} (f : W -> A * W) (ev : A -> Watch Event)
  : M WatchSt A :=
  fun s =>
    let '(a, w') := f (fst s) in
    (Ret a, (w', (snd s ++ [ev a])%list)).

(** [events <- event] *)
Definition send_event (event : Event) : M WatchSt unit :=
  fun s =>
    let '(taken, w') := events_taken (fst s) in
    if taken : bool then (Ret tt, (w', (snd s ++ [SendEvent event])%list))
    else (Abort Blocked, (w', snd s)).

(** [errors <- err] *)
Definition send_error (err : error) : M WatchSt unit :=
  fun s =>
    let '(taken, w') := errors_taken (fst s) in
    if taken : bool then (Ret tt, (w', (snd s ++ [SendError err])%list))
    else (Abort Blocked, (w', snd s)).

(** [close(errors)] and [close(events)] *)
Definition close_errors : M WatchSt unit :=
  fun s => (Ret tt, (fst s, (snd s ++ [CloseErrors])%list)).
Definition close_events : M WatchSt unit :=
  fun s => (Ret tt, (fst s, (snd s ++ [CloseEvents])%list)).

Local Open Scope go_scope.

(** The [for] loop of dispatchWatchEvents. *)
Fixpoint dispatchWatchEvents_loop (fuel : nat) (key : string) (watcher : Watcher)
  {struct fuel} : M WatchSt unit :=
  match fuel with
  | O => abort_with OutOfFuel
  | S fuel' =>
    '(resp, err) <- watch_call (watcher_Next watcher) (fun r => Next (fst r) (snd r)) ;;
    match err with
    | Some e =>
      if is_client_Error ErrorCodeEventIndexCleared err then
        watcher <- watch_call (keysAPI_Watcher key true)
                              (fun _ => NewWatcher key true) ;;
        dispatchWatchEvents_loop fuel' key watcher
      else if negb (error_eqb e context_Canceled) then send_error e
      else ret tt
    | None =>
      let '(event, err) := NewEvent resp in
      match err with
      | Some e => send_error e
      | None =>
        send_event event ;;;
        dispatchWatchEvents_loop fuel' key watcher
      end
    end
  end.

Definition dispatchWatchEvents (fuel : nat) (key : string) : M WatchSt unit :=
  watcher <- watch_call (keysAPI_Watcher key true) (fun _ => NewWatcher key true) ;;
  defer_ close_events
    (defer_ close_errors
       (dispatchWatchEvents_loop fuel key watcher)).

(** What the loop may leave in the trace: after a [Next] that gave a
    response, the event made of it is sent and the loop goes on, or the
    error of [NewEvent] is sent and the loop ends; after a [Next] that
    failed because the index was cleared, a new watcher is made and the
    loop goes on; after a [Next] that failed otherwise the error is sent,
    unless it is [context.Canceled], and the loop ends.  A trace that stops
    short is that of a run blocked in a send, or still going. *)
Fixpoint forwards (key : string) (tr : list (Watch Event)) {struct tr} : Prop :=
  match tr with
  | [] => True
  | Next resp None :: rest =>
    match NewEvent resp with
    | (event, None) =>
      match rest with
      | [] => True
      | SendEvent event' :: rest' => event' = event /\ forwards key rest'
      | _ => False
      end
    | (_, Some e) => rest = [] \/ rest = [SendError e]
    end
  | Next resp (Some e) :: rest =>
    if is_client_Error ErrorCodeEventIndexCleared (Some e) then
      match rest with
      | NewWatcher key' recursive :: rest' =>
        key' = key /\ recursive = true /\ forwards key rest'
      | _ => False
      end
    else if error_eqb e context_Canceled then rest = []
    else rest = [] \/ rest = [SendError e]
  | _ => False
  end.

(** The loop has ended: the last thing it did was to send an error, or to
    see the context cancelled. *)
Definition ended (tr : list (Watch Event)) : bool :=
  match List.last tr CloseEvents with
  | SendError _ => true
  | Next _ (Some e) => error_eqb e context_Canceled
  | _ => false
  end.

End Watch.

End db.

(** * Package helpers: the configuration loaders *)

(** The process environment a loader reads: variables and files. *)
Record Env : Type :=
  { os_Getenv : string -> string;
    os_Open : string -> error + string }.   (* the file's content *)

(** [err.Error()], for [panic(err)]. *)
Definition Error (e : error) : string :=
  match e with
  | client_Error _ m => m
  | errors_New t => t
  | DBError _ m => m
  | foreign_error t => t
  end.

Definition panic {S A : Type} (msg : string) : M S A := abort_with (Panic msg).

Definition Getenv (name : string) : M Env string :=
  fun env => (Ret (os_Getenv env name), env).

Definition Open (path : string) : M Env (error + string) :=
  fun env => (Ret (os_Open env path), env).

(** ** helpers/test_helpers.go *)

Module helpers.

(** cf-test-helpers' [config.Config], as far as the loader reads it. *)
Record Config : Type :=
  { ApiEndpoint : string;
    AppsDomain : string;
    SkipSSLValidation : bool }.

Record OAuthConfig : Type :=
  { TokenEndpoint : string;
    ClientName : string;
    ClientSecret : string;
    Port : Z }.

Record RoutingConfig : Type :=
  { Config_ : option Config;         (* the embedded *config.Config *)
    RoutingApiUrl : string;
    Addresses : list string;
    OAuth : option OAuthConfig;      (* *OAuthConfig *)
    IncludeHttpRoutes : bool;
    TcpAppDomain : string;
    LBConfigured : bool }.

Definition with_Config (c : RoutingConfig) (cfg : option Config) : RoutingConfig :=
  {| Config_ := cfg; RoutingApiUrl := RoutingApiUrl c;
     Addresses := Addresses c; OAuth := OAuth c;
     IncludeHttpRoutes := IncludeHttpRoutes c;
     TcpAppDomain := TcpAppDomain c; LBConfigured := LBConfigured c |}.

Definition with_RoutingApiUrl (c : RoutingConfig) (url : string) : RoutingConfig :=
  {| Config_ := Config_ c; RoutingApiUrl := url;
     Addresses := Addresses c; OAuth := OAuth c;
     IncludeHttpRoutes := IncludeHttpRoutes c;
     TcpAppDomain := TcpAppDomain c; LBConfigured := LBConfigured c |}.

Section Loader.

(** [json.NewDecoder(configFile).Decode(&config)] on a file's content. *)
Variable json_Decode : string -> error + RoutingConfig.
(** cf-test-helpers' [config.LoadConfig()]: it reads the same environment
    and gives a pointer, or panics. *)
Variable config_LoadConfig : M Env (option Config).

Local Open Scope go_scope.

Definition configPath : M Env string :=
  path <- Getenv "CONFIG" ;;
  if (path =? "")%string
  then panic "Must set $CONFIG to point to an integration config .json file."
  else ret path.

Definition loadConfigJsonFromPath : M Env RoutingConfig :=
  path <- configPath ;;
  r <- Open path ;;
  match r with
  | inl err => panic (Error err)
  | inr configFile =>
    match json_Decode configFile with
    | inl err => panic (Error err)
    | inr config => ret config
    end
  end.

Definition LoadConfig : M Env RoutingConfig :=
  loadedConfig <- loadConfigJsonFromPath ;;
  cfg <- config_LoadConfig ;;
  let loadedConfig := with_Config loadedConfig cfg in
  if is_nil (OAuth loadedConfig) then panic "missing configuration oauth"
  else if (List.length (Addresses loadedConfig) =? 0)%nat
  then panic "missing configuration 'addresses'"
  else
    c <- deref (Config_ loadedConfig) ;;
    if (AppsDomain c =? "")%string then panic "missing configuration apps_domain"
    else
      c <- deref (Config_ loadedConfig) ;;
      if (ApiEndpoint c =? "")%string then panic "missing configuration api"
      else
        c <- deref (Config_ loadedConfig) ;;
        ret (with_RoutingApiUrl loadedConfig ("https://" ++ ApiEndpoint c)).

(** A required field of the loaded configuration is missing. *)
Definition missing_field (c : RoutingConfig) (cfg : Config) : Prop :=
  OAuth c = None \/ Addresses c = [] \/ AppsDomain cfg = "" \/ ApiEndpoint cfg = "".

(** No configuration is loaded: $CONFIG is unset, or the file it names
    cannot be opened, or its content cannot be decoded. *)
Definition not_loaded (env : Env) : Prop :=
  os_Getenv env "CONFIG" = ""
  \/ (exists err, os_Open env (os_Getenv env "CONFIG") = inl err)
  \/ (exists configFile err,
        os_Open env (os_Getenv env "CONFIG") = inr configFile
        /\ json_Decode configFile = inl err).

(** The claim as the specification words it: LoadConfig panics exactly
    when a required field of the configuration is missing. *)
Definition panics_exactly_on_missing_field : Prop :=
  forall env : Env,
    (exists msg, fst (LoadConfig env) = Abort (Panic msg)) <->
    (exists c cfg,
        fst (loadConfigJsonFromPath env) = Ret c
        /\ fst (config_LoadConfig env) = Ret (Some cfg)
        /\ missing_field c cfg).

End Loader.

(** ** NewUaaClient *)

(** uaa-go-client's [config.Config]. *)
Record UaaConfig : Type :=
  { UaaEndpoint : string;
    SkipVerification : bool;
    UaaConfig_ClientName : string;
    UaaConfig_ClientSecret : string;
    MaxNumberOfRetries : Z;
    RetryInterval : Z;               (* a time.Duration, in nanoseconds *)
    ExpirationBufferInSec : Z }.

Definition time_Millisecond : Z := 1000000.

(** The UAA, reached through uaa-go-client: [uaaclient.NewClient] (the
    logger and the clock it is given play no part here) and the client's
    [FetchToken]. *)
Class UAA (W Client Token : Type) : Type :=
  { uaaclient_NewClient : UaaConfig -> W -> (option Client * option error) * W;
    uaaClient_FetchToken : Client -> bool -> W -> (option Token * option error) * W }.

Inductive UaaCall (Client : Type) : Type :=
| NewClient (cfg : UaaConfig) (uaaClient : option Client) (err : option error)
| FetchToken (uaaClient : Client) (forceUpdate : bool) (err : option error).
Arguments NewClient {Client} cfg uaaClient err.
Arguments FetchToken {Client} uaaClient forceUpdate err.

Section Uaa.

Context {W Client Token : Type} {uaa : UAA W Client Token}.

Definition UaaSt : Type := (W * list (UaaCall Client))%type.

Definition uaa_call {A : Type} (f : W -> A * W) (ev : A -> UaaCall Client)
  : M UaaSt A :=
  fun s =>
    let '(a, w') := f (fst s) in
    (Ret a, (w', (snd s ++ [ev a])%list)).

Local Open Scope go_scope.

(** [Expect(err).ToNot(HaveOccurred())] *)
Definition Expect_ToNot_HaveOccurred (err : option error) : M UaaSt unit :=
  match err with
  | None => ret tt
  | Some e => abort_with (Fail ("Expected success, but got an error: " ++ Error e))
  end.

Definition NewUaaClient (routerApiConfig : RoutingConfig) : M UaaSt Client :=
  oauth <- deref (OAuth routerApiConfig) ;;
  let tokenURL := TokenEndpoint oauth ++ ":" ++ itoa (Port oauth) in
  c <- deref (Config_ routerApiConfig) ;;
  oauth <- deref (OAuth routerApiConfig) ;;
  let cfg :=
    {| UaaEndpoint := tokenURL;
       SkipVerification := SkipSSLValidation c;
       UaaConfig_ClientName := ClientName oauth;
       UaaConfig_ClientSecret := ClientSecret oauth;
       MaxNumberOfRetries := 3;
       RetryInterval := 500 * time_Millisecond;
       ExpirationBufferInSec := 30 |} in
  '(uaaClient, err) <- uaa_call (uaaclient_NewClient cfg)
                                (fun r => NewClient cfg (fst r) (snd r)) ;;
  Expect_ToNot_HaveOccurred err ;;;
  client <- deref uaaClient ;;
  '(_, err) <- uaa_call (uaaClient_FetchToken client true)
                        (fun r => FetchToken client true (snd r)) ;;
  Expect_ToNot_HaveOccurred err ;;;
  ret client.

(** The configuration NewUaaClient is to hand to the UAA client. *)
Definition uaa_config (c : Config) (oauth : OAuthConfig) : UaaConfig :=
  {| UaaEndpoint := TokenEndpoint oauth ++ ":" ++ itoa (Port oauth);
     SkipVerification := SkipSSLValidation c;
     UaaConfig_ClientName := ClientName oauth;
     UaaConfig_ClientSecret := ClientSecret oauth;
     MaxNumberOfRetries := 3;
     RetryInterval := 500000000;
     ExpirationBufferInSec := 30 |}.

End Uaa.

(** ** GrabName

    The regular expressions of Go, as far as the code uses them: a
    sequence of items, each one character or the dot, alone or under a
    star.  [regexp] gives the leftmost match and, there, the one a
    backtracking matcher finds first: a star takes as much as it can. *)

Inductive atom : Type :=
| Dot                       (* any character but a newline *)
| Lit (c : ascii).

Inductive item : Type :=
| One (a : atom)
| Star (a : atom).

Definition Regexp : Type := list item.

Definition atom_matches (a : atom) (c : ascii) : bool :=
  match a with
  | Dot => negb (is_LF c)
  | Lit c' => Ascii.eqb c c'
  end.

(** The match of [re] at the start of [s]. *)
Fixpoint match_here (re : Regexp) : string -> option string :=
  match re with
  | [] => fun _ => Some EmptyString
  | One a :: re' =>
    fun s =>
      match s with
      | EmptyString => None
      | String c s' =>
        if atom_matches a c
        then option_map (String c) (match_here re' s')
        else None
      end
  | Star a :: re' =>
    fix star (s : string) : option string :=
      match s with
      | EmptyString => match_here re' EmptyString
      | String c s' =>
        if atom_matches a c then
          match star s' with
          | Some m => Some (String c m)
          | None => match_here re' s
          end
        else match_here re' s
      end
  end.

(** [re.FindStringSubmatch(s)] for an expression without groups: the
    leftmost match alone, and nil when there is none. *)
Fixpoint FindStringSubmatch (re : Regexp) (s : string) : list string :=
  match match_here re s with
  | Some m => [m]
  | None =>
    match s with
    | EmptyString => []
    | String _ s' => FindStringSubmatch re s'
    end
  end.

(** [regexp.MustCompile(".*tcp")] *)
Definition re_tcp : Regexp := [Star Dot; One (Lit "t"); One (Lit "c"); One (Lit "p")].

(** [strings.Split(s, sep)] for a separator of one byte. *)
Fixpoint strings_Split (s : string) (sep : ascii) : list string :=
  match s with
  | EmptyString => [EmptyString]
  | String c s' =>
    if Ascii.eqb c sep then EmptyString :: strings_Split s' sep
    else
      match strings_Split s' sep with
      | name :: names => String c name :: names
      | [] => [String c EmptyString]
      end
  end.

(** What Ginkgo holds against the running spec: the failures reported. *)
Definition Failer : Type := list string.

(** [defer GinkgoRecover()] in a function whose result is still [zero]
    when it panics: a failed assertion, or any other panic, ends the
    function there; it is recovered, the failure stays with the spec, and
    the function returns. *)
Definition defer_GinkgoRecover {A : Type} (zero : A) (m : M Failer A)
  : M Failer A :=
  fun failed =>
    match m failed with
    | (Ret a, failed') => (Ret a, failed')
    | (Abort (Fail msg), failed') => (Ret zero, (failed' ++ [msg])%list)
    | (Abort (Panic msg), failed') => (Ret zero, (failed' ++ [msg])%list)
    | (Abort why, failed') => (Abort why, failed')
    end.

(** [Expect(actual).To(BeNumerically(">=", threshold))] *)
Definition Expect_To_BeNumerically_ge (actual threshold : Z) : M Failer unit :=
  if actual >=? threshold then ret tt
  else abort_with (Fail ("Expected " ++ itoa actual ++ " to be >= " ++ itoa threshold)).

(** [l[0]] *)
Definition index_0 (l : list string) : M Failer string :=
  match l with
  | x :: _ => ret x
  | [] => abort_with (Panic "runtime error: index out of range")
  end.

Local Open Scope go_scope.

Definition GrabName (logLines : string) : M Failer string :=
  defer_GinkgoRecover ""
    (let re := re_tcp in
     let matches := FindStringSubmatch re logLines in
     Expect_To_BeNumerically_ge (Z.of_nat (List.length matches)) 1 ;;;
     match_0 <- index_0 matches ;;
     let names := strings_Split match_0 " " in
     Expect_To_BeNumerically_ge (Z.of_nat (List.length names)) 1 ;;;
     index_0 names).

End helpers.

(** ** The loader of the router API configuration *)

Module router_helpers.

Record RouterApiConfig : Type :=
  { Address : string;
    Port : Z;                        (* uint16 *)
    BBSAddress : string }.

Definition DEFAULT_BBS_API_URL : string := "http://bbs.service.cf.internal:8889".

Definition with_BBSAddress (c : RouterApiConfig) (url : string) : RouterApiConfig :=
  {| Address := Address c; Port := Port c; BBSAddress := url |}.

Section Loader.

(** [json.NewDecoder(configFile).Decode(&config)] on a file's content. *)
Variable json_Decode : string -> error + RouterApiConfig.

Local Open Scope go_scope.

Definition configPath : M Env string :=
  path <- Getenv "ROUTER_API_CONFIG" ;;
  if (path =? "")%string
  then panic "Must set $ROUTER_API_CONFIG to point to an integration config .json file."
  else ret path.

Definition loadConfigJsonFromPath : M Env RouterApiConfig :=
  path <- configPath ;;
  r <- Open path ;;
  match r with
  | inl err => panic (Error err)
  | inr configFile =>
    match json_Decode configFile with
    | inl err => panic (Error err)
    | inr config => ret config
    end
  end.

Definition LoadConfig : M Env RouterApiConfig :=
  loadedConfig <- loadConfigJsonFromPath ;;
  if (Address loadedConfig =? "")%string then panic "missing configuration 'address'"
  else if Port loadedConfig =? 0 then panic "missing configuration 'port'"
  else
    let loadedConfig :=
      if (BBSAddress loadedConfig =? "")%string
      then with_BBSAddress loadedConfig DEFAULT_BBS_API_URL
      else loadedConfig in
    ret loadedConfig.

(** A required field of the loaded configuration is missing. *)
Definition missing_field (c : RouterApiConfig) : Prop :=
  Address c = "" \/ Port c = 0.

(** No configuration is loaded: $ROUTER_API_CONFIG is unset, or the file it
    names cannot be opened, or its content cannot be decoded. *)
Definition not_loaded (env : Env) : Prop :=
  os_Getenv env "ROUTER_API_CONFIG" = ""
  \/ (exists err, os_Open env (os_Getenv env "ROUTER_API_CONFIG") = inl err)
  \/ (exists configFile err,
        os_Open env (os_Getenv env "ROUTER_API_CONFIG") = inr configFile
        /\ json_Decode configFile = inl err).

(** The claim as the specification words it. *)
Definition panics_exactly_on_missing_field : Prop :=
  forall env : Env,
    (exists msg, fst (LoadConfig env) = Abort (Panic msg)) <->
    (exists c, fst (loadConfigJsonFromPath env) = Ret c /\ missing_field c).

End Loader.

End router_helpers.

(** * Package router: the TCP routing specs *)

(** ** Bytes

    A Go [[]byte] and a Go [string] are both embedded as [string]; the
    conversions between them are the identity. *)

(** [make([]byte, n)] *)
Fixpoint zeros (n : nat) : string :=
  match n with
  | O => EmptyString
  | S n' => String "000"%char (zeros n')
  end.

(** What [dst] holds after [src] was copied to its front. *)
Fixpoint copy (dst src : string) : string :=
  match dst, src with
  | EmptyString, _ => EmptyString
  | String _ _, EmptyString => dst
  | String _ dst', String c src' => String c (copy dst' src')
  end.

(** [b[0:n]], for [n] up to the length of [b]. *)
Fixpoint take (n : nat) (b : string) : string :=
  match n, b with
  | S n', String c b' => String c (take n' b')
  | _, _ => EmptyString
  end.

Module router.

Definition DEFAULT_CONNECT_TIMEOUT : Z := 1 * 1000000000.
Definition CONN_TYPE : string := "tcp".

(** cf-tcp-router's request types (declarations only). *)
Record BackendHostInfo : Type :=
  { BackendHostInfo_Address : string; BackendHostInfo_Port : Z }.

Definition NewBackendHostInfo (address : string) (port : Z) : BackendHostInfo :=
  {| BackendHostInfo_Address := address; BackendHostInfo_Port := port |}.

Record MappingRequest : Type :=
  { ExternalPort : Z; Backends : list BackendHostInfo }.

Definition NewMappingRequest (externalPort : Z) (backends : list BackendHostInfo)
  : MappingRequest :=
  {| ExternalPort := externalPort; Backends := backends |}.

Definition Conn : Type := nat.

Record http_Response : Type := { StatusCode : Z }.
Definition http_StatusOK : Z := 200.

(** The network and the clock, as the specs reach them.  [conn_Read c n]
    gives the bytes the peer delivered to a read into a buffer of [n]
    bytes (what does not fit stays unread). *)
Class Net (W : Type) : Type :=
  { http_Post : string -> string -> string -> W -> (error + http_Response) * W;
    net_DialTimeout : string -> string -> Z -> W -> (error + Conn) * W;
    net_Dial : string -> string -> W -> (error + Conn) * W;
    conn_Write : Conn -> string -> W -> option error * W;
    conn_Read : Conn -> nat -> W -> (string * option error) * W;
    conn_Close : Conn -> W -> option error * W;
    time_Now_Nanosecond : W -> Z * W }.

(** What a spec did, oldest first. *)
Inductive Event : Type :=
| Post (url contentType body : string) (result : error + http_Response)
| DialTimeout (network address : string) (timeout : Z) (result : error + Conn)
| Dial (network address : string) (result : error + Conn)
| Write (conn : Conn) (b : string) (err : option error)
| Read (conn : Conn) (len : nat) (data : string) (err : option error)
| Close (conn : Conn) (err : option error)
| Nanosecond (n : Z)
| Send (err : option error).        (* errChan <- err *)

(** A channel of errors: the values sent and not yet received. *)
Definition chan : Type := list (option error).

Section Specs.

Context {W : Type} {net : Net W}.
(** The suite's variables. *)
Variable externalIP : string.
Variable routerApiConfig : router_helpers.RouterApiConfig.
(** [GinkgoParallelNode()] *)
Variable node : Z.
(** [json.Marshal] on the mapping requests. *)
Variable json_Marshal : list MappingRequest -> string * option error.

Definition St : Type := (W * list Event)%type.

Definition call {A : Type} (f : W -> A * W) (ev : A -> Event) : M St A :=
  fun s =>
    let '(a, w') := f (fst s) in
    (Ret a, (w', (snd s ++ [ev a])%list)).

Local Open Scope go_scope.

(** *** Gomega *)

Definition Expect_NotTo_HaveOccurred (err : option error) : M St unit :=
  match err with
  | None => ret tt
  | Some e => abort_with (Fail ("Expected success, but got an error: " ++ Error e))
  end.

(** The same assertion on the error of a call that gives a value or an
    error: the value is what the code goes on with. *)
Definition Expect_no_error {A : Type} (r : error + A) : M St A :=
  match r with
  | inl e => abort_with (Fail ("Expected success, but got an error: " ++ Error e))
  | inr a => ret a
  end.

Definition Expect_Equal (actual expected : Z) : M St unit :=
  if actual =? expected then ret tt
  else abort_with (Fail ("Expected " ++ itoa actual ++ " to equal " ++ itoa expected)).

Definition Expect_ShouldNot_Equal (actual expected : string) : M St unit :=
  if (actual =? expected)%string
  then abort_with (Fail ("Expected " ++ actual ++ " not to equal " ++ expected))
  else ret tt.

(** *** configureMapping *)

Fixpoint configureMapping_range (backendPorts : list Z)
  (backends : list BackendHostInfo) : list BackendHostInfo :=
  match backendPorts with
  | [] => backends
  | backendPort :: backendPorts' =>
    configureMapping_range backendPorts'
      (backends ++ [NewBackendHostInfo externalIP (uint16 backendPort)])%list
  end.

Definition external_ports_url : string :=
  "http://" ++ router_helpers.Address routerApiConfig ++ ":"
    ++ itoa (router_helpers.Port routerApiConfig) ++ "/v0/external_ports".

Definition configureMapping (externalPort : Z) (backendPorts : list Z) : M St unit :=
  let backends := configureMapping_range backendPorts [] in
  let createMappingRequest := [NewMappingRequest (uint16 externalPort) backends] in
  let '(payload, err) := json_Marshal createMappingRequest in
  Expect_NotTo_HaveOccurred err ;;;
  r <- call (http_Post external_ports_url "application/json" payload)
            (Post external_ports_url "application/json" payload) ;;
  resp <- Expect_no_error r ;;
  Expect_Equal (StatusCode resp) http_StatusOK.

(** *** checkConnection *)

(** [errChan <- err], on a channel of capacity one. *)
Definition send (errChan : chan) (err : option error) : M St chan :=
  if (1 <=? List.length errChan)%nat then abort_with Blocked
  else fun s => (Ret (errChan ++ [err])%list, (fst s, (snd s ++ [Send err])%list)).

Definition conn_Read_into (conn : Conn) (buff : string)
  : M St (string * option error) :=
  '(data, err) <- call (conn_Read conn (String.length buff))
                       (fun r => Read conn (String.length buff) (fst r) (snd r)) ;;
  ret (copy buff data, err).

Definition mismatch (buff expectedMessage : string) : error :=
  errors_New ("Message mismatch. Actual=[" ++ buff ++ "], Expected=["
                ++ expectedMessage ++ "]").

Definition checkConnection (errChan : chan) (address serverId : string)
  : M St chan :=
  (* time.Sleep(2 * time.Second) *)
  r <- call (net_DialTimeout CONN_TYPE address DEFAULT_CONNECT_TIMEOUT)
            (DialTimeout CONN_TYPE address DEFAULT_CONNECT_TIMEOUT) ;;
  match r with
  | inl err => send errChan (Some err)
  | inr conn =>
    nanoSeconds <- call time_Now_Nanosecond Nanosecond ;;
    let message := "Time is " ++ itoa nanoSeconds in
    err <- call (conn_Write conn message) (Write conn message) ;;
    if negb (is_nil err) then send errChan err
    else
      let expectedMessage := serverId ++ ":" ++ message in
      let buff := zeros (String.length expectedMessage) in
      '(buff, err) <- conn_Read_into conn buff ;;
      if negb (is_nil err) then send errChan err
      else if negb (buff =? expectedMessage)%string
      then send errChan (Some (mismatch buff expectedMessage))
      else
        err <- call (conn_Close conn) (Close conn) ;;
        send errChan err
  end.

(** *** verifyConnection

    The goroutine started by [go checkConnection(...)] is run to its end at
    the [go] statement: the only other code of the spec is then waiting on
    the channel. *)

Fixpoint verifyConnection_loop (fuel : nat) (address serverId : string)
  (i : Z) (errChan : chan) {struct fuel} : M St unit :=
  match fuel with
  | O => abort_with OutOfFuel
  | S fuel' =>
    match errChan with
    | [] => abort_with Blocked             (* nothing will ever be sent *)
    | err :: errChan =>
      if negb (is_nil err) then
        (* logger.Info *)
        if i <? 10 then
          errChan <- checkConnection errChan address serverId ;;
          verifyConnection_loop fuel' address serverId (i + 1) errChan
        else
          Expect_NotTo_HaveOccurred err ;;;
          verifyConnection_loop fuel' address serverId i errChan
      else ret tt                          (* break OUTERLOOP *)
    end
  end.

Definition verifyConnection (fuel : nat) (externalPort : Z) (serverId : string)
  : M St unit :=
  let errChan : chan := [] in
  let address :=
    router_helpers.Address routerApiConfig ++ ":" ++ itoa externalPort in
  errChan <- checkConnection errChan address serverId ;;
  verifyConnection_loop fuel address serverId 0 errChan.

(** *** The load-balancing spec *)

Definition sendAndReceive (address : string) : M St (Conn * string) :=
  r <- call (net_DialTimeout CONN_TYPE address DEFAULT_CONNECT_TIMEOUT)
            (DialTimeout CONN_TYPE address DEFAULT_CONNECT_TIMEOUT) ;;
  conn <- Expect_no_error r ;;
  let message := "Hello" in
  err <- call (conn_Write conn message) (Write conn message) ;;
  Expect_NotTo_HaveOccurred err ;;;
  (* response := make([]byte, 1024); count bytes of it are filled *)
  '(data, err) <- call (conn_Read conn 1024)
                       (fun r => Read conn 1024 (fst r) (snd r)) ;;
  Expect_NotTo_HaveOccurred err ;;;
  ret (conn, take 1024 data).

(** [Eventually(func() error {...}, 20*time.Second, 1*time.Second)
    .ShouldNot(HaveOccurred())]: the function is polled until it gives no
    error; [polls] is how many polls fit before the timeout. *)
Fixpoint Eventually_dials (polls : nat) (address : string) : M St unit :=
  match polls with
  | O => abort_with (Fail "Timed out")
  | S polls' =>
    r <- call (net_Dial CONN_TYPE address) (Dial CONN_TYPE address) ;;
    match r with
    | inr tmpconn =>
      _ <- call (conn_Close tmpconn) (Close tmpconn) ;;
      ret tt
    | inl _ => Eventually_dials polls' address
    end
  end.

Definition It_load_balances_the_connections (polls : nat) : M St unit :=
  let externalPort1 := 61000 + node in
  let sampleReceiverPort1 := 7000 + node in
  let sampleReceiverPort2 := 7500 + node in
  configureMapping externalPort1 [sampleReceiverPort1; sampleReceiverPort2] ;;;
  let address :=
    router_helpers.Address routerApiConfig ++ ":" ++ itoa externalPort1 in
  Eventually_dials polls address ;;;
  '(conn1, response1) <- sendAndReceive address ;;
  '(conn2, response2) <- sendAndReceive address ;;
  Expect_ShouldNot_Equal response1 response2 ;;;
  err <- call (conn_Close conn1) (Close conn1) ;;
  Expect_NotTo_HaveOccurred err ;;;
  err <- call (conn_Close conn2) (Close conn2) ;;
  Expect_NotTo_HaveOccurred err.

(** *** The specs on one sample receiver and on an LRP with two ports *)

(** "routes traffic to sample receiver" *)
Definition It_routes_traffic_to_sample_receiver (fuel : nat) : M St unit :=
  let externalPort1 := 60000 + node in
  let sampleReceiverPort1 := 9000 + node in
  let sampleReceiverPort2 := 9500 + node in
  let serverId1 := "serverId1" in
  let serverId2 := "serverId2" in
  configureMapping externalPort1 [sampleReceiverPort1] ;;;
  verifyConnection fuel externalPort1 serverId1 ;;;
  (* By("altering the mapping it routes to new backend") *)
  configureMapping externalPort1 [sampleReceiverPort2] ;;;
  verifyConnection fuel externalPort1 serverId2.

(** "sends traffic on the different external ports to the same container
    port" *)
Definition It_sends_traffic_on_the_different_external_ports (fuel : nat)
  : M St unit :=
  let externalPort1 := 34500 + node in
  let externalPort2 := 12300 + node in
  let serverId1 := "serverId6" in
  verifyConnection fuel externalPort1 serverId1 ;;;
  verifyConnection fuel externalPort2 serverId1.

End Specs.

(** ** Reading a trace of events *)

(** The values sent on the error channel, oldest first. *)
Definition sent (tr : list Event) : list (option error) :=
  flat_map (fun ev => match ev with Send v => [v] | _ => [] end) tr.

(** The connection attempts: the calls of [net.DialTimeout]. *)
Definition attempts (tr : list Event) : nat :=
  List.length (filter (fun ev => match ev with DialTimeout _ _ _ _ => true | _ => false end) tr).

(** The requests posted, as (url, content type, body). *)
Definition posts (tr : list Event) : list (string * string * string) :=
  flat_map (fun ev => match ev with
                      | Post url ct body _ => [(url, ct, body)]
                      | _ => []
                      end) tr.

(** What the reads gave, as [string(response[0:count])]. *)
Definition responses (tr : list Event) : list string :=
  flat_map (fun ev => match ev with
                      | Read _ len data None => [take len data]
                      | _ => []
                      end) tr.

(** The message checkConnection sends at the nanosecond [n], and the echo
    it expects from the server [serverId]. *)
Definition message_at (n : Z) : string := "Time is " ++ itoa n.
Definition echo_of (serverId : string) (n : Z) : string :=
  serverId ++ ":" ++ message_at n.

(** The contract of checkConnection, read off one run on an empty channel
    and an empty trace. *)
Definition checkConnection_contract {W : Type} (address serverId : string)
  (res : outcome chan * (W * list Event)) : Prop :=
  let out := fst res in
  let tr := snd (snd res) in
  exists v,
    (* one value is reported on the channel, after one attempt *)
    out = Ret [v] /\ sent tr = [v] /\ attempts tr = 1%nat
    (* success: only with the exact echo read back *)
    /\ (v = None <->
        exists conn n data,
          tr = [DialTimeout CONN_TYPE address DEFAULT_CONNECT_TIMEOUT (inr conn);
                Nanosecond n;
                Write conn (message_at n) None;
                Read conn (String.length (echo_of serverId n)) data None;
                Close conn None;
                Send None]
          /\ copy (zeros (String.length (echo_of serverId n))) data
             = echo_of serverId n)
    (* what is written is "Time is <n>" *)
    /\ (forall conn b err, In (Write conn b err) tr ->
        exists n, In (Nanosecond n) tr /\ b = message_at n)
    (* any error is reported instead *)
    /\ (forall network a t e, In (DialTimeout network a t (inl e)) tr -> v = Some e)
    /\ (forall conn b e, In (Write conn b (Some e)) tr -> v = Some e)
    /\ (forall conn len data e, In (Read conn len data (Some e)) tr -> v = Some e)
    /\ (forall conn len data n,
          In (Read conn len data None) tr -> In (Nanosecond n) tr ->
          copy (zeros len) data <> echo_of serverId n ->
          v = Some (mismatch (copy (zeros len) data) (echo_of serverId n)))
    /\ (forall conn e, In (Close conn (Some e)) tr -> v = Some e).

(** What the failed assertion of verifyConnection says. *)
Definition not_to_have_occurred (e : error) : abort :=
  Fail ("Expected success, but got an error: " ++ Error e).

(** The contract of verifyConnection, read off one run from an empty
    trace: [errs] are the errors that were answered by a retry and [final]
    is the report that ended the loop. *)
Definition verifyConnection_contract {W : Type}
  (res : outcome unit * (W * list Event)) : Prop :=
  let out := fst res in
  let tr := snd (snd res) in
  exists errs final,
    sent tr = (errs ++ [final])%list
    (* every attempt reports once *)
    /\ attempts tr = List.length (sent tr)
    (* at most ten retries: eleven attempts in all *)
    /\ (List.length errs <= 10)%nat
    /\ (1 <= attempts tr <= 11)%nat
    (* a retry is made only on an error *)
    /\ Forall (fun v => v <> None) errs
    (* the loop ends on a nil error, and the spec goes on *)
    /\ (final = None -> out = Ret tt)
    (* or on the error of the eleventh attempt, and the assertion fails *)
    /\ (forall e, final = Some e ->
        attempts tr = 11%nat /\ out = Abort (not_to_have_occurred e)).

(** The request configureMapping is to post: one mapping request, with one
    backend host-info per backend port. *)
Definition mapping_requests (externalIP : string) (externalPort : Z)
  (backendPorts : list Z) : list MappingRequest :=
  [ {| ExternalPort := uint16 externalPort;
       Backends :=
         map (fun backendPort =>
                {| BackendHostInfo_Address := externalIP;
                   BackendHostInfo_Port := uint16 backendPort |})
             backendPorts |} ].

(** The contract of configureMapping, read off one run from an empty
    trace. *)
Definition configureMapping_contract {W : Type}
  (externalIP : string) (routerApiConfig : router_helpers.RouterApiConfig)
  (json_Marshal : list MappingRequest -> string * option error)
  (externalPort : Z) (backendPorts : list Z)
  (res : outcome unit * (W * list Event)) : Prop :=
  let out := fst res in
  let tr := snd (snd res) in
  let request := mapping_requests externalIP externalPort backendPorts in
  let url :=
    "http://" ++ router_helpers.Address routerApiConfig ++ ":"
      ++ itoa (router_helpers.Port routerApiConfig) ++ "/v0/external_ports" in
  (* the spec goes on, or an assertion has failed *)
  (out = Ret tt \/ exists msg, out = Abort (Fail msg))
  (* a marshalling error fails the spec before anything is posted *)
  /\ (snd (json_Marshal request) <> None ->
      tr = [] /\ exists msg, out = Abort (Fail msg))
  (* otherwise the request is posted once, as JSON, to the endpoint *)
  /\ (snd (json_Marshal request) = None ->
      exists result,
        tr = [Post url "application/json" (fst (json_Marshal request)) result]
        (* and anything but a 200 OK response fails the spec *)
        /\ (out = Ret tt <->
            exists resp, result = inr resp /\ StatusCode resp = http_StatusOK)).

(** The setting of the load-balancing spec: before anything is read, the
    mapping of the external port to the two backends was posted and
    answered with 200 OK, and the two backends have different ports. *)
Definition two_backends_mapped {W : Type}
  (externalIP : string) (routerApiConfig : router_helpers.RouterApiConfig)
  (json_Marshal : list MappingRequest -> string * option error) (node : Z)
  (res : outcome unit * (W * list Event)) : Prop :=
  let tr := snd (snd res) in
  let request :=
    mapping_requests externalIP (61000 + node) [7000 + node; 7500 + node] in
  let url :=
    "http://" ++ router_helpers.Address routerApiConfig ++ ":"
      ++ itoa (router_helpers.Port routerApiConfig) ++ "/v0/external_ports" in
  uint16 (7000 + node) <> uint16 (7500 + node)
  /\ (responses tr <> [] ->
      exists resp rest,
        tr = Post url "application/json" (fst (json_Marshal request)) (inr resp)
             :: rest
        /\ StatusCode resp = http_StatusOK).

(** The contract of the load-balancing spec, read off one run. *)
Definition load_balancing_contract {W : Type}
  (res : outcome unit * (W * list Event)) : Prop :=
  let out := fst res in
  let tr := snd (snd res) in
  (out = Ret tt \/ exists msg, out = Abort (Fail msg))
  (* the spec passes only on two different responses *)
  /\ (out = Ret tt ->
      exists response1 response2,
        responses tr = [response1; response2] /\ response1 <> response2)
  (* and fails whenever the two responses are equal *)
  /\ (forall response1 response2,
        responses tr = [response1; response2] -> response1 = response2 ->
        exists msg, out = Abort (Fail msg)).

(** The trace ends with an attempt on [address] that read back the echo of
    the server [serverId] and reported a nil error. *)
Definition echoed (address serverId : string) (tr : list Event) : Prop :=
  exists before conn n data,
    tr = (before
            ++ [DialTimeout CONN_TYPE address DEFAULT_CONNECT_TIMEOUT (inr conn);
                Nanosecond n;
                Write conn (message_at n) None;
                Read conn (String.length (echo_of serverId n)) data None;
                Close conn None;
                Send None])%list
    /\ copy (zeros (String.length (echo_of serverId n))) data = echo_of serverId n.

(** The mapping request was posted and answered with 200 OK. *)
Definition mapped (externalIP : string)
  (routerApiConfig : router_helpers.RouterApiConfig)
  (json_Marshal : list MappingRequest -> string * option error)
  (externalPort : Z) (backendPorts : list Z) (ev : Event) : Prop :=
  exists resp,
    ev = Post ("http://" ++ router_helpers.Address routerApiConfig ++ ":"
                 ++ itoa (router_helpers.Port routerApiConfig) ++ "/v0/external_ports")
              "application/json"
              (fst (json_Marshal (mapping_requests externalIP externalPort backendPorts)))
              (inr resp)
    /\ StatusCode resp = http_StatusOK.

End router.

(** * The statsd specs of the routing API (stats_test.go) *)

Module stats.

(** One non-blocking receive on [fakeStatsdChan]: nothing is there yet, a
    line of the statsd listener is taken, or the channel is closed. *)
Inductive received : Type :=
| Nothing
| Line (text : string)
| Closed.

(** The routing API under test, reached through its client, and the
    channel the fake statsd listener feeds. *)
Class RoutingAPI (W : Type) : Type :=
  { client_UpsertRoutes : list db.Route -> W -> option error * W;
    client_DeleteRoutes : list db.Route -> W -> option error * W;
    fakeStatsdChan_receive : W -> received * W }.

Inductive Event : Type :=
| UpsertRoutes (routes : list db.Route) (err : option error)
| DeleteRoutes (routes : list db.Route) (err : option error)
| Receive (r : received).

(** The lines taken from the channel, oldest first. *)
Definition lines (tr : list Event) : list string :=
  flat_map (fun ev => match ev with Receive (Line text) => [text] | _ => [] end) tr.

Definition total_http_routes_plus : string := "routing_api.total_http_routes:+1|g".
Definition total_http_routes_minus : string := "routing_api.total_http_routes:-1|g".

Section Specs.

Context {W : Type} {api : RoutingAPI W}.

Definition St : Type := (W * list Event)%type.

Definition call {A : Type} (f : W -> A * W) (ev : A -> Event) : M St A :=
  fun s =>
    let '(a, w') := f (fst s) in
    (Ret a, (w', (snd s ++ [ev a])%list)).

Local Open Scope go_scope.

(** [Eventually(fakeStatsdChan).Should(Receive(Equal(expected)))]: Gomega
    polls the channel; a line that is not the expected one is taken and
    dropped, a closed channel ends the polling, and [polls] is how many
    polls fit before the timeout. *)
Fixpoint Eventually_Should_Receive_Equal (polls : nat) (expected : string)
  : M St unit :=
  match polls with
  | O => abort_with (Fail ("Timed out waiting to receive " ++ expected))
  | S polls' =>
    r <- call fakeStatsdChan_receive Receive ;;
    match r with
    | Line text =>
      if (text =? expected)%string then ret tt
      else Eventually_Should_Receive_Equal polls' expected
    | Nothing => Eventually_Should_Receive_Equal polls' expected
    | Closed => abort_with (Fail "The channel is closed")
    end
  end.

(** BeforeEach *)
Definition route1 : db.Route := db.NewRoute "a.b.c" 33 "1.1.1.1" "potato" "" 55.

(** "when deleting a route": "gets statsd messages for deleted routes" *)
Definition It_gets_statsd_messages_for_deleted_routes (polls1 polls2 : nat)
  : M St unit :=
  _ <- call (client_UpsertRoutes [route1]) (UpsertRoutes [route1]) ;;
  _ <- call (client_DeleteRoutes [route1]) (DeleteRoutes [route1]) ;;
  Eventually_Should_Receive_Equal polls1 total_http_routes_plus ;;;
  Eventually_Should_Receive_Equal polls2 total_http_routes_minus.

(** "when expiring a route": "gets statsd messages for expired routes" *)
Definition It_gets_statsd_messages_for_expired_routes (polls1 polls2 : nat)
  : M St unit :=
  let routeExpire := db.NewRoute "z.a.k" 63 "42.42.42.42" "Tomato" "" 1 in
  _ <- call (client_UpsertRoutes [routeExpire]) (UpsertRoutes [routeExpire]) ;;
  Eventually_Should_Receive_Equal polls1 total_http_routes_plus ;;;
  Eventually_Should_Receive_Equal polls2 total_http_routes_minus.

(** "Gets statsd messages for existing routes" *)
Definition total_http_routes_one : string := "routing_api.total_http_routes:1|g".

Definition It_gets_statsd_messages_for_existing_routes (polls1 polls2 : nat)
  : M St unit :=
  (* The first time is because we get the event of adding the self route *)
  Eventually_Should_Receive_Equal polls1 total_http_routes_one ;;;
  (* Do it again to make sure it's not because of events *)
  Eventually_Should_Receive_Equal polls2 total_http_routes_one.

(** "Gets statsd messages for new routes" *)
Definition It_gets_statsd_messages_for_new_routes (polls : nat) : M St unit :=
  _ <- call (client_UpsertRoutes [route1]) (UpsertRoutes [route1]) ;;
  Eventually_Should_Receive_Equal polls total_http_routes_plus.

End Specs.

(** What a passed spec has seen: the line "+1" was taken from the channel,
    and the line "-1" was taken after it. *)
Definition plus_before_minus (tr : list Event) : Prop :=
  exists before between,
    lines tr = (before ++ [total_http_routes_plus] ++ between
                ++ [total_http_routes_minus])%list
    /\ ~ In total_http_routes_plus before
    /\ ~ In total_http_routes_minus between.

(** How many times the line is among those received. *)
Definition times (expected : string) (l : list string) : nat :=
  List.length (filter (String.eqb expected) l).

(** ** "should increase subscriptions by 4" *)

(** The event streams of the routing API client. *)
Class EventSource (W Stream : Type) : Type :=
  { client_SubscribeToEvents : W -> (error + Stream) * W;
    eventStream_Close : Stream -> W -> option error * W }.

Inductive StreamCall (Stream : Type) : Type :=
| SubscribeToEvents (r : error + Stream)
| StreamClose (eventStream : Stream) (err : option error).
Arguments SubscribeToEvents {Stream} r.
Arguments StreamClose {Stream} eventStream err.

Definition total_http_subscriptions_plus : string :=
  "routing_api.total_http_subscriptions:+1|g".

Section Subscriptions.

Context {W Stream : Type} {api : RoutingAPI W} {source : EventSource W Stream}.

(** The state of the spec: the world and the receives, as before, and the
    calls on the event streams. *)
Definition SubSt : Type := ((W * list Event) * list (StreamCall Stream))%type.

(** A step of the statsd specs, in the state of this one. *)
Definition lift {A : Type} (m : M St A) : M SubSt A :=
  fun s => let '(out, s') := m (fst s) in (out, (s', snd s)).

Definition SubscribeToEvents_ : M SubSt (error + Stream) :=
  fun s =>
    let '(r, w') := client_SubscribeToEvents (fst (fst s)) in
    (Ret r, ((w', snd (fst s)), (snd s ++ [SubscribeToEvents r])%list)).

(** [eventStream.Close()], its error dropped. *)
Definition Close_ (eventStream : Stream) : M SubSt unit :=
  fun s =>
    let '(err, w') := eventStream_Close eventStream (fst (fst s)) in
    (Ret tt, ((w', snd (fst s)), (snd s ++ [StreamClose eventStream err])%list)).

Definition Expect_stream (r : error + Stream) : M SubSt Stream :=
  match r with
  | inl e => abort_with (Fail ("Expected success, but got an error: " ++ Error e))
  | inr eventStream => ret eventStream
  end.

Local Open Scope go_scope.

Definition It_should_increase_subscriptions_by_4 (polls1 polls2 polls3 polls4 : nat)
  : M SubSt unit :=
  r <- SubscribeToEvents_ ;;
  eventStream1 <- Expect_stream r ;;
  defer_ (Close_ eventStream1)
    (r <- SubscribeToEvents_ ;;
     eventStream2 <- Expect_stream r ;;
     defer_ (Close_ eventStream2)
       (r <- SubscribeToEvents_ ;;
        eventStream3 <- Expect_stream r ;;
        defer_ (Close_ eventStream3)
          (r <- SubscribeToEvents_ ;;
           eventStream4 <- Expect_stream r ;;
           defer_ (Close_ eventStream4)
             (lift (Eventually_Should_Receive_Equal polls1 total_http_subscriptions_plus) ;;;
              lift (Eventually_Should_Receive_Equal polls2 total_http_subscriptions_plus) ;;;
              lift (Eventually_Should_Receive_Equal polls3 total_http_subscriptions_plus) ;;;
              lift (Eventually_Should_Receive_Equal polls4 total_http_subscriptions_plus))))).

(** What a part of the spec that may open [n] more streams does, from any
    world: the streams it opens are closed, last opened first, when it
    ends; it passes exactly when it opened all [n] and took the line four
    times; and it takes nothing from the channel before it opened all. *)
Definition opens_and_closes (n : nat) (m : M SubSt unit) : Prop :=
  forall (w : W) (calls : list (StreamCall Stream)),
  exists out w' tr streams failure errs,
    m ((w, []), calls)
    = (out, ((w', tr),
             (calls ++ map (fun s => SubscribeToEvents (inr s)) streams
                    ++ failure
                    ++ map (fun c => StreamClose (fst c) (snd c))
                           (combine (rev streams) errs))%list))
    /\ List.length errs = List.length streams
    /\ (failure = [] \/ exists e, failure = [SubscribeToEvents (inl e)])
    /\ (List.length streams <= n)%nat
    /\ (failure <> [] -> (List.length streams < n)%nat)
    /\ (out = Ret tt \/ exists msg, out = Abort (Fail msg))
    /\ (out = Ret tt
        <-> List.length streams = n
            /\ times total_http_subscriptions_plus (lines tr) = 4%nat)
    /\ (lines tr <> [] -> List.length streams = n).

End Subscriptions.

(** ** The fake statsd server

    The goroutine of BeforeEach reads the datagrams of the routing API
    into a buffer of 1000 bytes and sends the lines of the buffer on
    [fakeStatsdChan], which holds one line: a send goes through when there
    is room or the spec takes a line, and blocks for ever when the spec has
    gone; the world says which. *)

Definition is_CR (c : ascii) : bool := Ascii.eqb c "013"%char.

(** [dropCR] of bufio: a line without its terminal carriage return. *)
Fixpoint dropCR (line : string) : string :=
  match line with
  | EmptyString => EmptyString
  | String c rest =>
    match rest with
    | EmptyString => if is_CR c then EmptyString else line
    | String _ _ => String c (dropCR rest)
    end
  end.

(** The tokens of a [bufio.Scanner] (which splits by [bufio.ScanLines]) on
    [data], [line] being the bytes of the current line read so far: every
    line that ends in a newline, and the rest of the data when it is not
    empty. *)
Fixpoint ScanLines (data line : string) : list string :=
  match data with
  | EmptyString => if (line =? "")%string then [] else [dropCR line]
  | String c data' =>
    if is_LF c then dropCR line :: ScanLines data' ""
    else ScanLines data' (line ++ String c "")
  end.

Class StatsdServer (W : Type) : Type :=
  { fakeStatsdServer_Read : nat -> W -> (string * option error) * W;
    statsChan_taken : W -> bool * W }.

Inductive Fed : Type :=
| UDPRead (data : string) (err : option error)
| SendLine (text : string)
| CloseChan.

Section Listener.

Context {W : Type} {server : StatsdServer W}.

Definition FedSt : Type := (W * list Fed)%type.

(** [statsChan <- scanner.Text()] *)
Definition send_line (text : string) : M FedSt unit :=
  fun s =>
    let '(taken, w') := statsChan_taken (fst s) in
    if taken : bool then (Ret tt, (w', (snd s ++ [SendLine text])%list))
    else (Abort Blocked, (w', snd s)).

(** [fakeStatsdServer.Read(buffer)]: the bytes of the datagram that fit
    the buffer, and the error. *)
Definition Read_ (buffer : string) : M FedSt (string * option error) :=
  fun s =>
    let '(r, w') := fakeStatsdServer_Read (String.length buffer) (fst s) in
    (Ret r, (w', (snd s ++ [UDPRead (fst r) (snd r)])%list)).

(** [close(statsChan)] *)
Definition close_statsChan : M FedSt unit :=
  fun s => (Ret tt, (fst s, (snd s ++ [CloseChan])%list)).

Local Open Scope go_scope.

(** [for scanner.Scan() { ... }] *)
Fixpoint send_lines (tokens : list string) : M FedSt unit :=
  match tokens with
  | [] => ret tt
  | text :: tokens' => send_line text ;;; send_lines tokens'
  end.

Fixpoint listener (fuel : nat) : M FedSt unit :=
  match fuel with
  | O => abort_with OutOfFuel
  | S fuel' =>
    let buffer := zeros 1000 in
    '(data, err) <- Read_ buffer ;;
    if negb (is_nil err) then close_statsChan
    else
      let buffer := copy buffer data in
      send_lines (ScanLines buffer "") ;;;
      listener fuel'
  end.

End Listener.

(** What the listener may leave in the trace: after every datagram, the
    lines of the buffer in order, all of them unless a send blocked; after
    a failed read the channel is closed, and that is the end. *)
Inductive feeds : list Fed -> Prop :=
| feeds_going : feeds []
| feeds_closed (data : string) (e : error) :
    feeds [UDPRead data (Some e); CloseChan]
| feeds_blocked (data : string) (sent rest : list string) :
    ScanLines (copy (zeros 1000) data) "" = (sent ++ rest)%list -> rest <> [] ->
    feeds (UDPRead data None :: map SendLine sent)
| feeds_round (data : string) (tr : list Fed) :
    feeds tr ->
    feeds (UDPRead data None
             :: map SendLine (ScanLines (copy (zeros 1000) data) "") ++ tr).

End stats.

(** * The TLS demo asset (assets/golangtls/site.go) *)

Module golangtls.

(** A [time.Time], in nanoseconds since the epoch, and a
    [time.Duration], in nanoseconds. *)
Definition time_Hour : Z := 3600 * 1000000000.

(** [x509.Certificate], as far as the template sets it. *)
Record Certificate : Type :=
  { SerialNumber : Z;
    Subject_Organization : list string;
    SignatureAlgorithm : Z;
    NotBefore : Z;
    NotAfter : Z;
    BasicConstraintsValid : bool }.

Definition x509_SHA256WithRSA : Z := 4.

(** The random source and the clock.  [rand_Int max] is
    [crypto/rand.Int(rand.Reader, max)]. *)
Class Sys (W : Type) : Type :=
  { rand_Int : Z -> W -> (error + Z) * W;
    time_Now : W -> Z * W }.

(** What [crypto/rand.Int] promises: "a uniform random value in
    [0, max)". *)
Definition rand_Int_in_range {W : Type} {sys : Sys W} : Prop :=
  forall (max : Z) (w w' : W) (n : Z),
    rand_Int max w = (inr n, w') -> 0 <= n < max.

Inductive Event : Type :=
| RandInt (max : Z) (result : error + Z)
| Now (t : Z).

Section Template.

Context {W : Type} {sys : Sys W}.

Definition St : Type := (W * list Event)%type.

Definition call {A : Type} (f : W -> A * W) (ev : A -> Event) : M St A :=
  fun s =>
    let '(a, w') := f (fst s) in
    (Ret a, (w', (snd s ++ [ev a])%list)).

Local Open Scope go_scope.

(** helper func to crate cert template with a serial number and other
    fields *)
Definition CertTemplate : M St (option Certificate * option error) :=
  (* generate a random serial number *)
  let serialNumberLimit := Z.shiftl 1 128 in
  r <- call (rand_Int serialNumberLimit) (RandInt serialNumberLimit) ;;
  match r with
  | inl err => ret (None, Some err)
  | inr serialNumber =>
    notBefore <- call time_Now Now ;;
    now <- call time_Now Now ;;
    let tmpl :=
      {| SerialNumber := serialNumber;
         Subject_Organization := ["Ninoski, Inc."];
         SignatureAlgorithm := x509_SHA256WithRSA;
         NotBefore := notBefore;
         NotAfter := now + time_Hour;    (* valid for an hour *)
         BasicConstraintsValid := true |} in
    ret (Some tmpl, None)
  end.

(** The claim as the specification words it: NotAfter is exactly one hour
    after NotBefore. *)
Definition valid_for_exactly_one_hour : Prop :=
  forall (w : W) (tmpl : Certificate),
    fst (CertTemplate (w, [])) = Ret (Some tmpl, None) ->
    NotAfter tmpl = NotBefore tmpl + time_Hour.

End Template.

(** ** The program: two keys, two certificates, four files, one server *)

(** [x509.Certificate], as far as the program sets or reads it: the fields
    of the template, the fields main adds, and [Raw], the DER bytes of a
    certificate that was parsed. *)
Record x509_Certificate : Type :=
  { Raw : string;
    template : Certificate;
    IsCA : bool;
    KeyUsage : Z;
    ExtKeyUsage : list Z;
    IPAddresses : list string }.

Definition x509_KeyUsageDigitalSignature : Z := Z.shiftl 1 0.
Definition x509_KeyUsageCertSign : Z := Z.shiftl 1 5.
Definition x509_ExtKeyUsageServerAuth : Z := 1.
Definition x509_ExtKeyUsageClientAuth : Z := 2.

(** The certificate that [&tmpl] of CertTemplate points to: the fields it
    does not set are zero. *)
Definition certificate_of (tmpl : Certificate) : x509_Certificate :=
  {| Raw := "";
     template := tmpl;
     IsCA := false;
     KeyUsage := 0;
     ExtKeyUsage := [];
     IPAddresses := [] |}.

Definition set_IsCA (c : x509_Certificate) (v : bool) : x509_Certificate :=
  {| Raw := Raw c; template := template c; IsCA := v; KeyUsage := KeyUsage c;
     ExtKeyUsage := ExtKeyUsage c; IPAddresses := IPAddresses c |}.

Definition set_KeyUsage (c : x509_Certificate) (v : Z) : x509_Certificate :=
  {| Raw := Raw c; template := template c; IsCA := IsCA c; KeyUsage := v;
     ExtKeyUsage := ExtKeyUsage c; IPAddresses := IPAddresses c |}.

Definition set_ExtKeyUsage (c : x509_Certificate) (v : list Z) : x509_Certificate :=
  {| Raw := Raw c; template := template c; IsCA := IsCA c; KeyUsage := KeyUsage c;
     ExtKeyUsage := v; IPAddresses := IPAddresses c |}.

Definition set_IPAddresses (c : x509_Certificate) (v : list string)
  : x509_Certificate :=
  {| Raw := Raw c; template := template c; IsCA := IsCA c; KeyUsage := KeyUsage c;
     ExtKeyUsage := ExtKeyUsage c; IPAddresses := v |}.

(** What [server.ListenAndServeTLS] does: it serves and does not return,
    or it returns. *)
Inductive served : Type :=
| Serving
| Stopped (err : option error).

(** The machine of the program: the key generator, the certificate
    library, the file system, the environment and the HTTP server.
    Encoding is a function of its input; the rest depends on the world. *)
Class Host (W Key Pub File : Type) : Type :=
  { rsa_GenerateKey : Z -> W -> (error + Key) * W;
    PublicKey : Key -> Pub;
    x509_CreateCertificate :
      x509_Certificate -> x509_Certificate -> Pub -> Key -> W -> (error + string) * W;
    x509_ParseCertificate : string -> error + x509_Certificate;
    x509_MarshalPKCS1PrivateKey : Key -> string;
    pem_EncodeToMemory : string -> string -> string;     (* Type, Bytes *)
    os_Create : string -> W -> (error + File) * W;
    f_Write : File -> string -> W -> option error * W;
    f_Close : File -> W -> option error * W;
    getenv : string -> W -> string * W;
    server_ListenAndServeTLS :
      string -> list string -> string -> string -> W -> served * W }.

Inductive Call (Key Pub File : Type) : Type :=
| Template (e : Event)
| GenerateKey (bits : Z) (r : error + Key)
| CreateCertificate (tmpl parent : x509_Certificate) (pub : Pub) (priv : Key)
                    (r : error + string)
| Created (name : string) (r : error + File)
| Written (f : File) (b : string) (err : option error)
| Closed (f : File) (err : option error)
| Println (text : string)
| Printf (text : string)
| HandleFunc (pattern : string)
| Getenv (key value : string)
| ListenAndServeTLS (Addr : string) (RootCAs : list string)
                    (certFile keyFile : string) (r : served).
Arguments Template {Key Pub File} e.
Arguments GenerateKey {Key Pub File} bits r.
Arguments CreateCertificate {Key Pub File} tmpl parent pub priv r.
Arguments Created {Key Pub File} name r.
Arguments Written {Key Pub File} f b err.
Arguments Closed {Key Pub File} f err.
Arguments Println {Key Pub File} text.
Arguments Printf {Key Pub File} text.
Arguments HandleFunc {Key Pub File} pattern.
Arguments Getenv {Key Pub File} key value.
Arguments ListenAndServeTLS {Key Pub File} Addr RootCAs certFile keyFile r.

(** How the program ends when it neither panics nor serves for ever:
    [log.Fatalf] prints its message and exits with status 1; main may
    return. *)
Inductive exit : Type :=
| Exit_1 (logged : string)
| Exit_0.

Section Program.

Context {W Key Pub File : Type} {sys : Sys W} {host : Host W Key Pub File}.

Definition ProgSt : Type := (W * list (Call Key Pub File))%type.

Definition host_call {A : Type} (f : W -> A * W) (ev : A -> Call Key Pub File)
  : M ProgSt A :=
  fun s =>
    let '(a, w') := f (fst s) in
    (Ret a, (w', (snd s ++ [ev a])%list)).

Definition say (ev : Call Key Pub File) : M ProgSt unit :=
  fun s => (Ret tt, (fst s, (snd s ++ [ev])%list)).

(** A call of CertTemplate, its readings of the random source and of the
    clock in the trace of the program. *)
Definition lift {A : Type} (m : M St A) : M ProgSt A :=
  fun s =>
    let '(out, s') := m (fst s, []) in
    (out, (fst s', (snd s ++ map Template (snd s'))%list)).

Definition log_Fatalf (msg : string) : M ProgSt exit := ret (Exit_1 msg).

Local Open Scope go_scope.

Definition certWriter (encodedPEM name : string) : M ProgSt (option error) :=
  r <- host_call (os_Create name) (Created name) ;;
  match r with
  | inl err =>
    say (Println (Error err)) ;;;
    ret (Some (errors_New ("certWriter creating file " ++ name ++ ": " ++ Error err)))
  | inr f =>
    defer_ (_ <- host_call (f_Close f) (Closed f) ;; ret tt)
      (err <- host_call (f_Write f encodedPEM) (Written f encodedPEM) ;;
       match err with
       | Some err => ret (Some err)
       | None => ret None
       end)
  end.

(** The results are named: [cert] and [certPEM] are nil where the code
    returns before it sets them. *)
Definition CreateCert (tmpl parent : x509_Certificate) (pub : Pub) (parentPriv : Key)
  : M ProgSt (option x509_Certificate * string * option error) :=
  r <- host_call (x509_CreateCertificate tmpl parent pub parentPriv)
                 (CreateCertificate tmpl parent pub parentPriv) ;;
  match r with
  | inl err => ret (None, "", Some err)
  | inr certDER =>
    match x509_ParseCertificate certDER with
    | inl err => ret (None, "", Some err)
    | inr cert =>
      (* PEM encoded cert (standard TLS encoding) *)
      let certPEM := pem_EncodeToMemory "CERTIFICATE" certDER in
      ret (Some cert, certPEM, None)
    end
  end.

Definition main : M ProgSt exit :=
  (* generate the CA cert *)
  (* generate a new key-pair *)
  r <- host_call (rsa_GenerateKey 2048) (GenerateKey 2048) ;;
  match r with
  | inl err => log_Fatalf ("generating random key: " ++ Error err)
  | inr rootKey =>
  '(rootCertTmpl, err) <- lift CertTemplate ;;
  match err with
  | Some err => log_Fatalf ("creating cert template: " ++ Error err)
  | None =>
  (* describe what the certificate will be used for *)
  rootCertTmpl <- deref (option_map certificate_of rootCertTmpl) ;;
  let rootCertTmpl := set_IsCA rootCertTmpl true in
  let rootCertTmpl :=
    set_KeyUsage rootCertTmpl
      (Z.lor x509_KeyUsageCertSign x509_KeyUsageDigitalSignature) in
  let rootCertTmpl :=
    set_ExtKeyUsage rootCertTmpl
      [x509_ExtKeyUsageServerAuth; x509_ExtKeyUsageClientAuth] in
  let rootCertTmpl := set_IPAddresses rootCertTmpl ["127.0.0.1"] in
  '(rootCert, rootCertPEM, err) <-
    CreateCert rootCertTmpl rootCertTmpl (PublicKey rootKey) rootKey ;;
  match err with
  | Some err => log_Fatalf ("error creating cert: " ++ Error err)
  | None =>
  (* provide the private key and the cert *)
  let rootKeyPEM :=
    pem_EncodeToMemory "RSA PRIVATE KEY" (x509_MarshalPKCS1PrivateKey rootKey) in
  (* write rootCA to file *)
  err <- certWriter rootCertPEM "rootCa.crt" ;;
  match err with
  | Some err => log_Fatalf ("error rootCa cert: " ++ Error err)
  | None =>
  err <- certWriter rootKeyPEM "rootCa.key" ;;
  match err with
  | Some err => log_Fatalf ("error rootCa key: " ++ Error err)
  | None =>
  (* generate certs *)
  r <- host_call (rsa_GenerateKey 2048) (GenerateKey 2048) ;;
  match r with
  | inl err => log_Fatalf ("generating random key: " ++ Error err)
  | inr servKey =>
  (* create a template for the server *)
  '(servCertTmpl, err) <- lift CertTemplate ;;
  match err with
  | Some err => log_Fatalf ("creating cert template: " ++ Error err)
  | None =>
  servCertTmpl <- deref (option_map certificate_of servCertTmpl) ;;
  let servCertTmpl := set_KeyUsage servCertTmpl x509_KeyUsageDigitalSignature in
  let servCertTmpl := set_ExtKeyUsage servCertTmpl [x509_ExtKeyUsageServerAuth] in
  let servCertTmpl := set_IPAddresses servCertTmpl ["127.0.0.1"] in
  (* create a certificate which wraps the server's public key, sign it
     with the root private key *)
  rootCert <- deref rootCert ;;
  '(_, servCertPEM, err) <-
    CreateCert servCertTmpl rootCert (PublicKey servKey) rootKey ;;
  match err with
  | Some err => log_Fatalf ("error creating cert: " ++ Error err)
  | None =>
  (* provide the private key and the cert *)
  let servKeyPEM :=
    pem_EncodeToMemory "RSA PRIVATE KEY" (x509_MarshalPKCS1PrivateKey servKey) in
  (* store our cert, key *)
  err <- certWriter servCertPEM "server.crt" ;;
  match err with
  | Some err => log_Fatalf ("error writing cert: " ++ Error err)
  | None =>
  err <- certWriter servKeyPEM "server.key" ;;
  match err with
  | Some err => log_Fatalf ("error writing key: " ++ Error err)
  | None =>
  say (HandleFunc "/") ;;;
  port <- host_call (getenv "PORT") (Getenv "PORT") ;;
  let certPool := [rootCertPEM] in
  let Addr := ":" ++ port in
  say (Printf ("Listening on " ++ port ++ "...")) ;;;
  r <- host_call (server_ListenAndServeTLS Addr certPool "server.crt" "server.key")
                 (ListenAndServeTLS Addr certPool "server.crt" "server.key") ;;
  match r with
  | Serving => abort_with Blocked
  | Stopped (Some err) => abort_with (Panic (Error err))
  | Stopped None => ret Exit_0
  end
  end end end end end end end end end end.

End Program.

(** The files of the program, in the order in which main writes them. *)
Definition the_files : list string :=
  ["rootCa.crt"; "rootCa.key"; "server.crt"; "server.key"].

Section Traces.

Context {Key Pub File : Type}.

(** The names the file system was asked to create. *)
Definition created (tr : list (Call Key Pub File)) : list string :=
  flat_map (fun c => match c with Created name _ => [name] | _ => [] end) tr.

(** The files that were created and written without an error, with what
    was written. *)
Fixpoint stored (tr : list (Call Key Pub File)) : list (string * string) :=
  match tr with
  | [] => []
  | Created name (inr _) :: Written _ b None :: tr' => (name, b) :: stored tr'
  | _ :: tr' => stored tr'
  end.

(** A file is written once, right after it was created, and closed right
    after that; nothing else is written or closed. *)
Fixpoint files_closed (tr : list (Call Key Pub File)) : Prop :=
  match tr with
  | [] => True
  | Created _ (inr f) :: Written f' _ _ :: Closed f'' _ :: tr' =>
    f' = f /\ f'' = f /\ files_closed tr'
  | Created _ (inr _) :: _ => False
  | Written _ _ _ :: _ => False
  | Closed _ _ :: _ => False
  | _ :: tr' => files_closed tr'
  end.

(** The calls of ListenAndServeTLS. *)
Definition serves (tr : list (Call Key Pub File)) : list (Call Key Pub File) :=
  filter (fun c => match c with ListenAndServeTLS _ _ _ _ _ => true | _ => false end) tr.

(** The certificates that were asked for: template, parent, public key,
    signing key, and the DER bytes or the error. *)
Definition signed (tr : list (Call Key Pub File))
  : list (x509_Certificate * x509_Certificate * Pub * Key * (error + string)) :=
  flat_map (fun c => match c with
                     | CreateCertificate tmpl parent pub priv r =>
                       [(tmpl, parent, pub, priv, r)]
                     | _ => []
                     end) tr.

(** The keys that were generated. *)
Definition keys (tr : list (Call Key Pub File)) : list Key :=
  flat_map (fun c => match c with GenerateKey _ (inr k) => [k] | _ => [] end) tr.

(** What a call of certWriter leaves in the trace, with its result [out]:
    the file could not be created, or it was created, written and
    closed. *)
Definition writes (encodedPEM name : string) (out : option error)
  (ext : list (Call Key Pub File)) : Prop :=
  (exists e,
     ext = [Created name (inl e); Println (Error e)]
     /\ out = Some (errors_New ("certWriter creating file " ++ name ++ ": " ++ Error e)))
  \/ (exists f cerr,
        ext = [Created name (inr f); Written f encodedPEM out; Closed f cerr]).

End Traces.

End golangtls.

(** Stand-ins for the examples: an environment with no variable set, a
    decoder for which every file is malformed, and a cf-test-helpers loader
    that panics as the checked one does. *)
Module fakes.

Definition no_environment : Env :=
  {| os_Getenv := fun _ => "";
     os_Open := fun _ => inl (foreign_error "open : no such file or directory") |}.

Definition reject_all {A : Type} (content : string) : error + A :=
  inl (foreign_error "unexpected end of JSON input").

Definition cf_LoadConfig_unset : M Env (option helpers.Config) :=
  panic "Must set $CONFIG to point to an integration config .json file.".

(** An environment with both variables set and both files present, and
    decoders that give one fixed configuration each. *)
Definition configured : Env :=
  {| os_Getenv := fun name =>
       if (name =? "CONFIG")%string then "/var/vcap/integration_config.json"
       else if (name =? "ROUTER_API_CONFIG")%string then "/var/vcap/router_config.json"
       else "";
     os_Open := fun path => inr ("{}") |}.

Definition sample_cf_Config : helpers.Config :=
  {| helpers.ApiEndpoint := "api.bosh-lite.com";
     helpers.AppsDomain := "bosh-lite.com";
     helpers.SkipSSLValidation := true |}.

Definition sample_RoutingConfig : helpers.RoutingConfig :=
  {| helpers.Config_ := None;
     helpers.RoutingApiUrl := "";
     helpers.Addresses := ["10.244.14.2"];
     helpers.OAuth :=
       Some {| helpers.TokenEndpoint := "https://uaa.bosh-lite.com";
               helpers.ClientName := "tcp_emitter";
               helpers.ClientSecret := "tcp-emitter-secret";
               helpers.Port := 443 |};
     helpers.IncludeHttpRoutes := false;
     helpers.TcpAppDomain := "tcp.bosh-lite.com";
     helpers.LBConfigured := false |}.

Definition sample_RouterApiConfig : router_helpers.RouterApiConfig :=
  {| router_helpers.Address := "10.244.8.2";
     router_helpers.Port := 9999;
     router_helpers.BBSAddress := "" |}.

Definition cf_LoadConfig_sample : M Env (option helpers.Config) :=
  ret (Some sample_cf_Config).

(** A scripted KeysAPI, in the manner of the counterfeiter fake that db's
    own tests use: every kind of call answers with the next result of its
    script. *)
Record FakeKeysAPI : Type :=
  { GetReturns : list (option db.Response * option error);
    SetReturns : list (option db.Response * option error);
    DeleteReturns : list (option db.Response * option error);
    NewModificationTagReturns : list (db.ModificationTag * option error) }.

Definition next {A : Type} (default : A) (script : list A) : A * list A :=
  match script with
  | [] => (default, [])
  | r :: script' => (r, script')
  end.

Definition unscripted : option db.Response * option error :=
  (None, Some (foreign_error "fake: no result scripted")).

#[export] Instance FakeKeysAPI_KeysAPI : db.KeysAPI FakeKeysAPI :=
  {| db.keysAPI_Get := fun _ _ f =>
       let '(r, rest) := next unscripted (GetReturns f) in
       (r, {| GetReturns := rest; SetReturns := SetReturns f;
              DeleteReturns := DeleteReturns f;
              NewModificationTagReturns := NewModificationTagReturns f |});
     db.keysAPI_Set := fun _ _ _ f =>
       let '(r, rest) := next unscripted (SetReturns f) in
       (r, {| GetReturns := GetReturns f; SetReturns := rest;
              DeleteReturns := DeleteReturns f;
              NewModificationTagReturns := NewModificationTagReturns f |});
     db.keysAPI_Delete := fun _ f =>
       let '(r, rest) := next unscripted (DeleteReturns f) in
       (r, {| GetReturns := GetReturns f; SetReturns := SetReturns f;
              DeleteReturns := rest;
              NewModificationTagReturns := NewModificationTagReturns f |});
     db.models_NewModificationTag := fun f =>
       let '(r, rest) :=
         next ({| db.Guid := "guid"; db.Index := 0 |}, None)
              (NewModificationTagReturns f) in
       (r, {| GetReturns := GetReturns f; SetReturns := SetReturns f;
              DeleteReturns := DeleteReturns f;
              NewModificationTagReturns := rest |}) |}.

(** Stand-in codecs: a value is written as its key field alone, and an
    empty text does not decode. *)
Definition empty_json {A : Type} (s : string) (a : A) : error + A :=
  if (s =? "")%string then inl (foreign_error "unexpected end of JSON input")
  else inr a.

#[export] Instance JSON_Route : db.JSON db.Route :=
  {| db.json_Marshal := db.Route_Route;
     db.json_Unmarshal := fun s =>
       empty_json s
         {| db.Route_Route := s; db.Route_Port := 0; db.Route_IP := "";
            db.Route_TTL := None; db.Route_LogGuid := "";
            db.Route_RouteServiceUrl := "";
            db.Route_ModificationTag := {| db.Guid := ""; db.Index := 0 |} |} |}.

#[export] Instance JSON_TcpRouteMapping : db.JSON db.TcpRouteMapping :=
  {| db.json_Marshal := db.HostIP;
     db.json_Unmarshal := fun s =>
       empty_json s
         {| db.TcpMapping_TcpRoute :=
              {| db.RouterGroupGuid := ""; db.ExternalPort := 0 |};
            db.HostPort := 0; db.HostIP := s;
            db.TcpMapping_ModificationTag := {| db.Guid := ""; db.Index := 0 |};
            db.TcpMapping_TTL := None |} |}.

(** A router group is written as its guid, an equals sign and its name. *)
#[export] Instance JSON_RouterGroup : db.JSON db.RouterGroup :=
  {| db.json_Marshal := fun g => db.RouterGroup_Guid g ++ "=" ++ db.RouterGroup_Name g;
     db.json_Unmarshal := fun s =>
       match index 0 "=" s with
       | None => inl (foreign_error "invalid character looking for beginning of value")
       | Some i =>
         inr {| db.RouterGroup_Guid := substring 0 i s;
                db.RouterGroup_Name := substring (S i) (String.length s - S i) s;
                db.RouterGroup_Type := "tcp";
                db.RouterGroup_ReservablePorts := "" |}
       end |}.

Definition route1 : db.Route := db.NewRoute "a.b.c" 33 "1.1.1.1" "potato" "" 55.

Definition tcpMapping1 : db.TcpRouteMapping :=
  {| db.TcpMapping_TcpRoute :=
       {| db.RouterGroupGuid := "router-group-guid-001"; db.ExternalPort := 52000 |};
     db.HostPort := 60000; db.HostIP := "1.2.3.4";
     db.TcpMapping_ModificationTag := {| db.Guid := ""; db.Index := 0 |};
     db.TcpMapping_TTL := Some 55 |}.

Definition stored (value : string) (modifiedIndex : Z) : option db.Response :=
  Some {| db.Response_Action := "get";
          db.Response_Node := db.mkNode "" value [] modifiedIndex |}.

Definition compare_failed : option error :=
  Some (client_Error db.ErrorCodeTestFailed "Compare failed").

Definition key_not_found : option error :=
  Some (client_Error db.ErrorCodeKeyNotFound "Key not found").

(** etcd answers every read, and fails every compare-and-swap. *)
Definition contended : FakeKeysAPI :=
  {| GetReturns := [(stored "a.b.c" 1, None); (stored "a.b.c" 2, None);
                    (stored "a.b.c" 3, None); (stored "a.b.c" 4, None);
                    (stored "a.b.c" 5, None)];
     SetReturns := [(None, compare_failed); (None, compare_failed);
                    (None, compare_failed); (None, compare_failed);
                    (None, compare_failed)];
     DeleteReturns := [];
     NewModificationTagReturns := [] |}.

(** The key is there at the first read, the update loses the race, and the
    key is gone at the second read. *)
Definition deleted_in_between : FakeKeysAPI :=
  {| GetReturns := [(stored "a.b.c" 1, None); (None, key_not_found)];
     SetReturns := [(None, compare_failed)];
     DeleteReturns := [];
     NewModificationTagReturns := [] |}.

(** A router group, and the same guid under another name. *)
Definition default_tcp : db.RouterGroup :=
  {| db.RouterGroup_Guid := "guid-1"; db.RouterGroup_Name := "default-tcp";
     db.RouterGroup_Type := "tcp"; db.RouterGroup_ReservablePorts := "" |}.

Definition renamed_tcp : db.RouterGroup :=
  {| db.RouterGroup_Guid := "guid-1"; db.RouterGroup_Name := "other-tcp";
     db.RouterGroup_Type := "tcp"; db.RouterGroup_ReservablePorts := "" |}.

Definition directory (values : list string) : option db.Response :=
  Some {| db.Response_Action := "get";
          db.Response_Node :=
            db.mkNode "/v1/router_groups" ""
              (map (fun v => db.mkNode "" v [] 1) values) 1 |}.

(** etcd holds the group "guid-1=default-tcp"; the read of the directory
    gives it, the read of its key then fails because the cluster cannot be
    reached, and the write after that goes through. *)
Definition read_of_key_fails : FakeKeysAPI :=
  {| GetReturns :=
       [(directory ["guid-1=default-tcp"], None);
        (None, Some (foreign_error "client: etcd cluster is unavailable"))];
     SetReturns := [(stored "guid-1=other-tcp" 2, None)];
     DeleteReturns := [];
     NewModificationTagReturns := [] |}.

(** etcd holds the group "guid-1=default-tcp", and every read gives it. *)
Definition holds_default_tcp : FakeKeysAPI :=
  {| GetReturns :=
       [(directory ["guid-1=default-tcp"], None);
        (stored "guid-1=default-tcp" 1, None)];
     SetReturns := [(stored "guid-1=other-tcp" 2, None)];
     DeleteReturns := [];
     NewModificationTagReturns := [] |}.

(** etcd holds the group "guid-2=other-tcp". *)
Definition holds_another_group : FakeKeysAPI :=
  {| GetReturns :=
       [(directory ["guid-2=other-tcp"], None); (None, key_not_found)];
     SetReturns := [(stored "guid-1=other-tcp" 2, None)];
     DeleteReturns := [];
     NewModificationTagReturns := [] |}.

(** etcd holds no router group. *)
Definition holds_no_group : FakeKeysAPI :=
  {| GetReturns := [(None, key_not_found); (None, key_not_found)];
     SetReturns := [(stored "guid-1=default-tcp" 1, None)];
     DeleteReturns := [];
     NewModificationTagReturns := [] |}.

(** The key is not there, and the create fails because the cluster is
    unavailable. *)
Definition unavailable : FakeKeysAPI :=
  {| GetReturns := [(None, key_not_found)];
     SetReturns := [(None, Some (foreign_error "client: etcd cluster is unavailable"))];
     DeleteReturns := [];
     NewModificationTagReturns := [] |}.

(** A network with echo servers behind one external port: a dial is
    refused while [refusals] lasts, and is then served by the next server
    of [backends], in turn; a server answers what it is sent with its own
    id, a colon and the message. *)
Record FakeNet : Type :=
  { backends : list string;
    refusals : nat;
    nanoseconds : Z;
    unread : string;
    status : Z }.

Definition dial (f : FakeNet) : (error + router.Conn) * FakeNet :=
  match refusals f with
  | S n =>
    (inl (foreign_error "dial tcp: connection refused"),
     {| backends := backends f; refusals := n; nanoseconds := nanoseconds f;
        unread := unread f; status := status f |})
  | O => (inr (List.length (backends f)), f)
  end.

(** The next server takes the message and goes to the end of the line. *)
Definition serve (b : string) (f : FakeNet) : option error * FakeNet :=
  match backends f with
  | [] => (Some (foreign_error "write: broken pipe"), f)
  | serverId :: rest =>
    (None,
     {| backends := (rest ++ [serverId])%list; refusals := refusals f;
        nanoseconds := nanoseconds f;
        unread := serverId ++ ":" ++ b; status := status f |})
  end.

#[export] Instance FakeNet_Net : router.Net FakeNet :=
  {| router.http_Post := fun _ _ _ f => (inr {| router.StatusCode := status f |}, f);
     router.net_DialTimeout := fun _ _ _ f => dial f;
     router.net_Dial := fun _ _ f => dial f;
     router.conn_Write := fun _ b f => serve b f;
     router.conn_Read := fun _ n f =>
       ((take n (unread f), None),
        {| backends := backends f; refusals := refusals f;
           nanoseconds := nanoseconds f; unread := ""; status := status f |});
     router.conn_Close := fun _ f => (None, f);
     router.time_Now_Nanosecond := fun f =>
       (nanoseconds f,
        {| backends := backends f; refusals := refusals f;
           nanoseconds := nanoseconds f + 1; unread := unread f;
           status := status f |}) |}.

Definition network (servers : list string) (refused : nat) : FakeNet :=
  {| backends := servers; refusals := refused; nanoseconds := 123456789;
     unread := ""; status := 200 |}.

Definition router_api : router_helpers.RouterApiConfig :=
  {| router_helpers.Address := "10.244.8.2";
     router_helpers.Port := 9999;
     router_helpers.BBSAddress := router_helpers.DEFAULT_BBS_API_URL |}.

(** A stand-in for [json.Marshal]: the external port and the count of
    backends. *)
Definition marshal_requests (requests : list router.MappingRequest)
  : string * option error :=
  (concat ","
     (map (fun r => itoa (router.ExternalPort r) ++ ":"
                      ++ itoa (Z.of_nat (List.length (router.Backends r))))
          requests),
   None).

(** A routing API whose statsd lines are scripted: every receive takes the
    next entry of [feed], and the channel is empty after the last. *)
Record FakeRoutingAPI : Type := { feed : list stats.received }.

#[export] Instance FakeRoutingAPI_RoutingAPI : stats.RoutingAPI FakeRoutingAPI :=
  {| stats.client_UpsertRoutes := fun _ f => (None, f);
     stats.client_DeleteRoutes := fun _ f => (None, f);
     stats.fakeStatsdChan_receive := fun f =>
       let '(r, rest) := next stats.Nothing (feed f) in (r, {| feed := rest |}) |}.

(** A clock that moves on by [tick] nanoseconds at every reading, and a
    random source that gives its seed, reduced into the range. *)
Record FakeSys : Type := { clock : Z; tick : Z; seed : Z }.

#[export] Instance FakeSys_Sys : golangtls.Sys FakeSys :=
  {| golangtls.rand_Int := fun max f =>
       (if 0 <? max then inr (seed f mod max)
        else inl (foreign_error "crypto/rand: argument to Int is <= 0"), f);
     golangtls.time_Now := fun f =>
       (clock f, {| clock := clock f + tick f; tick := tick f; seed := seed f |}) |}.

(** A clock at 1000 ns that moves on by 250 ns a reading, and the
    template CertTemplate makes of it. *)
Definition ticking : FakeSys := {| clock := 1000; tick := 250; seed := 2 ^ 128 + 42 |}.

Definition sample_template : golangtls.Certificate :=
  {| golangtls.SerialNumber := 42;
     golangtls.Subject_Organization := ["Ninoski, Inc."];
     golangtls.SignatureAlgorithm := golangtls.x509_SHA256WithRSA;
     golangtls.NotBefore := 1000;
     golangtls.NotAfter := 1250 + golangtls.time_Hour;
     golangtls.BasicConstraintsValid := true |}.

(** The statsd lines of a route that is added and then removed, between
    the periodic totals. *)
Definition added_then_removed : FakeRoutingAPI :=
  {| feed := [stats.Line "routing_api.total_http_routes:1|g";
              stats.Nothing;
              stats.Line "routing_api.total_http_routes:+1|g";
              stats.Line "routing_api.total_http_routes:2|g";
              stats.Nothing;
              stats.Line "routing_api.total_http_routes:-1|g"] |}.

(** The same lines with the removal first. *)
Definition removed_then_added : FakeRoutingAPI :=
  {| feed := [stats.Line "routing_api.total_http_routes:-1|g";
              stats.Line "routing_api.total_http_routes:+1|g";
              stats.Nothing; stats.Nothing] |}.

(** A UAA that gives one client and answers every token request. *)
Record FakeUAA : Type := { tokens_given : nat }.

#[export] Instance FakeUAA_UAA : helpers.UAA FakeUAA string string :=
  {| helpers.uaaclient_NewClient := fun cfg f =>
       ((Some (helpers.UaaConfig_ClientName cfg), None), f);
     helpers.uaaClient_FetchToken := fun client forceUpdate f =>
       ((Some "token", None), {| tokens_given := S (tokens_given f) |}) |}.

End fakes.

(** * Theorems *)

(** ** The monad's equations *)

Section monad_laws.
Context {S A B C : Type}.

Lemma bind_bind (m : M S A) (k : A -> M S B) (k' : B -> M S C) (s : S) :
  bind (bind m k) k' s = bind m (fun x => bind (k x) k') s.
Proof. unfold bind. destruct (m s) as [[a|y] s']; reflexivity. Qed.

Lemma bind_ret (a : A) (k : A -> M S B) (s : S) : bind (ret a) k s = k a s.
Proof. reflexivity. Qed.

Lemma bind_abort (why : abort) (k : A -> M S B) (s : S) :
  bind (abort_with why) k s = (Abort why, s).
Proof. reflexivity. Qed.

Lemma bind_deref (p : option A) (k : A -> M S B) (s : S) :
  bind (deref p) k s =
  match p with
  | Some a => k a s
  | None => (Abort (Panic "runtime error: invalid memory address or nil pointer dereference"), s)
  end.
Proof. destruct p; reflexivity. Qed.
End monad_laws.

(** ** Running a computation inside a hypothesis

    [run H] unfolds the binds of the computation in [H : m s = r] one
    call at a time, splitting on every result of the world and on every
    test of the code, down to the ends of the run. *)

Create Rewrite HintDb go_calls.
#[local] Hint Rewrite @bind_ret : go_calls.

Ltac step H :=
  first
    [ rewrite bind_bind in H
    | rewrite bind_ret in H
    | rewrite bind_abort in H
    | rewrite bind_deref in H
    | progress autorewrite with go_calls in H
    | progress cbv beta iota in H ].

Ltac split_call H :=
  match type of H with
  | context [snd ?x] =>
      lazymatch x with
      | fst _ => fail
      | snd _ => fail
      | (_, _) => fail
      | _ => first [ is_var x; destruct x as [? ?]
                   | destruct x as [? ?] eqn:? ];
             cbn [fst snd] in H
      end
  | context [fst ?x] =>
      is_var x; destruct x as [? ?]; cbn [fst snd] in H
  end.

Ltac split_head H :=
  match type of H with
  | bind (match ?x with _ => _ end) _ _ = _ => destruct x eqn:?
  | bind (if ?b then _ else _) _ _ = _ => destruct b eqn:?
  | (match ?x with _ => _ end) _ = _ => destruct x eqn:?
  | (if ?b then _ else _) _ = _ => destruct b eqn:?
  | (match ?x with _ => _ end) = _ => destruct x eqn:?
  end.

Ltac run H := repeat (first [ step H | split_call H | split_head H ]).

(** ** Package db *)

Section db_theorems.
Import db.
Context {W : Type} {api : KeysAPI W}.
Context {JSON_Route : JSON Route} {JSON_TcpRouteMapping : JSON TcpRouteMapping}
        {JSON_RouterGroup : JSON RouterGroup}.
Variable url_QueryEscape : string -> string.

Lemma bind_Get {B : Type} (key : string) (opts : GetOptions)
  (k : option Response * option error -> M St B) (w : W) (tr : list Call) :
  bind (Get key opts) k (w, tr) =
  k (fst (keysAPI_Get key opts w))
    (snd (keysAPI_Get key opts w),
     (tr ++ [CallGet key opts (fst (fst (keysAPI_Get key opts w)))
                              (snd (fst (keysAPI_Get key opts w)))])%list).
Proof. unfold bind, Get; simpl. destruct (keysAPI_Get key opts w); reflexivity. Qed.

Lemma bind_Set {B : Type} (key value : string) (opts : SetOptions)
  (k : option Response * option error -> M St B) (w : W) (tr : list Call) :
  bind (Set_ key value opts) k (w, tr) =
  k (fst (keysAPI_Set key value opts w))
    (snd (keysAPI_Set key value opts w),
     (tr ++ [CallSet key value opts (fst (fst (keysAPI_Set key value opts w)))
                              (snd (fst (keysAPI_Set key value opts w)))])%list).
Proof. unfold bind, Set_; simpl. destruct (keysAPI_Set key value opts w); reflexivity. Qed.

Lemma bind_NewModificationTag {B : Type}
  (k : ModificationTag * option error -> M St B) (w : W) (tr : list Call) :
  bind NewModificationTag k (w, tr) =
  k (fst (models_NewModificationTag w)) (snd (models_NewModificationTag w), tr).
Proof.
  unfold bind, NewModificationTag; simpl.
  destruct (models_NewModificationTag w); reflexivity.
Qed.

Lemma last_call_cons (c : Call) (l : list Call) :
  last_call (c :: l) = match l with [] => Some c | _ :: _ => last_call l end.
Proof. reflexivity. Qed.

Lemma count_cons (p : Call -> bool) (c : Call) (l : list Call) :
  count p (c :: l) = ((if p c then 1 else 0) + count p l)%nat.
Proof. unfold count; simpl; destruct (p c); reflexivity. Qed.

Lemma retried_cons (c : Call) (l : list Call) :
  head_is_Get l -> retried_after_cas_only l = true ->
  (l <> [] -> cas_failed c = true) ->
  retried_after_cas_only (c :: l) = true.
Proof.
  destruct l as [|c' l']; simpl; intros Hh Hr Hc; [reflexivity|].
  rewrite Hc by discriminate. rewrite orb_true_r. exact Hr.
Qed.

Lemma TestFailed_not_KeyNotFound (err : option error) :
  is_client_Error ErrorCodeTestFailed err = true ->
  is_client_Error ErrorCodeKeyNotFound err = false.
Proof.
  destruct err as [[c m| | |]|]; simpl; try discriminate.
  unfold ErrorCodeTestFailed, ErrorCodeKeyNotFound. lia.
Qed.

Lemma TestFailed_not_nil (err : option error) :
  is_client_Error ErrorCodeTestFailed err = true -> is_nil err = false.
Proof. destruct err; [reflexivity | discriminate]. Qed.

#[local] Hint Rewrite @bind_Get @bind_Set @bind_NewModificationTag : go_calls.

Lemma KeyNotFound_not_TestFailed (err : option error) :
  is_client_Error ErrorCodeKeyNotFound err = true ->
  is_client_Error ErrorCodeTestFailed err = false.
Proof.
  destruct err as [[c m| | |]|]; simpl; try discriminate.
  unfold ErrorCodeTestFailed, ErrorCodeKeyNotFound. lia.
Qed.

Lemma is_client_Error_nil (code : Z) : is_client_Error code None = false.
Proof. reflexivity. Qed.

Lemma save_post_retry_Get (r : nat) (g : Call) (ext : list Call)
  (out : outcome (option error)) :
  is_Get g = true -> cas_failed g = true ->
  save_post (S r) ext out -> save_post r (g :: ext) out.
Proof.
  unfold save_post.
  intros Hg Hc (P0 & P1 & P2 & P3 & P4 & P5 & P6 & P7 & P8 & P9).
  assert (Hs : is_Set g = false) by (destruct g; simpl in *; congruence).
  assert (Hk : key_not_found_Get g = false).
  { unfold key_not_found_Get. unfold cas_failed in Hc.
    rewrite (TestFailed_not_KeyNotFound _ Hc). apply andb_false_r. }
  assert (Hw : successful_Set g = false) by (unfold successful_Set; rewrite Hs; reflexivity).
  rewrite !count_cons, Hg, Hs, Hc.
  repeat split; try assumption; try lia.
  - apply retried_cons; auto.
  - intros; apply P6; lia.
  - intros c. rewrite last_call_cons. destruct ext as [|c' ext'].
    + intros [= <-]. congruence.
    + intros Hl Hk' _. apply (P7 c Hl Hk'). left; lia.
  - intros c e. rewrite last_call_cons. destruct ext as [|c' ext'].
    + intros [= <-]. congruence.
    + apply P8.
  - intros c. rewrite last_call_cons. destruct ext as [|c' ext'].
    + intros [= <-]. congruence.
    + apply P9.
Qed.

Lemma save_post_retry_Set (r : nat) (g s : Call) (ext : list Call)
  (out : outcome (option error)) :
  is_Get g = true -> cas_failed g = false ->
  is_Set s = true -> cas_failed s = true ->
  save_post (S r) ext out -> save_post r (g :: s :: ext) out.
Proof.
  unfold save_post.
  intros Hg Hgc Hs Hc (P0 & P1 & P2 & P3 & P4 & P5 & P6 & P7 & P8 & P9).
  assert (Hgs : is_Set g = false) by (destruct g; simpl in *; congruence).
  assert (Hsg : is_Get s = false) by (destruct s; simpl in *; congruence).
  assert (Hk : key_not_found_Get s = false)
    by (unfold key_not_found_Get; rewrite Hsg; reflexivity).
  assert (Hw : successful_Set s = false).
  { unfold successful_Set. unfold cas_failed in Hc.
    rewrite (TestFailed_not_nil _ Hc). apply andb_false_r. }
  rewrite !count_cons, Hg, Hs, Hgs, Hsg, Hc, Hgc.
  repeat split; try assumption; try lia.
  - change (retried_after_cas_only (g :: s :: ext))
      with ((negb (is_Get s) || cas_failed g) && retried_after_cas_only (s :: ext)).
    rewrite Hsg. simpl. apply retried_cons; auto.
  - intros; apply P6; lia.
  - intros c. rewrite !last_call_cons. destruct ext as [|c' ext'].
    + intros [= <-]. congruence.
    + intros Hl Hk' _. apply (P7 c Hl Hk'). left; lia.
  - intros c e. rewrite !last_call_cons. destruct ext as [|c' ext'].
    + intros [= <-]. congruence.
    + apply P8.
  - intros c. rewrite !last_call_cons. destruct ext as [|c' ext'].
    + intros [= <-]. congruence.
    + apply P9.
Qed.

Ltac saturate :=
  repeat match goal with
  | H : is_client_Error ErrorCodeTestFailed ?x = true |- _ =>
      lazymatch goal with
      | _ : is_client_Error ErrorCodeKeyNotFound x = false |- _ => fail
      | _ => pose proof (TestFailed_not_KeyNotFound _ H)
      end
  | H : is_client_Error ErrorCodeKeyNotFound ?x = true |- _ =>
      lazymatch goal with
      | _ : is_client_Error ErrorCodeTestFailed x = false |- _ => fail
      | _ => pose proof (KeyNotFound_not_TestFailed _ H)
      end
  end.

Ltac use_bools :=
  repeat match goal with
  | Hb : ?b = true |- context [?b] => rewrite Hb
  | Hb : ?b = false |- context [?b] => rewrite Hb
  end.

Ltac leaf H :=
  inversion H; subst; clear H;
  eexists; split; [ rewrite <- ?app_assoc; reflexivity | ];
  saturate;
  unfold save_post, count, cas_failed, key_not_found_Get, successful_Set, head_is_Get;
  cbn [filter is_Get is_Set Call_err last_call retried_after_cas_only
       List.length app negb orb andb is_nil];
  rewrite ?is_client_Error_nil; use_bools;
  cbn [filter is_Get is_Set Call_err last_call retried_after_cas_only
       List.length app negb orb andb is_nil];
  unfold maxRetries in *;
  repeat split; eauto; try lia;
  try (intros; repeat match goal with
               | E : Some _ = Some _ |- _ => injection E as <-
               end; cbn [is_Get is_Set Call_err andb is_nil] in *;
       rewrite ?is_client_Error_nil in *;
       try congruence; try lia).

Ltac rec H :=
  let ext := fresh "ext" in
  let Hp := fresh "Hp" in
  destruct H as (ext & -> & Hp);
  eexists; split; [ rewrite <- ?app_assoc; reflexivity | ];
  saturate; cbn [app];
  first [ apply save_post_retry_Set | apply save_post_retry_Get ];
  try assumption; try reflexivity;
  unfold cas_failed; cbn [Call_err]; rewrite ?is_client_Error_nil;
  try assumption; try reflexivity.

Lemma SaveRoute_loop_post (key : string) :
  forall (fuel r : nat) (route : Route) (w : W) (tr : list Call)
         (out : outcome (option error)) (w' : W) (tr' : list Call),
    (r <= S maxRetries)%nat -> (S (S maxRetries) <= fuel + r)%nat ->
    bind (SaveRoute_loop fuel key r route) SaveRoute_end (w, tr)
      = (out, (w', tr')) ->
    exists ext, tr' = (tr ++ ext)%list /\ save_post r ext out.
Proof.
  unfold maxRetries.
  induction fuel as [|fuel IH]; intros r route w tr out w' tr' Hr Hfuel H; [lia|].
  cbn [SaveRoute_loop] in H. unfold maxRetries in H.
  destruct (r <=? 3)%nat eqn:Hle.
  2:{ apply Nat.leb_gt in Hle. assert (r = 4)%nat by lia. subst r.
      cbn in H. inversion H; subst.
      exists []. rewrite app_nil_r. split; [reflexivity|].
      unfold save_post; simpl. repeat split; eauto; try lia; intros; discriminate. }
  apply Nat.leb_le in Hle.
  run H.
  all: try (apply IH in H; [ | lia | lia ]).
  all: unfold SaveRoute_end, ret in H.
  all: repeat match goal with
       | Hb : (_ <? _)%nat = true |- _ => apply Nat.ltb_lt in Hb
       | Hb : (_ <? _)%nat = false |- _ => apply Nat.ltb_ge in Hb
       end.
  all: try (unfold maxRetries in H;
            replace (3 <? r)%nat with false in H
              by (symmetry; apply Nat.ltb_ge; lia)).
  all: repeat match goal with
       | Hb : is_nil ?x = _ |- _ => destruct x; try discriminate Hb; clear Hb
       end.
  all: try solve [leaf H].
  all: try solve [rec H].
  all: solve [leaf H].
Qed.


Lemma SaveTcpRouteMapping_loop_post (key : string) :
  forall (fuel r : nat) (tcpMapping : TcpRouteMapping) (w : W) (tr : list Call)
         (out : outcome (option error)) (w' : W) (tr' : list Call),
    (r <= S maxRetries)%nat -> (S (S maxRetries) <= fuel + r)%nat ->
    bind (SaveTcpRouteMapping_loop fuel key r tcpMapping)
         SaveTcpRouteMapping_end (w, tr)
      = (out, (w', tr')) ->
    exists ext, tr' = (tr ++ ext)%list /\ save_post r ext out.
Proof.
  unfold maxRetries.
  induction fuel as [|fuel IH];
    intros r tcpMapping w tr out w' tr' Hr Hfuel H; [lia|].
  cbn [SaveTcpRouteMapping_loop] in H. unfold maxRetries in H.
  destruct (r <=? 3)%nat eqn:Hle.
  2:{ apply Nat.leb_gt in Hle. assert (r = 4)%nat by lia. subst r.
      cbn in H. inversion H; subst.
      exists []. rewrite app_nil_r. split; [reflexivity|].
      unfold save_post; simpl. repeat split; eauto; try lia; intros; discriminate. }
  apply Nat.leb_le in Hle.
  run H.
  all: try (apply IH in H; [ | lia | lia ]).
  all: unfold SaveTcpRouteMapping_end, ret in H.
  all: repeat match goal with
       | Hb : (_ <? _)%nat = true |- _ => apply Nat.ltb_lt in Hb
       | Hb : (_ <? _)%nat = false |- _ => apply Nat.ltb_ge in Hb
       end.
  all: repeat match goal with
       | Hb : is_nil ?x = _ |- _ => destruct x; try discriminate Hb; clear Hb
       end.
  all: try solve [leaf H].
  all: solve [rec H].
Qed.

Lemma retried_after_cas_only_spec (l : list Call) :
  retried_after_cas_only l = true ->
  forall l1 c g l2, l = (l1 ++ c :: g :: l2)%list ->
    is_Get g = true -> cas_failed c = true.
Proof.
  intros Hl l1; revert l Hl.
  induction l1 as [|x l1 IH]; intros l Hl c g l2 -> Hg.
  - cbn [app retried_after_cas_only] in Hl. rewrite Hg in Hl.
    destruct (cas_failed c); [reflexivity | discriminate].
  - apply (IH (l1 ++ c :: g :: l2)%list) with (g := g) (l2 := l2);
      [ | reflexivity | exact Hg ].
    change ((x :: l1) ++ c :: g :: l2)%list
      with (x :: (l1 ++ c :: g :: l2))%list in Hl.
    destruct (l1 ++ c :: g :: l2)%list as [|y l'] eqn:E.
    + destruct l1; discriminate.
    + cbn [retried_after_cas_only] in Hl.
      apply andb_true_iff in Hl. apply Hl.
Qed.

Lemma save_post_contract (out : outcome (option error)) (w : W)
  (tr : list Call) :
  save_post 0 tr out -> save_contract (out, (w, tr)).
Proof.
  unfold save_post, save_contract; cbn [fst snd].
  intros (P0 & P1 & P2 & P3 & P4 & P5 & P6 & P7 & P8 & P9).
  repeat split; try assumption; try lia.
  - intros l1 c g l2 E Hg.
    exact (retried_after_cas_only_spec tr P4 l1 c g l2 E Hg).
  - intros c Hl Hk Hlen. apply (P7 c Hl Hk). right; exact Hlen.
Qed.

(** *** The runs of the save loops *)

Lemma after_call_end (err : option error) (out : outcome (option error))
  (next : Prop) :
  is_client_Error ErrorCodeTestFailed err = false ->
  after_call err [] (Ret err) next.
Proof. intros H. unfold after_call. rewrite H. split; reflexivity. Qed.

Lemma after_call_again (err : option error) (rest : list Call)
  (out : outcome (option error)) (next : Prop) :
  is_client_Error ErrorCodeTestFailed err = true ->
  next -> after_call err rest out next.
Proof. intros H Hn. unfold after_call. rewrite H. exact Hn. Qed.

Ltac run_leaf H :=
  inversion H; subst; clear H;
  eexists; split; [ rewrite <- ?app_assoc; reflexivity | ];
  saturate; cbn [app save_run]; cbv zeta;
  (split; [ unfold maxRetries; lia | ]);
  use_bools; unfold after_call, stopped_before_the_write;
  rewrite ?is_client_Error_nil; use_bools;
  repeat split; eauto.

Ltac run_rec H :=
  let ext := fresh "ext" in
  let Hp := fresh "Hp" in
  destruct H as (ext & -> & Hp);
  eexists; split; [ rewrite <- ?app_assoc; reflexivity | ];
  saturate; cbn [app save_run]; cbv zeta;
  (split; [ unfold maxRetries; lia | ]);
  use_bools; unfold after_call;
  rewrite ?is_client_Error_nil; use_bools;
  exact Hp.

Lemma SaveRoute_loop_run (key : string) :
  forall (fuel r : nat) (route : Route) (w : W) (tr : list Call)
         (out : outcome (option error)) (w' : W) (tr' : list Call),
    (r <= S maxRetries)%nat -> (S (S maxRetries) <= fuel + r)%nat ->
    bind (SaveRoute_loop fuel key r route) SaveRoute_end (w, tr)
      = (out, (w', tr')) ->
    exists ext, tr' = (tr ++ ext)%list /\ save_run r ext out.
Proof.
  unfold maxRetries.
  induction fuel as [|fuel IH]; intros r route w tr out w' tr' Hr Hfuel H; [lia|].
  cbn [SaveRoute_loop] in H. unfold maxRetries in H.
  destruct (r <=? 3)%nat eqn:Hle.
  2:{ apply Nat.leb_gt in Hle. assert (r = 4)%nat by lia. subst r.
      cbn in H. inversion H; subst.
      exists []. rewrite app_nil_r. split; [reflexivity|].
      cbn [save_run]. unfold maxRetries. split; [lia | reflexivity]. }
  apply Nat.leb_le in Hle.
  run H.
  all: try (apply IH in H; [ | lia | lia ]).
  all: unfold SaveRoute_end, ret in H.
  all: try (unfold maxRetries in H;
            replace (3 <? r)%nat with false in H
              by (symmetry; apply Nat.ltb_ge; lia)).
  all: try match goal with
       | Hb : is_nil (Some _) = true |- _ => discriminate Hb
       | Hb : is_nil None = false |- _ => discriminate Hb
       end.
  all: repeat match goal with
       | Hb : is_nil ?x = _ |- _ =>
         first [ is_var x; destruct x; try discriminate Hb; clear Hb | clear Hb ]
       end.
  all: try solve [run_leaf H].
  all: solve [run_rec H].
Qed.

Lemma SaveTcpRouteMapping_loop_run (key : string) :
  forall (fuel r : nat) (tcpMapping : TcpRouteMapping) (w : W) (tr : list Call)
         (out : outcome (option error)) (w' : W) (tr' : list Call),
    (r <= S maxRetries)%nat -> (S (S maxRetries) <= fuel + r)%nat ->
    bind (SaveTcpRouteMapping_loop fuel key r tcpMapping)
         SaveTcpRouteMapping_end (w, tr)
      = (out, (w', tr')) ->
    exists ext, tr' = (tr ++ ext)%list /\ save_run r ext out.
Proof.
  unfold maxRetries.
  induction fuel as [|fuel IH];
    intros r tcpMapping w tr out w' tr' Hr Hfuel H; [lia|].
  cbn [SaveTcpRouteMapping_loop] in H. unfold maxRetries in H.
  destruct (r <=? 3)%nat eqn:Hle.
  2:{ apply Nat.leb_gt in Hle. assert (r = 4)%nat by lia. subst r.
      cbn in H. inversion H; subst.
      exists []. rewrite app_nil_r. split; [reflexivity|].
      cbn [save_run]. unfold maxRetries. split; [lia | reflexivity]. }
  apply Nat.leb_le in Hle.
  run H.
  all: try (apply IH in H; [ | lia | lia ]).
  all: unfold SaveTcpRouteMapping_end, ret in H.
  all: try match goal with
       | Hb : is_nil (Some _) = true |- _ => discriminate Hb
       | Hb : is_nil None = false |- _ => discriminate Hb
       end.
  all: repeat match goal with
       | Hb : is_nil ?x = _ |- _ =>
         first [ is_var x; destruct x; try discriminate Hb; clear Hb | clear Hb ]
       end.
  all: try solve [run_leaf H].
  all: solve [run_rec H].
Qed.

(** One round of a run, taken apart. *)
Lemma save_run_cons (r : nat) (c : Call) (rest : list Call)
  (out : outcome (option error)) :
  save_run r (c :: rest) out ->
  (r <= maxRetries)%nat /\ is_Get c = true
  /\ ((rest = [] /\ cas_failed c = false)
      \/ (cas_failed c = true /\ save_run (S r) rest out)
      \/ (exists s rest',
            rest = s :: rest' /\ is_Set s = true /\ cas_failed c = false
            /\ (found_Get c = true \/ (r = 0%nat /\ key_not_found_Get c = true))
            /\ ((rest' = [] /\ cas_failed s = false)
                \/ (cas_failed s = true /\ save_run (S r) rest' out)))).
Proof.
  destruct c as [k o response err| |]; cbn [save_run]; try contradiction.
  intros [Hr H]. split; [exact Hr|]. split; [reflexivity|].
  cbv zeta in H. unfold cas_failed, key_not_found_Get, found_Get.
  cbn [Call_err is_Get andb].
  assert (Hwrite :
    match rest with
    | CallSet _ _ _ _ err' :: rest' =>
      after_call err' rest' out (save_run (S r) rest' out)
    | _ => stopped_before_the_write rest out
    end ->
    rest = []
    \/ exists s rest',
         rest = s :: rest' /\ is_Set s = true
         /\ ((rest' = [] /\ is_client_Error ErrorCodeTestFailed (Call_err s) = false)
             \/ (is_client_Error ErrorCodeTestFailed (Call_err s) = true
                 /\ save_run (S r) rest' out))).
  { destruct rest as [|[k1 o1 r1 e1|k1 v1 so1 r1 e1|k1 e1] rest'];
      unfold stopped_before_the_write, after_call;
      try (intros [Hnil _]; try discriminate Hnil; left; reflexivity).
    intros Ha. right. exists (CallSet k1 v1 so1 r1 e1), rest'.
    split; [reflexivity|]. split; [reflexivity|]. cbn [Call_err].
    destruct (is_client_Error ErrorCodeTestFailed e1).
    - right. split; [reflexivity | exact Ha].
    - left. split; [apply Ha | reflexivity]. }
  destruct (is_client_Error ErrorCodeKeyNotFound err) eqn:Hk.
  - rewrite (KeyNotFound_not_TestFailed _ Hk).
    destruct err as [e|]; [|discriminate Hk].
    assert (H' : if (0 <? r)%nat
                 then rest = [] /\ out = Ret (Some ErrorConflict)
                 else match rest with
                      | CallSet _ _ _ _ err' :: rest' =>
                        after_call err' rest' out (save_run (S r) rest' out)
                      | _ => stopped_before_the_write rest out
                      end)
      by (destruct response; exact H).
    clear H. destruct (0 <? r)%nat eqn:Hpos.
    + destruct H' as [-> _]. left. split; reflexivity.
    + apply Nat.ltb_ge in Hpos.
      apply Hwrite in H'. destruct H' as [-> | (s & rest' & -> & Hs & H')].
      * left. split; reflexivity.
      * right; right. exists s, rest'.
        split; [reflexivity|]. split; [exact Hs|]. split; [reflexivity|].
        split; [right; split; [lia | reflexivity] | exact H'].
  - destruct err as [e|].
    + assert (H' : after_call (Some e) rest out (save_run (S r) rest out))
        by (destruct response; exact H).
      clear H. unfold after_call in H'.
      destruct (is_client_Error ErrorCodeTestFailed (Some e)) eqn:Hc.
      * right; left. split; [reflexivity | exact H'].
      * destruct H' as [-> _]. left. split; reflexivity.
    + rewrite is_client_Error_nil. destruct response as [resp|].
      * apply Hwrite in H. destruct H as [-> | (s & rest' & -> & Hs & H)].
        -- left. split; reflexivity.
        -- right; right. exists s, rest'.
           split; [reflexivity|]. split; [exact Hs|]. split; [reflexivity|].
           split; [left; reflexivity | exact H].
      * unfold after_call in H.
        rewrite is_client_Error_nil in H. destruct H as [-> _].
        left. split; reflexivity.
Qed.

Lemma save_run_pairs :
  forall (n : nat) (tr : list Call) (r : nat) (out : outcome (option error)),
    (List.length tr <= n)%nat -> save_run r tr out ->
    forall l1 c c' l2, tr = (l1 ++ c :: c' :: l2)%list ->
      (cas_failed c = true /\ is_Get c' = true)
      \/ (is_Set c' = true
          /\ (found_Get c = true
              \/ ((r = 0%nat /\ l1 = []) /\ key_not_found_Get c = true))).
Proof.
  induction n as [|n IH]; intros tr r out Hn Hrun l1 c c' l2 E.
  { subst tr. rewrite length_app in Hn. cbn [List.length] in Hn. lia. }
  destruct tr as [|g rest]; [destruct l1; discriminate E|].
  apply save_run_cons in Hrun. destruct Hrun as (Hr & Hg & Hcases).
  assert (Hlen : (List.length rest <= n)%nat) by (cbn [List.length] in Hn; lia).
  assert (Hnext : forall rest0 l0,
             (List.length rest0 <= n)%nat -> save_run (S r) rest0 out ->
             rest0 = (l0 ++ c :: c' :: l2)%list ->
             (cas_failed c = true /\ is_Get c' = true)
             \/ (is_Set c' = true
                 /\ (found_Get c = true
                     \/ ((r = 0%nat /\ False) /\ key_not_found_Get c = true)))).
  { intros rest0 l0 Hl0 Hrun0 E0.
    destruct (IH rest0 (S r) out Hl0 Hrun0 l0 c c' l2 E0)
      as [H | [Hs [Hf | [[Hr0 _] _]]]].
    - left. exact H.
    - right. split; [exact Hs | left; exact Hf].
    - discriminate Hr0. }
  assert (Hhead : forall rest0, save_run (S r) (c' :: rest0) out -> is_Get c' = true)
    by (intros rest0 H0; apply save_run_cons in H0; apply H0).
  destruct l1 as [|a l1]; cbn [app] in E; injection E as -> ->.
  - destruct Hcases as [[Hnil _] | [[Hc Hrun] | (s & rest' & Hrest & Hs & _ & Hfound & _)]].
    + discriminate Hnil.
    + left. split; [exact Hc | exact (Hhead _ Hrun)].
    + injection Hrest as <- <-. right. split; [exact Hs|].
      destruct Hfound as [Hf | [Hr0 Hk]]; [left; exact Hf|].
      right. split; [split; [exact Hr0 | reflexivity] | exact Hk].
  - assert (Hgoal : (cas_failed c = true /\ is_Get c' = true)
                    \/ (is_Set c' = true
                        /\ (found_Get c = true
                            \/ ((r = 0%nat /\ False) /\ key_not_found_Get c = true)))).
    { destruct Hcases as [[Hnil _] | [[_ Hrun] | (s & rest' & Hrest & _ & _ & _ & Hsub)]].
      - destruct l1; discriminate Hnil.
      - exact (Hnext (l1 ++ c :: c' :: l2)%list l1 Hlen Hrun eq_refl).
      - destruct l1 as [|b l1]; cbn [app] in Hrest; injection Hrest as <- <-.
        + destruct Hsub as [[Hnil _] | [Hc Hrun]]; [discriminate Hnil|].
          left. split; [exact Hc | exact (Hhead _ Hrun)].
        + destruct Hsub as [[Hnil _] | [_ Hrun]]; [destruct l1; discriminate Hnil|].
          apply (Hnext (l1 ++ c :: c' :: l2)%list l1);
            [cbn [List.length app] in Hlen; lia | exact Hrun | reflexivity]. }
    destruct Hgoal as [H | [Hs [Hf | [[_ Hne] _]]]].
    + left. exact H.
    + right. split; [exact Hs | left; exact Hf].
    + destruct Hne.
Qed.

Lemma save_run_cas_last :
  forall (n : nat) (tr : list Call) (r : nat) (out : outcome (option error)),
    (List.length tr <= n)%nat -> save_run r tr out ->
    forall c, last_call tr = Some c -> cas_failed c = true ->
      (r + count cas_failed tr = S maxRetries)%nat.
Proof.
  induction n as [|n IH]; intros tr r out Hn Hrun c Hlast Hcas.
  { destruct tr; [discriminate Hlast | cbn [List.length] in Hn; lia]. }
  destruct tr as [|g rest]; [discriminate Hlast|].
  apply save_run_cons in Hrun. destruct Hrun as (Hr & Hg & Hcases).
  assert (Hnext : forall rest0,
             (List.length rest0 <= n)%nat -> save_run (S r) rest0 out ->
             (rest0 = [] \/ last_call rest0 = Some c) ->
             (S r + count cas_failed rest0 = S maxRetries)%nat).
  { intros rest0 Hl0 Hrun0 [-> | Hlast0].
    - cbn [save_run] in Hrun0. destruct Hrun0 as [Hlt _].
      unfold count. cbn [filter List.length]. lia.
    - exact (IH rest0 (S r) out Hl0 Hrun0 c Hlast0 Hcas). }
  rewrite count_cons.
  destruct Hcases as [[-> Hc] | [[Hc Hrun] | (s & rest' & -> & Hs & Hc & _ & Hsub)]].
  - injection Hlast as <-. congruence.
  - rewrite Hc. rewrite last_call_cons in Hlast.
    assert (Hsum : (S r + count cas_failed rest = S maxRetries)%nat).
    { apply Hnext; [cbn [List.length] in Hn; lia | exact Hrun|].
      destruct rest; [left; reflexivity | right; exact Hlast]. }
    lia.
  - rewrite Hc, count_cons. rewrite !last_call_cons in Hlast.
    destruct Hsub as [[-> Hcs] | [Hcs Hrun]].
    + injection Hlast as <-. congruence.
    + rewrite Hcs.
      assert (Hsum : (S r + count cas_failed rest' = S maxRetries)%nat).
      { apply Hnext; [cbn [List.length] in Hn; lia | exact Hrun|].
        destruct rest'; [left; reflexivity | right; exact Hlast]. }
      lia.
Qed.

Lemma found_Get_no_error (c : Call) :
  found_Get c = true -> is_Get c = true /\ Call_err c = None.
Proof.
  destruct c as [k o [resp|] [e|]| |]; cbn; intros H;
    try discriminate H; split; reflexivity.
Qed.

Lemma key_not_found_Get_error (c : Call) :
  key_not_found_Get c = true ->
  is_Get c = true /\ Call_err c <> None /\ cas_failed c = false.
Proof.
  unfold key_not_found_Get, cas_failed. intros H.
  apply andb_true_iff in H. destruct H as [Hg Hk].
  split; [exact Hg|]. split.
  - intros E. rewrite E in Hk. discriminate Hk.
  - exact (KeyNotFound_not_TestFailed _ Hk).
Qed.

Lemma save_run_stops (w : W) (tr : list Call) (out : outcome (option error)) :
  save_run 0 tr out -> save_stops (out, (w, tr)).
Proof.
  intros Hrun. unfold save_stops. cbn [fst snd].
  assert (Hpairs : forall l1 c c' l2, tr = (l1 ++ c :: c' :: l2)%list ->
            (cas_failed c = true /\ is_Get c' = true)
            \/ (is_Set c' = true
                /\ (found_Get c = true \/ (l1 = [] /\ key_not_found_Get c = true)))).
  { intros l1 c c' l2 E.
    destruct (save_run_pairs _ tr 0 out (Nat.le_refl _) Hrun l1 c c' l2 E)
      as [H | [Hs [Hf | [[_ Hl] Hk]]]].
    - left. exact H.
    - right. split; [exact Hs | left; exact Hf].
    - right. split; [exact Hs | right; split; [exact Hl | exact Hk]]. }
  split.
  { destruct tr as [|g rest].
    - cbn [save_run] in Hrun. unfold maxRetries in Hrun. lia.
    - exists g, rest. split; [reflexivity|]. apply save_run_cons in Hrun. apply Hrun. }
  split; [exact Hpairs|].
  split.
  { intros l1 g l2 E Hl1 Hk. destruct l2 as [|c' l2]; [reflexivity|].
    destruct (key_not_found_Get_error _ Hk) as (_ & Herr & Hc).
    destruct (Hpairs l1 g c' l2 E) as [[Hc' _] | [_ [Hf | [Hl _]]]].
    - congruence.
    - destruct (found_Get_no_error _ Hf) as [_ Hnone]. contradiction.
    - contradiction. }
  split.
  { intros l1 c l2 e E Herr Hc Hk. destruct l2 as [|c' l2]; [reflexivity|].
    destruct (Hpairs l1 c c' l2 E) as [[Hc' _] | [_ [Hf | [_ Hk']]]].
    - congruence.
    - destruct (found_Get_no_error _ Hf) as [_ Hnone]. congruence.
    - congruence. }
  split.
  { intros l1 c l2 E Hs. destruct l2 as [|c' l2]; [reflexivity|].
    unfold successful_Set in Hs. apply andb_true_iff in Hs. destruct Hs as [Hs Hnil].
    assert (Hget : is_Get c = false) by (destruct c; try discriminate Hs; reflexivity).
    assert (Hnone : Call_err c = None) by (destruct (Call_err c); [discriminate Hnil | reflexivity]).
    destruct (Hpairs l1 c c' l2 E) as [[Hc' _] | [_ [Hf | [_ Hk']]]].
    - unfold cas_failed in Hc'. rewrite Hnone in Hc'. discriminate Hc'.
    - destruct (found_Get_no_error _ Hf) as [Hg _]. congruence.
    - destruct (key_not_found_Get_error _ Hk') as [Hg _]. congruence. }
  intros c Hlast Hc.
  exact (save_run_cas_last _ tr 0 out (Nat.le_refl _) Hrun c Hlast Hc).
Qed.

(** C1: SaveRoute and SaveTcpRouteMapping retry the compare-and-swap
    write only after etcd reported a compare-and-swap failure
    (ErrorCodeTestFailed) and at most maxRetries (3) further times, so that
    no run makes more than four reads and four writes; with enough fuel
    for the four rounds every run ends.  When the budget is used up, or
    when a read after the first attempt finds the key gone, the call
    returns ErrorConflict; any other etcd error is returned as it came.
    The run stops where the claim says: it goes on after a call exactly
    when that call reported a compare-and-swap failure and the budget
    allows, or when the call is the Get of a round that writes; a later
    Get that finds no key, a call with any other error and a Set that
    succeeded are each the last call; and the trace and the result are
    those of [save_run], which leaves no other run. *)
Theorem Save_retries_only_on_compare_and_swap_failure
  (fuel : nat) (route : Route) (tcpMapping : TcpRouteMapping) (w : W) :
  (S (S maxRetries) <= fuel)%nat ->
  let a := SaveRoute url_QueryEscape fuel route (w, []) in
  let b := SaveTcpRouteMapping fuel tcpMapping (w, []) in
  (save_contract a /\ save_stops a /\ save_run 0 (snd (snd a)) (fst a))
  /\ (save_contract b /\ save_stops b /\ save_run 0 (snd (snd b)) (fst b)).
Proof.
  intros Hfuel. cbv zeta. split.
  - unfold SaveRoute.
    destruct (bind (SaveRoute_loop fuel (generateHttpRouteKey url_QueryEscape route)
                      0 route) SaveRoute_end (w, []))
      as [out [w' tr']] eqn:H.
    pose proof H as H'.
    apply SaveRoute_loop_post in H; [ | unfold maxRetries; lia | lia ].
    apply SaveRoute_loop_run in H'; [ | unfold maxRetries; lia | lia ].
    destruct H as (ext & -> & Hp). destruct H' as (ext' & E & Hrun).
    cbn [app] in E. subst ext'. cbn [fst snd app].
    split; [apply save_post_contract; exact Hp|].
    split; [apply save_run_stops; exact Hrun | exact Hrun].
  - unfold SaveTcpRouteMapping.
    destruct (bind (SaveTcpRouteMapping_loop fuel
                      (generateTcpRouteMappingKey tcpMapping) 0 tcpMapping)
                   SaveTcpRouteMapping_end (w, []))
      as [out [w' tr']] eqn:H.
    pose proof H as H'.
    apply SaveTcpRouteMapping_loop_post in H; [ | unfold maxRetries; lia | lia ].
    apply SaveTcpRouteMapping_loop_run in H'; [ | unfold maxRetries; lia | lia ].
    destruct H as (ext & -> & Hp). destruct H' as (ext' & E & Hrun).
    cbn [app] in E. subst ext'. cbn [fst snd app].
    split; [apply save_post_contract; exact Hp|].
    split; [apply save_run_stops; exact Hrun | exact Hrun].
Qed.

(** *** ReadRoutes and ReadTcpRouteMappings *)

Lemma ReadRoutes_range_returns (nodes : list Node) :
  forall listRoutes r, ReadRoutes_range nodes listRoutes = inl r -> r = ([], None).
Proof.
  induction nodes as [|node nodes IH]; intros acc r; cbn [ReadRoutes_range].
  - discriminate.
  - destruct (json_Unmarshal (Node_Value node)) as [e|route].
    + intros [= <-]; reflexivity.
    + apply IH.
Qed.

Lemma ReadRoutes_range_unmarshal_failure (nodes : list Node) :
  forall listRoutes node e,
    In node nodes -> json_Unmarshal (A := Route) (Node_Value node) = inl e ->
    ReadRoutes_range nodes listRoutes = inl ([], None).
Proof.
  induction nodes as [|n nodes IH]; intros acc node e Hin He; [destruct Hin|].
  cbn [ReadRoutes_range]. destruct Hin as [-> | Hin].
  - rewrite He; reflexivity.
  - destruct (json_Unmarshal (Node_Value n)) as [e'|route]; [reflexivity|].
    apply (IH _ node e Hin He).
Qed.

Lemma ReadTcpRouteMappings_mappings_returns (nodes : list Node) :
  forall acc r, ReadTcpRouteMappings_mappings nodes acc = inl r -> r = ([], None).
Proof.
  induction nodes as [|node nodes IH]; intros acc r;
    cbn [ReadTcpRouteMappings_mappings].
  - discriminate.
  - destruct (json_Unmarshal (Node_Value node)) as [e|m].
    + intros [= <-]; reflexivity.
    + apply IH.
Qed.

Lemma ReadTcpRouteMappings_externalPorts_returns (nodes : list Node) :
  forall acc r,
    ReadTcpRouteMappings_externalPorts nodes acc = inl r -> r = ([], None).
Proof.
  induction nodes as [|node nodes IH]; intros acc r;
    cbn [ReadTcpRouteMappings_externalPorts].
  - discriminate.
  - destruct (ReadTcpRouteMappings_mappings (Node_Nodes node) acc) as [r'|acc'] eqn:E.
    + intros [= <-]. exact (ReadTcpRouteMappings_mappings_returns _ _ _ E).
    + apply IH.
Qed.

Lemma ReadTcpRouteMappings_routerGroups_returns (nodes : list Node) :
  forall acc r,
    ReadTcpRouteMappings_routerGroups nodes acc = inl r -> r = ([], None).
Proof.
  induction nodes as [|node nodes IH]; intros acc r;
    cbn [ReadTcpRouteMappings_routerGroups].
  - discriminate.
  - destruct (ReadTcpRouteMappings_externalPorts (Node_Nodes node) acc) as [r'|acc'] eqn:E.
    + intros [= <-]. exact (ReadTcpRouteMappings_externalPorts_returns _ _ _ E).
    + apply IH.
Qed.

Lemma ReadTcpRouteMappings_mappings_failure (nodes : list Node) :
  forall acc node e,
    In node nodes ->
    json_Unmarshal (A := TcpRouteMapping) (Node_Value node) = inl e ->
    ReadTcpRouteMappings_mappings nodes acc = inl ([], None).
Proof.
  induction nodes as [|n nodes IH]; intros acc node e Hin He; [destruct Hin|].
  cbn [ReadTcpRouteMappings_mappings]. destruct Hin as [-> | Hin].
  - rewrite He; reflexivity.
  - destruct (json_Unmarshal (Node_Value n)) as [e'|m]; [reflexivity|].
    apply (IH _ node e Hin He).
Qed.

Lemma ReadTcpRouteMappings_externalPorts_failure (nodes : list Node) :
  forall acc externalPortNode mappingNode e,
    In externalPortNode nodes ->
    In mappingNode (Node_Nodes externalPortNode) ->
    json_Unmarshal (A := TcpRouteMapping) (Node_Value mappingNode) = inl e ->
    ReadTcpRouteMappings_externalPorts nodes acc = inl ([], None).
Proof.
  induction nodes as [|n nodes IH]; intros acc pn mn e Hin Hin' He;
    [destruct Hin|].
  cbn [ReadTcpRouteMappings_externalPorts]. destruct Hin as [-> | Hin].
  - rewrite (ReadTcpRouteMappings_mappings_failure _ acc mn e Hin' He).
    reflexivity.
  - destruct (ReadTcpRouteMappings_mappings (Node_Nodes n) acc) as [r|acc'] eqn:E.
    + rewrite (ReadTcpRouteMappings_mappings_returns _ _ _ E); reflexivity.
    + apply (IH _ pn mn e Hin Hin' He).
Qed.

Lemma ReadTcpRouteMappings_routerGroups_failure (nodes : list Node) :
  forall acc routerGroupNode externalPortNode mappingNode e,
    In routerGroupNode nodes ->
    In externalPortNode (Node_Nodes routerGroupNode) ->
    In mappingNode (Node_Nodes externalPortNode) ->
    json_Unmarshal (A := TcpRouteMapping) (Node_Value mappingNode) = inl e ->
    ReadTcpRouteMappings_routerGroups nodes acc = inl ([], None).
Proof.
  induction nodes as [|n nodes IH]; intros acc gn pn mn e Hin Hin' Hin'' He;
    [destruct Hin|].
  cbn [ReadTcpRouteMappings_routerGroups]. destruct Hin as [-> | Hin].
  - rewrite (ReadTcpRouteMappings_externalPorts_failure _ acc pn mn e Hin' Hin'' He).
    reflexivity.
  - destruct (ReadTcpRouteMappings_externalPorts (Node_Nodes n) acc) as [r|acc'] eqn:E.
    + rewrite (ReadTcpRouteMappings_externalPorts_returns _ _ _ E); reflexivity.
    + apply (IH _ gn pn mn e Hin Hin' Hin'' He).
Qed.

(** C8: ReadRoutes and ReadTcpRouteMappings never return a non-nil error.
    Each of them either returns a list with a nil error or, when Get gave
    neither a response nor an error, panics on the nil response; after a
    failed Get, and after a stored value that does not unmarshal, what
    they return is the empty list with a nil error. *)
Theorem Read_discards_every_failure (w : W) :
  ((exists l, fst (ReadRoutes (w, [])) = Ret (l, None))
   \/ (fst (keysAPI_Get HTTP_ROUTE_BASE_KEY readOpts w) = (None, None)
       /\ exists msg, fst (ReadRoutes (w, [])) = Abort (Panic msg)))
  /\ ((exists l, fst (ReadTcpRouteMappings (w, [])) = Ret (l, None))
      \/ (fst (keysAPI_Get TCP_MAPPING_BASE_KEY readOpts w) = (None, None)
          /\ exists msg, fst (ReadTcpRouteMappings (w, [])) = Abort (Panic msg)))
  /\ (forall response e,
        fst (keysAPI_Get HTTP_ROUTE_BASE_KEY readOpts w) = (response, Some e) ->
        fst (ReadRoutes (w, [])) = Ret ([], None))
  /\ (forall response e,
        fst (keysAPI_Get TCP_MAPPING_BASE_KEY readOpts w) = (response, Some e) ->
        fst (ReadTcpRouteMappings (w, [])) = Ret ([], None))
  /\ (forall resp node e,
        fst (keysAPI_Get HTTP_ROUTE_BASE_KEY readOpts w) = (Some resp, None) ->
        In node (Node_Nodes (Response_Node resp)) ->
        json_Unmarshal (A := Route) (Node_Value node) = inl e ->
        fst (ReadRoutes (w, [])) = Ret ([], None))
  /\ (forall resp routerGroupNode externalPortNode mappingNode e,
        fst (keysAPI_Get TCP_MAPPING_BASE_KEY readOpts w) = (Some resp, None) ->
        In routerGroupNode (Node_Nodes (Response_Node resp)) ->
        In externalPortNode (Node_Nodes routerGroupNode) ->
        In mappingNode (Node_Nodes externalPortNode) ->
        json_Unmarshal (A := TcpRouteMapping) (Node_Value mappingNode) = inl e ->
        fst (ReadTcpRouteMappings (w, [])) = Ret ([], None)).
Proof.
  unfold ReadRoutes, ReadTcpRouteMappings, readOpts.
  rewrite !bind_Get. cbn [fst snd].
  destruct (keysAPI_Get HTTP_ROUTE_BASE_KEY {| Recursive := true |} w)
    as [[response err] w1].
  destruct (keysAPI_Get TCP_MAPPING_BASE_KEY {| Recursive := true |} w)
    as [[response' err'] w1'].
  cbn [fst snd].
  repeat split.
  - destruct err as [e|]; cbn [is_nil negb]; [left; eexists; reflexivity|].
    rewrite bind_deref. destruct response as [resp|].
    + left.
      destruct (ReadRoutes_range (Node_Nodes (Response_Node resp)) []) as [r|l] eqn:E.
      * rewrite (ReadRoutes_range_returns _ _ _ E). eexists; reflexivity.
      * eexists; reflexivity.
    + right. split; [reflexivity | eexists; reflexivity].
  - destruct err' as [e|]; cbn [is_nil negb]; [left; eexists; reflexivity|].
    rewrite bind_deref. destruct response' as [resp|].
    + left.
      destruct (ReadTcpRouteMappings_routerGroups (Node_Nodes (Response_Node resp)) [])
        as [r|l] eqn:E.
      * rewrite (ReadTcpRouteMappings_routerGroups_returns _ _ _ E).
        eexists; reflexivity.
      * eexists; reflexivity.
    + right. split; [reflexivity | eexists; reflexivity].
  - intros ? ? [= -> ->]. reflexivity.
  - intros ? ? [= -> ->]. reflexivity.
  - intros resp node e [= -> ->] Hin He. cbn [is_nil negb].
    rewrite bind_deref.
    rewrite (ReadRoutes_range_unmarshal_failure _ [] node e Hin He). reflexivity.
  - intros resp gn pn mn e [= -> ->] Hg Hp Hm He. cbn [is_nil negb].
    rewrite bind_deref.
    rewrite (ReadTcpRouteMappings_routerGroups_failure _ [] gn pn mn e Hg Hp Hm He).
    reflexivity.
Qed.

(** *** SaveRouterGroup *)

Lemma run_bind {S A B : Type} (m : M S A) (k : A -> M S B) (s s' : S) (o : outcome A) :
  m s = (o, s') ->
  bind m k s = match o with Ret a => k a s' | Abort why => (Abort why, s') end.
Proof. unfold bind; intros ->; destruct o; reflexivity. Qed.

Lemma ReadRouterGroups_trace (w : W) (tr : list Call) :
  snd (snd (ReadRouterGroups (w, tr))) =
  (tr ++ [CallGet ROUTER_GROUP_BASE_KEY {| Recursive := true |}
            (fst (fst (keysAPI_Get ROUTER_GROUP_BASE_KEY {| Recursive := true |} w)))
            (snd (fst (keysAPI_Get ROUTER_GROUP_BASE_KEY {| Recursive := true |} w)))])%list.
Proof.
  unfold ReadRouterGroups. rewrite bind_Get.
  destruct (keysAPI_Get ROUTER_GROUP_BASE_KEY {| Recursive := true |} w)
    as [[response err] w1]; cbn [fst snd].
  destruct err as [e|]; cbn [is_nil negb].
  - destruct (is_client_Error ErrorCodeKeyNotFound (Some e)); reflexivity.
  - rewrite bind_deref. destruct response as [resp|]; [|reflexivity].
    destruct (ReadRouterGroups_range (Node_Nodes (Response_Node resp)) []);
      reflexivity.
Qed.

Lemma SaveRouterGroup_range_taken (routerGroups : list RouterGroup)
  (routerGroup : RouterGroup) :
  name_taken routerGroups routerGroup ->
  exists msg, SaveRouterGroup_range routerGroups routerGroup
              = Some (DBError UniqueField msg).
Proof.
  intros (rg & Hin & Hg & Hn).
  induction routerGroups as [|x l IH]; [destruct Hin|].
  cbn [SaveRouterGroup_range].
  destruct (negb (RouterGroup_Guid x =? RouterGroup_Guid routerGroup)%string
            && (RouterGroup_Name x =? RouterGroup_Name routerGroup)%string) eqn:E.
  - eexists; reflexivity.
  - destruct Hin as [-> | Hin]; [|exact (IH Hin)].
    apply String.eqb_neq in Hg. apply String.eqb_eq in Hn.
    rewrite Hg, Hn in E. discriminate.
Qed.

Lemma SaveRouterGroup_range_found (routerGroups : list RouterGroup)
  (routerGroup : RouterGroup) (e : error) :
  SaveRouterGroup_range routerGroups routerGroup = Some e ->
  name_taken routerGroups routerGroup.
Proof.
  induction routerGroups as [|x l IH]; cbn [SaveRouterGroup_range]; [discriminate|].
  destruct (negb (RouterGroup_Guid x =? RouterGroup_Guid routerGroup)%string
            && (RouterGroup_Name x =? RouterGroup_Name routerGroup)%string) eqn:E.
  - intros _. apply andb_true_iff in E. destruct E as [Eg En].
    apply negb_true_iff, String.eqb_neq in Eg. apply String.eqb_eq in En.
    exists x. repeat split; [left; reflexivity | exact Eg | exact En].
  - intros H. destruct (IH H) as (rg & Hin & Hg & Hn).
    exists rg. repeat split; [right; exact Hin | exact Hg | exact Hn].
Qed.

Lemma SaveRouterGroup_range_free (routerGroups : list RouterGroup)
  (routerGroup : RouterGroup) :
  SaveRouterGroup_range routerGroups routerGroup = None ->
  ~ name_taken routerGroups routerGroup.
Proof.
  intros H Ht. destruct (SaveRouterGroup_range_taken _ _ Ht) as (msg & E).
  congruence.
Qed.

Ltac guard_taken :=
  let Heq := fresh "Heq" in
  let Ht := fresh "Ht" in
  intros ? ? _ Heq Ht; inversion Heq; subst; clear Heq;
  first
    [ congruence
    | destruct (SaveRouterGroup_range_taken _ _ Ht) as (? & ?);
      first [ congruence
            | match goal with
              | H1 : ?x = Some _, H2 : ?x = Some _ |- _ =>
                  rewrite H1 in H2; inversion H2; subst
              end;
              split; [ eexists; reflexivity | reflexivity ] ] ].

Ltac guard_rename :=
  let Heq := fresh "Heq" in
  let Hf := fresh "Hf" in
  intros ? ? ? ? ? ? _ Heq Hf ? ? ?; inversion Heq; subst; clear Heq;
  first
    [ exfalso; eapply Hf, SaveRouterGroup_range_found; eassumption
    | congruence
    | idtac ].

Lemma SaveRouterGroup_refuses (routerGroup : RouterGroup) (w : W) :
  SaveRouterGroup_contract routerGroup w (SaveRouterGroup routerGroup (w, [])).
Proof.
  unfold SaveRouterGroup_contract.
  destruct (SaveRouterGroup routerGroup (w, [])) as [out [w' tr]] eqn:H.
  cbn [fst snd].
  unfold SaveRouterGroup in H.
  destruct (RouterGroup_Guid routerGroup =? "")%string eqn:Hguid.
  { apply String.eqb_eq in Hguid. inversion H; subst.
    repeat split; try congruence; try (intros; contradiction). }
  apply String.eqb_neq in Hguid.
  pose proof (ReadRouterGroups_trace w []) as Htr.
  destruct (ReadRouterGroups (w, [])) as [o [w1 tr1]] eqn:HR.
  rewrite (run_bind _ _ _ _ _ HR) in H. cbn [fst snd app] in Htr.
  destruct (keysAPI_Get ROUTER_GROUP_BASE_KEY {| Recursive := true |} w)
    as [[response0 err0] w0] eqn:HG0. cbn [fst snd] in Htr. subst tr1.
  destruct o as [[routerGroups err]|why].
  2:{ inversion H; subst.
      repeat split; try congruence; try (intros; contradiction); try discriminate.
      all: try (destruct H0 as [<- | []]; discriminate). }
  run H.
  all: unfold ret in H; inversion H; subst; clear H.
  all: unfold generateRouterGroupKey in *.
  all: repeat match goal with
       | Hb : negb (is_nil ?x) = _ |- _ => destruct x; try discriminate Hb; clear Hb
       | Hb : is_nil ?x = _ |- _ => destruct x; try discriminate Hb; clear Hb
       end.
  all: (split; [ intros; contradiction | ]).
  all: (split; [ solve [guard_taken] | ]).
  all: (split; [ try solve [guard_rename] | ]).
  all: try (intros c Hin Hs;
            repeat (destruct Hin as [<- | Hin]; [discriminate Hs|]);
            solve [destruct Hin]).
  - (* the stored group has another name *)
    intros; split; reflexivity.
  - (* the stored group has the same name: no NonUpdatableField *)
    intros gs wa tra resp wb current _ Heq _ HG Hu Hn.
    inversion Heq; subst; clear Heq. exfalso.
    match goal with
    | Hb : negb (_ =? _)%string = false |- _ =>
        apply negb_false_iff, String.eqb_eq in Hb
    end.
    congruence.
  - (* written after the stored group was read, with the same name *)
    intros c Hin Hs.
    destruct Hin as [<- | [<- | [<- | []]]]; try discriminate Hs.
    split; [exact Hguid|]. split.
    { do 3 eexists. split; [reflexivity|].
      split; [eapply SaveRouterGroup_range_free; eassumption|].
      right.
      match goal with
      | Hp : keysAPI_Get _ _ _ = (Some ?r, None, _),
        Hu : json_Unmarshal _ = inr ?cur,
        Hb : negb (_ =? _)%string = false |- _ =>
          exists r, cur; rewrite Hp; cbn [fst];
          apply negb_false_iff, String.eqb_eq in Hb;
          repeat split; congruence
      end. }
    repeat split. eexists; reflexivity.
  - (* written after the read of the group's key failed *)
    intros c Hin Hs.
    destruct Hin as [<- | [<- | [<- | []]]]; try discriminate Hs.
    split; [exact Hguid|]. split.
    { do 3 eexists. split; [reflexivity|].
      split; [eapply SaveRouterGroup_range_free; eassumption|].
      left.
      match goal with
      | Hp : keysAPI_Get _ _ _ = (_, Some _, _) |- _ =>
          rewrite Hp; cbn [fst snd]; discriminate
      end. }
    repeat split. eexists; reflexivity.
Qed.

Lemma SaveRouterGroup_writes (routerGroup : RouterGroup) (w : W) :
  SaveRouterGroup_stores routerGroup w (SaveRouterGroup routerGroup (w, [])).
Proof.
  unfold SaveRouterGroup_stores. cbv zeta. intros Hguid.
  apply String.eqb_neq in Hguid.
  unfold SaveRouterGroup. rewrite Hguid.
  split.
  - intros routerGroups e s1 HR.
    rewrite (run_bind _ _ _ _ _ HR). reflexivity.
  - intros routerGroups w1 tr1 HR Hfree.
    rewrite (run_bind _ _ _ _ _ HR). cbn [is_nil negb].
    destruct (SaveRouterGroup_range routerGroups routerGroup) as [e|] eqn:Hrange.
    { exfalso. eapply Hfree, SaveRouterGroup_range_found; eassumption. }
    unfold generateRouterGroupKey.
    rewrite bind_Get. cbn [fst snd].
    destruct (keysAPI_Get _ _ w1) as [[response err] w2] eqn:HG. cbn [fst snd].
    split; [|split].
    + intros resp e [= -> ->] Hu. cbn [is_nil].
      rewrite bind_deref, Hu. reflexivity.
    + intros Herr. destruct err as [e|]; [|congruence]. cbn [is_nil].
      rewrite bind_Set. cbn [fst snd].
      destruct (keysAPI_Set _ _ _ w2) as [[r e'] w3]. cbn [fst snd].
      rewrite <- app_assoc. reflexivity.
    + intros resp current [= -> ->] Hu Hname. cbn [is_nil].
      rewrite bind_deref, Hu.
      rewrite Hname, String.eqb_refl. cbn [negb].
      rewrite bind_Set. cbn [fst snd].
      destruct (keysAPI_Set _ _ _ w2) as [[r e'] w3]. cbn [fst snd].
      rewrite <- app_assoc. reflexivity.
Qed.

(** X1: the guards of SaveRouterGroup, as the code has them.  It returns
    an error, and writes nothing, when the group has no guid, when the
    listing of the groups fails, when another listed group (a different
    guid) already has the name (UniqueField), and when the read of the
    group's own key succeeds and the group stored there cannot be decoded
    or has another name (NonUpdatableField).  A Set is made only otherwise,
    once, as the last call, with the group's key and JSON, and its error is
    the result: the names listed are free, and the read of the group's key
    either failed or gave the same name. *)
Theorem SaveRouterGroup_guards_names (routerGroup : RouterGroup) (w : W) :
  SaveRouterGroup_contract routerGroup w (SaveRouterGroup routerGroup (w, []))
  /\ SaveRouterGroup_stores routerGroup w (SaveRouterGroup routerGroup (w, [])).
Proof.
  split; [apply SaveRouterGroup_refuses | apply SaveRouterGroup_writes].
Qed.

End db_theorems.

(** ** db on the scripted KeysAPI *)

Section db_examples.
Import db fakes.

(** Four lost races: four reads, four writes, ErrorConflict. *)
Example SaveRoute_contended :
  let res := SaveRoute (fun s => s) 5 route1 (contended, []) in
  fst res = Ret (Some ErrorConflict)
  /\ count is_Get (snd (snd res)) = 4%nat
  /\ count is_Set (snd (snd res)) = 4%nat
  /\ count cas_failed (snd (snd res)) = 4%nat.
Proof. vm_compute. repeat split. Qed.

(** A lost race, then the key is gone: ErrorConflict, without a create. *)
Example SaveRoute_deleted_in_between :
  let res := SaveRoute (fun s => s) 5 route1 (deleted_in_between, []) in
  fst res = Ret (Some ErrorConflict)
  /\ count is_Get (snd (snd res)) = 2%nat
  /\ count is_Set (snd (snd res)) = 1%nat.
Proof. vm_compute. repeat split. Qed.

(** Another error of etcd comes back as it is, after one attempt. *)
Example SaveTcpRouteMapping_unavailable :
  let res := SaveTcpRouteMapping 5 tcpMapping1 (unavailable, []) in
  fst res = Ret (Some (foreign_error "client: etcd cluster is unavailable"))
  /\ count is_Get (snd (snd res)) = 1%nat
  /\ count is_Set (snd (snd res)) = 1%nat.
Proof. vm_compute. repeat split. Qed.

Lemma Save_retries_witness :
  let a := SaveRoute (fun s => s) 5 route1 (contended, []) in
  let b := SaveTcpRouteMapping 5 tcpMapping1 (contended, []) in
  (save_contract a /\ save_stops a /\ save_run 0 (snd (snd a)) (fst a))
  /\ (save_contract b /\ save_stops b /\ save_run 0 (snd (snd b)) (fst b)).
Proof.
  apply (Save_retries_only_on_compare_and_swap_failure
           (fun s => s) 5 route1 tcpMapping1 contended).
  unfold maxRetries. lia.
Defined.

(** Runs that no save function makes: nil after a compare-and-swap failure
    that was not retried; a create after a lost race; a write after a Get
    that failed for another reason. *)
Example save_run_retries_after_a_lost_race
  (k v : string) (o : GetOptions) (so : SetOptions) (resp : Response)
  (r : option Response) (m : string) :
  ~ save_run 0 [CallGet k o (Some resp) None;
                CallSet k v so r (Some (client_Error ErrorCodeTestFailed m))]
             (Ret None).
Proof.
  cbn [save_run]. cbv zeta. unfold after_call. cbn [is_client_Error].
  rewrite Z.eqb_refl. unfold maxRetries. intros [_ [H _]]. lia.
Qed.

Example save_run_does_not_create_after_a_lost_race
  (k v : string) (o : GetOptions) (so so' : SetOptions) (resp : Response)
  (r r' : option Response) (m m' : string) (out : outcome (option error)) :
  ~ save_run 0 [CallGet k o (Some resp) None;
                CallSet k v so r (Some (client_Error ErrorCodeTestFailed m));
                CallGet k o None (Some (client_Error ErrorCodeKeyNotFound m'));
                CallSet k v so' r' None]
             out.
Proof.
  cbn [save_run]. cbv zeta. unfold after_call. cbn [is_client_Error].
  rewrite !Z.eqb_refl. cbn [Nat.ltb Nat.leb]. intros (_ & _ & H & _).
  discriminate H.
Qed.

Example save_run_does_not_write_after_a_failed_read
  (k v : string) (o : GetOptions) (so : SetOptions)
  (r : option Response) (text : string) (out : outcome (option error)) :
  ~ save_run 0 [CallGet k o None (Some (foreign_error text));
                CallSet k v so r None]
             out.
Proof.
  cbn [save_run]. cbv zeta. unfold after_call. cbn [is_client_Error].
  intros (_ & H & _). discriminate H.
Qed.

End db_examples.

Section router_group_examples.
Import db fakes.

(** A new group goes in with one write. *)
Example SaveRouterGroup_stores_a_new_group :
  let res := SaveRouterGroup default_tcp (holds_no_group, []) in
  fst res = Ret None
  /\ count is_Get (snd (snd res)) = 2%nat
  /\ count is_Set (snd (snd res)) = 1%nat.
Proof. vm_compute. repeat split. Qed.

(** The name belongs to another guid: UniqueField, and no write. *)
Example SaveRouterGroup_name_in_use :
  let res := SaveRouterGroup renamed_tcp (holds_another_group, []) in
  fst res = Ret (Some (DBError UniqueField
                  "The RouterGroup with name: other-tcp already exists"))
  /\ count is_Get (snd (snd res)) = 1%nat
  /\ count is_Set (snd (snd res)) = 0%nat.
Proof. vm_compute. repeat split. Qed.

(** The stored group has another name: NonUpdatableField, and no write. *)
Example SaveRouterGroup_rename_refused :
  let res := SaveRouterGroup renamed_tcp (holds_default_tcp, []) in
  fst res = Ret (Some (DBError NonUpdatableField
                  "The RouterGroup Name cannot be updated"))
  /\ count is_Get (snd (snd res)) = 2%nat
  /\ count is_Set (snd (snd res)) = 0%nat.
Proof. vm_compute. repeat split. Qed.

(** A missing guid: an error before etcd is asked anything. *)
Example SaveRouterGroup_missing_guid :
  SaveRouterGroup zero_RouterGroup (holds_default_tcp, [])
  = (Ret (Some (errors_New "Invalid router group: missing guid")),
     (holds_default_tcp, [])).
Proof. reflexivity. Qed.

(** C9: SaveRouterGroup is to refuse, with NonUpdatableField and without
    writing, a write that would change the name of an existing group with
    the same guid.  Here etcd holds the group guid-1 under the name
    default-tcp, and ReadRouterGroups lists it; the read of the group's own
    key then fails (the cluster cannot be reached), SaveRouterGroup skips
    the comparison of the names and goes on to the write, and the group is
    stored under the name other-tcp with no error returned.
    ReadRouterGroup, which reads the same key, tells a missing key from
    the other errors and returns those; SaveRouterGroup does not. *)
Lemma SaveRouterGroup_renames_after_failed_read :
  let res := SaveRouterGroup renamed_tcp (read_of_key_fails, []) in
  fst (ReadRouterGroups (read_of_key_fails, [])) = Ret ([default_tcp], None)
  /\ RouterGroup_Guid default_tcp = RouterGroup_Guid renamed_tcp
  /\ RouterGroup_Name default_tcp <> RouterGroup_Name renamed_tcp
  /\ fst res = Ret None
  /\ last_call (snd (snd res))
     = Some (CallSet "/v1/router_groups/guid-1" "guid-1=other-tcp"
               {| SetOptions_TTL := 0; SetOptions_PrevExist := "";
                  SetOptions_PrevIndex := 0 |}
               (stored "guid-1=other-tcp" 2) None)
  /\ count is_Set (snd (snd res)) = 1%nat
  /\ ~ renames_are_refused (W := FakeKeysAPI).
Proof.
  cbv zeta.
  split; [reflexivity|].
  split; [reflexivity|].
  split; [discriminate|].
  split; [reflexivity|].
  split; [reflexivity|].
  split; [reflexivity|].
  intros H.
  destruct (H read_of_key_fails renamed_tcp default_tcp [default_tcp]
              (snd (ReadRouterGroups (read_of_key_fails, []))))
    as [Hset _].
  - reflexivity.
  - left; reflexivity.
  - reflexivity.
  - discriminate.
  - vm_compute in Hset. discriminate.
Qed.

End router_group_examples.

(** ** The configuration loaders *)

Section loader_theorems.

Lemma helpers_loadConfigJsonFromPath_env
  (json_Decode : string -> error + helpers.RoutingConfig) (env : Env) :
  snd (helpers.loadConfigJsonFromPath json_Decode env) = env.
Proof.
  unfold helpers.loadConfigJsonFromPath, helpers.configPath, bind, Getenv, Open,
    panic, abort_with, ret; cbn.
  destruct (os_Getenv env "CONFIG" =? "")%string; cbn; [reflexivity|].
  destruct (os_Open env (os_Getenv env "CONFIG")) as [e|f]; cbn; [reflexivity|].
  destruct (json_Decode f); reflexivity.
Qed.

Lemma router_helpers_loadConfigJsonFromPath_env
  (json_Decode : string -> error + router_helpers.RouterApiConfig) (env : Env) :
  snd (router_helpers.loadConfigJsonFromPath json_Decode env) = env.
Proof.
  unfold router_helpers.loadConfigJsonFromPath, router_helpers.configPath, bind,
    Getenv, Open, panic, abort_with, ret; cbn.
  destruct (os_Getenv env "ROUTER_API_CONFIG" =? "")%string; cbn; [reflexivity|].
  destruct (os_Open env (os_Getenv env "ROUTER_API_CONFIG")) as [e|f]; cbn;
    [reflexivity|].
  destruct (json_Decode f); reflexivity.
Qed.

Lemma run_bind_fst {S A B : Type} (m : M S A) (k : A -> M S B) (s : S) (a : A) :
  fst (m s) = Ret a -> bind m k s = k a (snd (m s)).
Proof. unfold bind. destruct (m s) as [o s']; cbn. intros ->; reflexivity. Qed.

(** What helpers.LoadConfig does with a configuration that was loaded. *)
Lemma helpers_LoadConfig_loaded
  (json_Decode : string -> error + helpers.RoutingConfig)
  (config_LoadConfig : M Env (option helpers.Config))
  (env : Env) (c : helpers.RoutingConfig) (cfg : helpers.Config) :
  fst (helpers.loadConfigJsonFromPath json_Decode env) = Ret c ->
  fst (config_LoadConfig env) = Ret (Some cfg) ->
  fst (helpers.LoadConfig json_Decode config_LoadConfig env) =
  if is_nil (helpers.OAuth c) then Abort (Panic "missing configuration oauth")
  else if (List.length (helpers.Addresses c) =? 0)%nat
  then Abort (Panic "missing configuration 'addresses'")
  else if (helpers.AppsDomain cfg =? "")%string
  then Abort (Panic "missing configuration apps_domain")
  else if (helpers.ApiEndpoint cfg =? "")%string
  then Abort (Panic "missing configuration api")
  else Ret (helpers.with_RoutingApiUrl (helpers.with_Config c (Some cfg))
              ("https://" ++ helpers.ApiEndpoint cfg)).
Proof.
  intros Hc Hcfg. unfold helpers.LoadConfig.
  rewrite (run_bind_fst _ _ _ _ Hc), helpers_loadConfigJsonFromPath_env.
  rewrite (run_bind_fst _ _ _ _ Hcfg).
  cbn [helpers.with_Config helpers.OAuth helpers.Addresses helpers.Config_].
  destruct (is_nil (helpers.OAuth c)); [reflexivity|].
  destruct (List.length (helpers.Addresses c) =? 0)%nat; [reflexivity|].
  rewrite bind_deref.
  destruct (helpers.AppsDomain cfg =? "")%string; [reflexivity|].
  rewrite bind_deref.
  destruct (helpers.ApiEndpoint cfg =? "")%string; [reflexivity|].
  rewrite bind_deref. reflexivity.
Qed.

Lemma router_helpers_LoadConfig_loaded
  (json_Decode : string -> error + router_helpers.RouterApiConfig)
  (env : Env) (c : router_helpers.RouterApiConfig) :
  fst (router_helpers.loadConfigJsonFromPath json_Decode env) = Ret c ->
  fst (router_helpers.LoadConfig json_Decode env) =
  if (router_helpers.Address c =? "")%string
  then Abort (Panic "missing configuration 'address'")
  else if router_helpers.Port c =? 0
  then Abort (Panic "missing configuration 'port'")
  else Ret (if (router_helpers.BBSAddress c =? "")%string
            then router_helpers.with_BBSAddress c router_helpers.DEFAULT_BBS_API_URL
            else c).
Proof.
  intros Hc. unfold router_helpers.LoadConfig.
  rewrite (run_bind_fst _ _ _ _ Hc).
  destruct (router_helpers.Address c =? "")%string; [reflexivity|].
  destruct (router_helpers.Port c =? 0); reflexivity.
Qed.

Lemma length_zero_nil {A : Type} (l : list A) :
  (List.length l =? 0)%nat = true <-> l = [].
Proof. destruct l; cbn; split; congruence. Qed.

Lemma helpers_LoadConfig_once_loaded
  (json_Decode : string -> error + helpers.RoutingConfig)
  (config_LoadConfig : M Env (option helpers.Config))
  (env : Env) (c : helpers.RoutingConfig) (cfg : helpers.Config) :
  fst (helpers.loadConfigJsonFromPath json_Decode env) = Ret c ->
  fst (config_LoadConfig env) = Ret (Some cfg) ->
  ((exists msg, fst (helpers.LoadConfig json_Decode config_LoadConfig env)
                = Abort (Panic msg))
   <-> helpers.missing_field c cfg)
  /\ (~ helpers.missing_field c cfg ->
      fst (helpers.LoadConfig json_Decode config_LoadConfig env) =
      Ret (helpers.with_RoutingApiUrl (helpers.with_Config c (Some cfg))
             ("https://" ++ helpers.ApiEndpoint cfg))).
Proof.
  intros Hc Hcfg.
  rewrite (helpers_LoadConfig_loaded _ _ _ _ _ Hc Hcfg).
  unfold helpers.missing_field.
  destruct (helpers.OAuth c) as [o|] eqn:Ho; cbn [is_nil].
  2:{ split; [split; eauto | tauto]. }
  destruct (List.length (helpers.Addresses c) =? 0)%nat eqn:Ha.
  { apply length_zero_nil in Ha. split; [split; eauto | tauto]. }
  assert (Ha' : helpers.Addresses c <> [])
    by (intros E; apply length_zero_nil in E; congruence).
  destruct (helpers.AppsDomain cfg =? "")%string eqn:Hd.
  { apply String.eqb_eq in Hd. split; [split; eauto | tauto]. }
  apply String.eqb_neq in Hd.
  destruct (helpers.ApiEndpoint cfg =? "")%string eqn:He.
  { apply String.eqb_eq in He. split; [split; eauto 6 | tauto]. }
  apply String.eqb_neq in He.
  split; [ | reflexivity ].
  split.
  - intros (msg & E); discriminate E.
  - intros [E | [E | [E | E]]]; congruence.
Qed.

Lemma router_helpers_LoadConfig_once_loaded
  (json_Decode : string -> error + router_helpers.RouterApiConfig)
  (env : Env) (c : router_helpers.RouterApiConfig) :
  fst (router_helpers.loadConfigJsonFromPath json_Decode env) = Ret c ->
  ((exists msg, fst (router_helpers.LoadConfig json_Decode env)
                = Abort (Panic msg))
   <-> router_helpers.missing_field c)
  /\ (~ router_helpers.missing_field c ->
      exists loaded,
        fst (router_helpers.LoadConfig json_Decode env) = Ret loaded
        /\ router_helpers.Address loaded = router_helpers.Address c
        /\ router_helpers.Port loaded = router_helpers.Port c
        /\ router_helpers.BBSAddress loaded =
           if (router_helpers.BBSAddress c =? "")%string
           then router_helpers.DEFAULT_BBS_API_URL
           else router_helpers.BBSAddress c).
Proof.
  intros Hc.
  rewrite (router_helpers_LoadConfig_loaded _ _ _ Hc).
  unfold router_helpers.missing_field.
  destruct (router_helpers.Address c =? "")%string eqn:Ha.
  { apply String.eqb_eq in Ha. split; [split; eauto | tauto]. }
  apply String.eqb_neq in Ha.
  destruct (router_helpers.Port c =? 0) eqn:Hp.
  { apply Z.eqb_eq in Hp. split; [split; eauto | tauto]. }
  apply Z.eqb_neq in Hp.
  split.
  - split.
    + intros (msg & E); discriminate E.
    + intros [E | E]; congruence.
  - intros _. eexists. split; [reflexivity|].
    destruct (router_helpers.BBSAddress c =? "")%string; cbn; auto.
Qed.

Lemma helpers_LoadConfig_not_loaded
  (json_Decode : string -> error + helpers.RoutingConfig)
  (config_LoadConfig : M Env (option helpers.Config)) (env : Env) :
  helpers.not_loaded json_Decode env ->
  exists msg, fst (helpers.LoadConfig json_Decode config_LoadConfig env)
              = Abort (Panic msg).
Proof.
  unfold helpers.not_loaded, helpers.LoadConfig, helpers.loadConfigJsonFromPath,
    helpers.configPath, bind, Getenv, Open, panic, abort_with, ret; cbn.
  intros [H | [(err & H) | (f & err & H & Hd)]].
  - rewrite H. cbn. eexists; reflexivity.
  - destruct (os_Getenv env "CONFIG" =? "")%string; cbn; [eexists; reflexivity|].
    rewrite H. cbn. eexists; reflexivity.
  - destruct (os_Getenv env "CONFIG" =? "")%string; cbn; [eexists; reflexivity|].
    rewrite H. cbn. rewrite Hd. cbn. eexists; reflexivity.
Qed.

Lemma router_helpers_LoadConfig_not_loaded
  (json_Decode : string -> error + router_helpers.RouterApiConfig) (env : Env) :
  router_helpers.not_loaded json_Decode env ->
  exists msg, fst (router_helpers.LoadConfig json_Decode env) = Abort (Panic msg).
Proof.
  unfold router_helpers.not_loaded, router_helpers.LoadConfig,
    router_helpers.loadConfigJsonFromPath, router_helpers.configPath, bind,
    Getenv, Open, panic, abort_with, ret; cbn.
  intros [H | [(err & H) | (f & err & H & Hd)]].
  - rewrite H. cbn. eexists; reflexivity.
  - destruct (os_Getenv env "ROUTER_API_CONFIG" =? "")%string; cbn;
      [eexists; reflexivity|].
    rewrite H. cbn. eexists; reflexivity.
  - destruct (os_Getenv env "ROUTER_API_CONFIG" =? "")%string; cbn;
      [eexists; reflexivity|].
    rewrite H. cbn. rewrite Hd. cbn. eexists; reflexivity.
Qed.

(** C2, as amended: once the configuration file named by the environment
    has been opened and decoded (and cf-test-helpers' loader has given its
    configuration), helpers.LoadConfig panics exactly when the oauth
    section is nil, the addresses list is empty, apps_domain is empty or
    api is empty, and otherwise returns the configuration with its
    RoutingApiUrl set; the RouterApiConfig loader panics exactly when
    address is empty or port is zero, and otherwise returns the
    configuration with the BBS address defaulted.  Either loader panics as
    well in every environment where its variable is unset or its file
    cannot be opened or decoded. *)
Theorem LoadConfig_panics_on_missing_field_once_loaded
  (json_Decode : string -> error + helpers.RoutingConfig)
  (config_LoadConfig : M Env (option helpers.Config))
  (json_Decode' : string -> error + router_helpers.RouterApiConfig)
  (env : Env) (c : helpers.RoutingConfig) (cfg : helpers.Config)
  (c' : router_helpers.RouterApiConfig) :
  fst (helpers.loadConfigJsonFromPath json_Decode env) = Ret c ->
  fst (config_LoadConfig env) = Ret (Some cfg) ->
  fst (router_helpers.loadConfigJsonFromPath json_Decode' env) = Ret c' ->
  ((exists msg, fst (helpers.LoadConfig json_Decode config_LoadConfig env)
                = Abort (Panic msg))
   <-> helpers.missing_field c cfg)
  /\ (~ helpers.missing_field c cfg ->
      fst (helpers.LoadConfig json_Decode config_LoadConfig env) =
      Ret (helpers.with_RoutingApiUrl (helpers.with_Config c (Some cfg))
             ("https://" ++ helpers.ApiEndpoint cfg)))
  /\ ((exists msg, fst (router_helpers.LoadConfig json_Decode' env)
                   = Abort (Panic msg))
      <-> router_helpers.missing_field c')
  /\ (~ router_helpers.missing_field c' ->
      exists loaded,
        fst (router_helpers.LoadConfig json_Decode' env) = Ret loaded
        /\ router_helpers.Address loaded = router_helpers.Address c'
        /\ router_helpers.Port loaded = router_helpers.Port c'
        /\ router_helpers.BBSAddress loaded =
           if (router_helpers.BBSAddress c' =? "")%string
           then router_helpers.DEFAULT_BBS_API_URL
           else router_helpers.BBSAddress c')
  /\ (forall env0 : Env,
        helpers.not_loaded json_Decode env0 ->
        exists msg, fst (helpers.LoadConfig json_Decode config_LoadConfig env0)
                    = Abort (Panic msg))
  /\ (forall env0 : Env,
        router_helpers.not_loaded json_Decode' env0 ->
        exists msg, fst (router_helpers.LoadConfig json_Decode' env0)
                    = Abort (Panic msg)).
Proof.
  intros Hc Hcfg Hc'.
  destruct (helpers_LoadConfig_once_loaded _ _ _ _ _ Hc Hcfg) as [H1 H2].
  destruct (router_helpers_LoadConfig_once_loaded _ _ _ Hc') as [H3 H4].
  split; [exact H1|]. split; [exact H2|]. split; [exact H3|]. split; [exact H4|].
  split.
  - intros env0. apply helpers_LoadConfig_not_loaded.
  - intros env0. apply router_helpers_LoadConfig_not_loaded.
Qed.

(** The claim of C2 as worded fails: with $CONFIG (or $ROUTER_API_CONFIG)
    unset, either loader panics before any field is looked at, and no
    configuration is loaded whose field could be missing. *)
Lemma LoadConfig_panics_without_a_configuration :
  fst (helpers.LoadConfig fakes.reject_all fakes.cf_LoadConfig_unset
         fakes.no_environment)
  = Abort (Panic "Must set $CONFIG to point to an integration config .json file.")
  /\ fst (router_helpers.LoadConfig fakes.reject_all fakes.no_environment)
     = Abort (Panic "Must set $ROUTER_API_CONFIG to point to an integration config .json file.")
  /\ ~ helpers.panics_exactly_on_missing_field fakes.reject_all fakes.cf_LoadConfig_unset
  /\ ~ router_helpers.panics_exactly_on_missing_field fakes.reject_all.
Proof.
  split; [reflexivity|]. split; [reflexivity|].
  split.
  - intros H. destruct (H fakes.no_environment) as [H1 _].
    destruct H1 as (c & cfg & Hc & _).
    + eexists; reflexivity.
    + discriminate Hc.
  - intros H. destruct (H fakes.no_environment) as [H1 _].
    destruct H1 as (c & Hc & _).
    + eexists; reflexivity.
    + discriminate Hc.
Qed.

Lemma LoadConfig_panics_on_missing_field_witness :
  ((exists msg,
       fst (helpers.LoadConfig (fun _ => inr fakes.sample_RoutingConfig)
              fakes.cf_LoadConfig_sample fakes.configured) = Abort (Panic msg))
   <-> helpers.missing_field fakes.sample_RoutingConfig fakes.sample_cf_Config)
  /\ (~ helpers.missing_field fakes.sample_RoutingConfig fakes.sample_cf_Config ->
      fst (helpers.LoadConfig (fun _ => inr fakes.sample_RoutingConfig)
             fakes.cf_LoadConfig_sample fakes.configured) =
      Ret (helpers.with_RoutingApiUrl
             (helpers.with_Config fakes.sample_RoutingConfig
                (Some fakes.sample_cf_Config))
             "https://api.bosh-lite.com"))
  /\ ((exists msg,
          fst (router_helpers.LoadConfig (fun _ => inr fakes.sample_RouterApiConfig)
                 fakes.configured) = Abort (Panic msg))
      <-> router_helpers.missing_field fakes.sample_RouterApiConfig)
  /\ (~ router_helpers.missing_field fakes.sample_RouterApiConfig ->
      exists loaded,
        fst (router_helpers.LoadConfig (fun _ => inr fakes.sample_RouterApiConfig)
               fakes.configured) = Ret loaded
        /\ router_helpers.Address loaded = "10.244.8.2"
        /\ router_helpers.Port loaded = 9999
        /\ router_helpers.BBSAddress loaded = router_helpers.DEFAULT_BBS_API_URL)
  /\ (forall env0 : Env,
        helpers.not_loaded (fun _ => inr fakes.sample_RoutingConfig) env0 ->
        exists msg,
          fst (helpers.LoadConfig (fun _ => inr fakes.sample_RoutingConfig)
                 fakes.cf_LoadConfig_sample env0) = Abort (Panic msg))
  /\ (forall env0 : Env,
        router_helpers.not_loaded (fun _ => inr fakes.sample_RouterApiConfig) env0 ->
        exists msg,
          fst (router_helpers.LoadConfig
                 (fun _ => inr fakes.sample_RouterApiConfig) env0)
          = Abort (Panic msg)).
Proof.
  exact (LoadConfig_panics_on_missing_field_once_loaded
           (fun _ => inr fakes.sample_RoutingConfig) fakes.cf_LoadConfig_sample
           (fun _ => inr fakes.sample_RouterApiConfig) fakes.configured
           fakes.sample_RoutingConfig fakes.sample_cf_Config
           fakes.sample_RouterApiConfig eq_refl eq_refl eq_refl).
Defined.

End loader_theorems.

(** ** Package router *)

Section router_theorems.
Import router.
Context {W : Type} {net : Net W}.
Variable externalIP : string.
Variable routerApiConfig : router_helpers.RouterApiConfig.
Variable node : Z.
Variable json_Marshal : list MappingRequest -> string * option error.

Lemma bind_call {A B : Type} (f : W -> A * W) (ev : A -> Event)
  (k : A -> M St B) (w : W) (tr : list Event) :
  bind (call f ev) k (w, tr) =
  k (fst (f w)) (snd (f w), (tr ++ [ev (fst (f w))])%list).
Proof. unfold bind, call; cbn. destruct (f w); reflexivity. Qed.

Lemma run_call {A : Type} (f : W -> A * W) (ev : A -> Event)
  (w : W) (tr : list Event) :
  call f ev (w, tr) = (Ret (fst (f w)), (snd (f w), (tr ++ [ev (fst (f w))])%list)).
Proof. unfold call; cbn. destruct (f w); reflexivity. Qed.

Lemma run_send_empty (err : option error) (w : W) (tr : list Event) :
  send [] err (w, tr) = (Ret [err], (w, (tr ++ [Send err])%list)).
Proof. reflexivity. Qed.

Lemma bind_conn_Read_into {B : Type} (conn : Conn) (buff : string)
  (k : string * option error -> M St B) (w : W) (tr : list Event) :
  bind (conn_Read_into conn buff) k (w, tr) =
  k (copy buff (fst (fst (conn_Read conn (String.length buff) w))),
     snd (fst (conn_Read conn (String.length buff) w)))
    (snd (conn_Read conn (String.length buff) w),
     (tr ++ [Read conn (String.length buff)
               (fst (fst (conn_Read conn (String.length buff) w)))
               (snd (fst (conn_Read conn (String.length buff) w)))])%list).
Proof.
  unfold conn_Read_into. rewrite bind_bind, bind_call.
  destruct (conn_Read conn (String.length buff) w) as [[data err] w']; reflexivity.
Qed.

Lemma length_zeros (n : nat) : String.length (zeros n) = n.
Proof. induction n as [|n IH]; cbn; [reflexivity | now rewrite IH]. Qed.

#[local] Hint Rewrite @bind_call @bind_conn_Read_into @run_send_empty @run_call : go_calls.

Ltac in_cases :=
  repeat match goal with
  | H : In _ (_ :: _) |- _ =>
      destruct H as [H | H];
      [ try discriminate H; inversion H; subst; clear H | ]
  | H : In _ [] |- _ => destruct H
  end.

Ltac nil_cases :=
  repeat match goal with
  | Hb : negb (is_nil ?x) = _ |- _ =>
      first [ is_var x; destruct x; try discriminate Hb; clear Hb
            | try discriminate Hb; clear Hb ]
  | Hb : is_nil ?x = _ |- _ =>
      first [ is_var x; destruct x; try discriminate Hb; clear Hb
            | try discriminate Hb; clear Hb ]
  | Hb : negb (_ =? _)%string = true |- _ =>
      apply negb_true_iff, String.eqb_neq in Hb
  | Hb : negb (_ =? _)%string = false |- _ =>
      apply negb_false_iff, String.eqb_eq in Hb
  end.

(** C5: checkConnection is the TCP echo oracle.  Every run makes one
    attempt and reports one value on its channel.  What it writes is
    "Time is <n>"; it reports a nil error only when the bytes read back are
    exactly the server id, a colon and that message (and the connection
    then closed without error); the error of the dial, of the write or of
    the read, and the mismatch, are reported instead. *)
Theorem checkConnection_reports_the_echo (address serverId : string) (w : W) :
  checkConnection_contract address serverId
    (checkConnection [] address serverId (w, [])).
Proof.
  unfold checkConnection_contract.
  destruct (checkConnection [] address serverId (w, [])) as [out [w' tr]] eqn:H.
  cbn [fst snd]. unfold checkConnection in H.
  run H.
  all: cbn [app] in H; inversion H; subst; clear H.
  all: nil_cases.
  all: rewrite ?length_zeros in *.
  all: try match goal with
       | |- context [Close _ ?o] => is_var o; destruct o
       end.
  all: eexists; split; [reflexivity|]; split; [reflexivity|]; split; [reflexivity|].
  all: unfold message_at, echo_of in *.
  all: (split; [ split | ]).
  all: try solve [ discriminate
                 | intros _; reflexivity
                 | intros (conn' & n' & data' & E & _); discriminate E
                 | intros _; do 3 eexists; split; [reflexivity | eassumption] ].
  all: repeat split; intros; in_cases; try reflexivity; try congruence;
       try (eexists; split; [right; left; reflexivity | reflexivity]).
  all: match goal with
       | Hn : _ <> _, He : copy _ _ = _ |- _ => elim Hn; exact He
       end.
Qed.

(** *** verifyConnection *)

Lemma sent_app (a b : list Event) : sent (a ++ b) = (sent a ++ sent b)%list.
Proof. unfold sent. apply flat_map_app. Qed.

Lemma attempts_app (a b : list Event) :
  attempts (a ++ b) = (attempts a + attempts b)%nat.
Proof. unfold attempts. rewrite filter_app, length_app. reflexivity. Qed.

Lemma responses_app (a b : list Event) :
  responses (a ++ b) = (responses a ++ responses b)%list.
Proof. unfold responses. apply flat_map_app. Qed.

Lemma posts_app (a b : list Event) : posts (a ++ b) = (posts a ++ posts b)%list.
Proof. unfold posts. apply flat_map_app. Qed.

(** One attempt, from any state: one dial, one value on the channel. *)
Lemma checkConnection_run (address serverId : string) (w : W) (tr : list Event) :
  exists v w' ext,
    checkConnection [] address serverId (w, tr) = (Ret [v], (w', (tr ++ ext)%list))
    /\ sent ext = [v] /\ attempts ext = 1%nat.
Proof.
  destruct (checkConnection [] address serverId (w, tr)) as [out [w' tr']] eqn:H.
  unfold checkConnection in H.
  run H.
  all: inversion H; subst; clear H.
  all: do 3 eexists; split;
    [ rewrite <- ?app_assoc; reflexivity | repeat split ].
Qed.


Lemma verifyConnection_loop_post (address serverId : string) :
  forall (fuel : nat) (i : Z) (v : option error) (w : W) (tr : list Event)
         (out : outcome unit) (w' : W) (tr' : list Event),
    0 <= i <= 10 -> (Z.to_nat (10 - i) < fuel)%nat ->
    verifyConnection_loop fuel address serverId i [v] (w, tr) = (out, (w', tr')) ->
    exists ext errs final,
      tr' = (tr ++ ext)%list
      /\ v :: sent ext = (errs ++ [final])%list
      /\ attempts ext = List.length (sent ext)
      /\ Z.of_nat (List.length errs) <= 10 - i
      /\ Forall (fun v => v <> None) errs
      /\ (final = None -> out = Ret tt)
      /\ (forall e, final = Some e ->
          Z.of_nat (List.length errs) = 10 - i
          /\ out = Abort (not_to_have_occurred e)).
Proof.
  induction fuel as [|fuel IH]; intros i v w tr out w' tr' Hi Hfuel H; [lia|].
  cbn [verifyConnection_loop] in H.
  destruct v as [e|]; cbn [is_nil negb] in H.
  2:{ (* a nil error: break *)
      inversion H; subst; clear H.
      exists [], [], None. rewrite app_nil_r.
      repeat split; try reflexivity; try (cbn [List.length]; lia); try constructor;
        try discriminate. }
  destruct (i <? 10) eqn:Hlt.
  - (* retry *)
    apply Z.ltb_lt in Hlt.
    destruct (checkConnection_run address serverId w tr)
      as (v' & w1 & ext1 & Hc & Hs1 & Ha1).
    rewrite (run_bind _ _ _ _ _ Hc) in H.
    apply IH in H; [ | lia | lia ].
    destruct H as (ext & errs & final & -> & Hs & Ha & Hl & Hf & Hn & He).
    exists (ext1 ++ ext)%list, (Some e :: errs), final.
    rewrite sent_app, attempts_app, length_app, Hs1, Ha1, Ha. cbn [app List.length].
    rewrite Hs.
    split; [rewrite app_assoc; reflexivity|].
    split; [reflexivity|].
    split; [reflexivity|].
    split; [lia|].
    split; [constructor; [discriminate | exact Hf]|].
    split; [exact Hn|].
    intros e' He'. destruct (He e' He') as [Hl' Ho]. split; [lia | exact Ho].
  - (* the eleventh error: the assertion fails *)
    apply Z.ltb_ge in Hlt. assert (i = 10) by lia. subst i.
    cbn in H. inversion H; subst; clear H.
    exists [], [], (Some e). rewrite app_nil_r.
    split; [reflexivity|].
    split; [reflexivity|].
    split; [reflexivity|].
    split; [cbn [List.length]; lia|].
    split; [constructor|].
    split; [discriminate|].
    intros e' [= <-]. split; reflexivity.
Qed.

(** C3: verifyConnection is bounded.  With fuel for its eleven rounds every
    run ends; checkConnection is attempted at most eleven times (once, and
    again after each of at most ten errors); the loop ends when an attempt
    reports a nil error, or when the eleventh attempt reports an error, and
    then the assertion on that error fails the spec. *)
Theorem verifyConnection_is_bounded (fuel : nat) (externalPort : Z)
  (serverId : string) (w : W) :
  (11 <= fuel)%nat ->
  verifyConnection_contract
    (verifyConnection routerApiConfig fuel externalPort serverId (w, [])).
Proof.
  intros Hfuel. unfold verifyConnection_contract, verifyConnection.
  set (address := (router_helpers.Address routerApiConfig ++ ":" ++ itoa externalPort)%string).
  destruct (checkConnection_run address serverId w [])
    as (v & w1 & ext1 & Hc & Hs1 & Ha1).
  rewrite (run_bind _ _ _ _ _ Hc).
  destruct (verifyConnection_loop fuel address serverId 0 [v] (w1, ([] ++ ext1)%list))
    as [out [w' tr']] eqn:H.
  apply verifyConnection_loop_post in H; [ | lia | lia ].
  destruct H as (ext & errs & final & -> & Hs & Ha & Hl & Hf & Hn & He).
  cbn [fst snd app].
  exists errs, final.
  rewrite sent_app, attempts_app, length_app, Hs1, Ha1, Ha.
  cbn [app List.length]. 
  assert (Hlen : S (List.length (sent ext)) = (List.length errs + 1)%nat).
  { change (S (List.length (sent ext))) with (List.length (v :: sent ext)).
    rewrite Hs, length_app. reflexivity. }
  split; [exact Hs|].
  split; [reflexivity|].
  split; [lia|].
  split; [lia|].
  split; [exact Hf|].
  split; [exact Hn|].
  intros e' He'. destruct (He e' He') as [Hl' Ho]. split; [lia | exact Ho].
Qed.


(** *** configureMapping *)

Lemma configureMapping_range_map (backendPorts : list Z) :
  forall backends,
    configureMapping_range externalIP backendPorts backends =
    (backends ++ map (fun backendPort =>
                        {| BackendHostInfo_Address := externalIP;
                           BackendHostInfo_Port := uint16 backendPort |})
                     backendPorts)%list.
Proof.
  induction backendPorts as [|p ps IH]; intros backends; cbn.
  - rewrite app_nil_r; reflexivity.
  - rewrite IH, <- app_assoc. reflexivity.
Qed.

Lemma configureMapping_run (externalPort : Z) (backendPorts : list Z)
  (w : W) (tr : list Event) :
  let request := mapping_requests externalIP externalPort backendPorts in
  exists out w' ext,
    configureMapping externalIP routerApiConfig json_Marshal
      externalPort backendPorts (w, tr) = (out, (w', (tr ++ ext)%list))
    /\ (out = Ret tt \/ exists msg, out = Abort (Fail msg))
    /\ (snd (json_Marshal request) <> None ->
        ext = [] /\ exists msg, out = Abort (Fail msg))
    /\ (snd (json_Marshal request) = None ->
        exists result,
          ext = [Post (external_ports_url routerApiConfig) "application/json"
                      (fst (json_Marshal request)) result]
          /\ (out = Ret tt <->
              exists resp, result = inr resp /\ StatusCode resp = http_StatusOK)).
Proof.
  intros request.
  destruct (configureMapping externalIP routerApiConfig json_Marshal
              externalPort backendPorts (w, tr)) as [out [w' tr']] eqn:H.
  unfold configureMapping in H.
  rewrite configureMapping_range_map in H. cbn [app] in H.
  change [NewMappingRequest (uint16 externalPort)
            (map (fun backendPort =>
                    {| BackendHostInfo_Address := externalIP;
                       BackendHostInfo_Port := uint16 backendPort |})
                 backendPorts)]
    with request in H.
  destruct (json_Marshal request) as [payload err]. cbn [fst snd].
  destruct err as [e|].
  - cbn in H. inversion H; subst; clear H.
    exists (Abort (Fail ("Expected success, but got an error: " ++ Error e))), w', [].
    rewrite app_nil_r.
    split; [reflexivity|]. split; [right; eexists; reflexivity|].
    split; [intros _; split; [reflexivity | eexists; reflexivity]|].
    intros [=].
  - unfold Expect_NotTo_HaveOccurred, Expect_no_error, Expect_Equal in H.
    run H.
    all: inversion H; subst; clear H.
    all: do 3 eexists; split; [reflexivity|].
    all: split; [ first [ left; reflexivity | right; eexists; reflexivity ] | ].
    all: split; [ intros Hc; elim Hc; reflexivity | ].
    all: intros _; eexists; split; [reflexivity|].
    + split; [intros [=] | intros (resp & [=] & _)].
    + split; [intros _ | reflexivity].
      eexists; split; [reflexivity|]. apply Z.eqb_eq; assumption.
    + split; [intros [=] | intros (resp & [= <-] & Hs)].
      apply Z.eqb_eq in Hs. congruence.
Qed.


(** C7: configureMapping builds one MappingRequest, with one backend
    host-info per backend port, posts it once as JSON to the router API's
    /v0/external_ports, and the spec goes on only after a 200 OK: a
    marshalling error, a transport error and any other status fail it. *)
Theorem configureMapping_posts_one_request (externalPort : Z)
  (backendPorts : list Z) (w : W) :
  configureMapping_contract externalIP routerApiConfig json_Marshal
    externalPort backendPorts
    (configureMapping externalIP routerApiConfig json_Marshal
       externalPort backendPorts (w, []))
  /\ List.length (mapping_requests externalIP externalPort backendPorts) = 1%nat
  /\ Forall (fun request =>
               List.length (Backends request) = List.length backendPorts)
            (mapping_requests externalIP externalPort backendPorts).
Proof.
  split.
  - destruct (configureMapping_run externalPort backendPorts w [])
      as (out & w' & ext & -> & H1 & H2 & H3).
    unfold configureMapping_contract. cbn [fst snd app].
    split; [exact H1|]. split; [exact H2|]. exact H3.
  - split; [reflexivity|].
    constructor; [|constructor]. cbn. apply length_map.
Qed.

(** *** The load-balancing spec *)

Lemma Eventually_dials_run (address : string) :
  forall (polls : nat) (w : W) (tr : list Event),
  exists out w' ext,
    Eventually_dials polls address (w, tr) = (out, (w', (tr ++ ext)%list))
    /\ (out = Ret tt \/ exists msg, out = Abort (Fail msg))
    /\ responses ext = [].
Proof.
  induction polls as [|polls IH]; intros w tr.
  - exists (Abort (Fail "Timed out")), w, []. rewrite app_nil_r.
    split; [reflexivity|]. split; [right; eexists; reflexivity | reflexivity].
  - cbn [Eventually_dials]. rewrite bind_call.
    destruct (net_Dial CONN_TYPE address w) as [[e|tmpconn] w1]; cbn [fst snd].
    + destruct (IH w1 (tr ++ [Dial CONN_TYPE address (inl e)])%list)
        as (out & w' & ext & -> & Ho & Hr).
      exists out, w', (Dial CONN_TYPE address (inl e) :: ext).
      split; [rewrite <- app_assoc; reflexivity|].
      split; [exact Ho | exact Hr].
    + rewrite bind_call. unfold ret.
      do 3 eexists. split; [rewrite <- app_assoc; reflexivity|].
      split; [left; reflexivity | reflexivity].
Qed.

Lemma sendAndReceive_run (address : string) (w : W) (tr : list Event) :
  exists out w' ext,
    sendAndReceive address (w, tr) = (out, (w', (tr ++ ext)%list))
    /\ ((exists conn response, out = Ret (conn, response) /\ responses ext = [response])
        \/ ((exists msg, out = Abort (Fail msg)) /\ responses ext = [])).
Proof.
  destruct (sendAndReceive address (w, tr)) as [out [w' tr']] eqn:H.
  unfold sendAndReceive, Expect_no_error, Expect_NotTo_HaveOccurred in H.
  run H.
  all: inversion H; subst; clear H.
  all: do 3 eexists; split; [rewrite <- ?app_assoc; reflexivity|].
  all: first [ left; do 2 eexists; split; reflexivity
             | right; split; [eexists; reflexivity | reflexivity] ].
Qed.

Lemma backends_differ (n : Z) : uint16 (7000 + n) <> uint16 (7500 + n).
Proof.
  unfold uint16. intros H.
  pose proof (Z.div_mod (7000 + n) (2 ^ 16) ltac:(lia)) as H1.
  pose proof (Z.div_mod (7500 + n) (2 ^ 16) ltac:(lia)) as H2.
  rewrite H in H1. change (2 ^ 16) with 65536 in *. lia.
Qed.

(** The spec begins with the mapping: nothing is read before the mapping
    request was posted and answered with 200 OK. *)
Lemma It_load_balances_maps_first (polls : nat) (w : W) :
  let res := It_load_balances_the_connections externalIP routerApiConfig node
               json_Marshal polls (w, []) in
  let request :=
    mapping_requests externalIP (61000 + node) [7000 + node; 7500 + node] in
  responses (snd (snd res)) <> [] ->
  exists resp rest,
    snd (snd res)
    = Post (external_ports_url routerApiConfig) "application/json"
        (fst (json_Marshal request)) (inr resp) :: rest
    /\ StatusCode resp = http_StatusOK.
Proof.
  cbv zeta. unfold It_load_balances_the_connections.
  set (address := (router_helpers.Address routerApiConfig ++ ":" ++ itoa (61000 + node))%string).
  destruct (configureMapping_run (61000 + node) [7000 + node; 7500 + node] w [])
    as (o1 & w1 & ext1 & H1 & Ho1 & Hm1 & Hp1).
  assert (Hr1 : responses ext1 = []).
  { destruct (snd (json_Marshal
       (mapping_requests externalIP (61000 + node) [7000 + node; 7500 + node])))
      as [e|] eqn:E.
    - destruct Hm1 as [-> _]; [discriminate | reflexivity].
    - destruct (Hp1 eq_refl) as (result & -> & _). reflexivity. }
  rewrite (run_bind _ _ _ _ _ H1).
  destruct Ho1 as [-> | (msg & ->)].
  2:{ cbn [fst snd app]. rewrite Hr1. intros Hc; elim Hc; reflexivity. }
  assert (Hpost : exists resp,
             ext1 = [Post (external_ports_url routerApiConfig) "application/json"
                       (fst (json_Marshal
                          (mapping_requests externalIP (61000 + node)
                             [7000 + node; 7500 + node]))) (inr resp)]
             /\ StatusCode resp = http_StatusOK).
  { destruct (snd (json_Marshal
       (mapping_requests externalIP (61000 + node) [7000 + node; 7500 + node])))
      as [e|] eqn:E.
    - destruct Hm1 as [_ (msg & Hc)]; [discriminate | discriminate Hc].
    - destruct (Hp1 eq_refl) as (result & -> & Hok).
      destruct Hok as [Hok _]. destruct (Hok eq_refl) as (resp & -> & Hs).
      exists resp. split; [reflexivity | exact Hs]. }
  destruct Hpost as (resp & -> & Hs).
  intros _. exists resp.
  match goal with
  | |- exists rest, snd (snd (?k (?w, ([] ++ [?p])%list))) = _ /\ _ =>
      cut (exists rest, snd (snd (k (w, ([] ++ [p])%list))) = (([] ++ [p]) ++ rest)%list)
  end.
  { intros (rest & ->). exists rest. split; [reflexivity | exact Hs]. }
  destruct (Eventually_dials_run address polls w1
              ([] ++ [Post (external_ports_url routerApiConfig) "application/json"
                        (fst (json_Marshal
                           (mapping_requests externalIP (61000 + node)
                              [7000 + node; 7500 + node]))) (inr resp)])%list)
    as (o2 & w2 & ext2 & H2 & Ho2 & Hr2).
  set (tr1 := ([] ++ [Post (external_ports_url routerApiConfig) "application/json"
                        (fst (json_Marshal
                           (mapping_requests externalIP (61000 + node)
                              [7000 + node; 7500 + node]))) (inr resp)])%list) in *.
  rewrite (run_bind _ _ _ _ _ H2).
  destruct Ho2 as [-> | (msg & ->)]; [|eexists; reflexivity].
  destruct (sendAndReceive_run address w2 (tr1 ++ ext2)%list)
    as (o3 & w3 & ext3 & H3 & Ho3).
  rewrite (run_bind _ _ _ _ _ H3).
  destruct Ho3 as [(conn1 & response1 & -> & Hr3) | ((msg & ->) & Hr3)];
    [|eexists; cbn [snd]; rewrite <- !app_assoc; reflexivity].
  cbv beta iota.
  destruct (sendAndReceive_run address w3 ((tr1 ++ ext2) ++ ext3)%list)
    as (o4 & w4 & ext4 & H4 & Ho4).
  rewrite (run_bind _ _ _ _ _ H4).
  destruct Ho4 as [(conn2 & response2 & -> & Hr4) | ((msg & ->) & Hr4)];
    [|eexists; cbn [snd]; rewrite <- !app_assoc; reflexivity].
  cbv beta iota.
  unfold Expect_ShouldNot_Equal.
  destruct (response1 =? response2)%string.
  { rewrite bind_abort. eexists; cbn [snd]; rewrite <- !app_assoc; reflexivity. }
  rewrite bind_ret, bind_call.
  destruct (conn_Close conn1 w4) as [err1 w5]. cbn [fst snd].
  unfold Expect_NotTo_HaveOccurred.
  destruct err1 as [e1|].
  { rewrite bind_abort. eexists; cbn [snd]; rewrite <- !app_assoc; reflexivity. }
  rewrite bind_ret, bind_call.
  destruct (conn_Close conn2 w5) as [err2 w6].
  destruct err2 as [e2|]; unfold abort_with, ret; cbn [fst snd];
    eexists; rewrite <- !app_assoc; reflexivity.
Qed.

Lemma It_load_balances_oracle (polls : nat) (w : W) :
  load_balancing_contract
    (It_load_balances_the_connections externalIP routerApiConfig node
       json_Marshal polls (w, [])).
Proof.
  unfold It_load_balances_the_connections, load_balancing_contract.
  set (address := (router_helpers.Address routerApiConfig ++ ":" ++ itoa (61000 + node))%string).
  destruct (configureMapping_run (61000 + node) [7000 + node; 7500 + node] w [])
    as (o1 & w1 & ext1 & H1 & Ho1 & Hm1 & Hp1).
  assert (Hr1 : responses ext1 = []).
  { destruct (snd (json_Marshal
       (mapping_requests externalIP (61000 + node) [7000 + node; 7500 + node])))
      as [e|] eqn:E.
    - destruct Hm1 as [-> _]; [discriminate | reflexivity].
    - destruct (Hp1 eq_refl) as (result & -> & _). reflexivity. }
  rewrite (run_bind _ _ _ _ _ H1).
  destruct Ho1 as [-> | (msg & ->)].
  2:{ cbn [fst snd app]. rewrite Hr1.
      split; [right; eexists; reflexivity|].
      split; [discriminate | discriminate]. }
  destruct (Eventually_dials_run address polls w1 ([] ++ ext1)%list)
    as (o2 & w2 & ext2 & H2 & Ho2 & Hr2).
  rewrite (run_bind _ _ _ _ _ H2).
  destruct Ho2 as [-> | (msg & ->)].
  2:{ cbn [fst snd app]. rewrite responses_app, Hr1, Hr2.
      split; [right; eexists; reflexivity|].
      split; [discriminate | discriminate]. }
  destruct (sendAndReceive_run address w2 (([] ++ ext1) ++ ext2)%list)
    as (o3 & w3 & ext3 & H3 & Ho3).
  rewrite (run_bind _ _ _ _ _ H3).
  destruct Ho3 as [(conn1 & response1 & -> & Hr3) | ((msg & ->) & Hr3)].
  2:{ cbn [fst snd app]. rewrite !responses_app, Hr1, Hr2, Hr3.
      split; [right; eexists; reflexivity|].
      split; [discriminate | discriminate]. }
  cbv beta iota.
  destruct (sendAndReceive_run address w3 ((([] ++ ext1) ++ ext2) ++ ext3)%list)
    as (o4 & w4 & ext4 & H4 & Ho4).
  rewrite (run_bind _ _ _ _ _ H4).
  destruct Ho4 as [(conn2 & response2 & -> & Hr4) | ((msg & ->) & Hr4)].
  2:{ cbn [fst snd app]. rewrite !responses_app, Hr1, Hr2, Hr3, Hr4.
      split; [right; eexists; reflexivity|].
      split; [discriminate | discriminate]. }
  cbv beta iota.
  unfold Expect_ShouldNot_Equal.
  destruct (response1 =? response2)%string eqn:E.
  { apply String.eqb_eq in E. subst response2.
    rewrite bind_abort. cbn [fst snd app].
    rewrite !responses_app, Hr1, Hr2, Hr3, Hr4.
    split; [right; eexists; reflexivity|].
    split; [discriminate|]. intros; eexists; reflexivity. }
  apply String.eqb_neq in E.
  rewrite bind_ret, bind_call.
  destruct (conn_Close conn1 w4) as [err1 w5]. cbn [fst snd].
  unfold Expect_NotTo_HaveOccurred.
  destruct err1 as [e1|].
  { rewrite bind_abort. cbn [fst snd app].
    rewrite !responses_app, Hr1, Hr2, Hr3, Hr4.
    split; [right; eexists; reflexivity|].
    split; [discriminate|]. cbn. intros r1 r2 [= <- <-] Heq. contradiction. }
  rewrite bind_ret, bind_call.
  destruct (conn_Close conn2 w5) as [err2 w6].
  destruct err2 as [e2|]; unfold abort_with, ret; cbn [fst snd app];
    rewrite !responses_app, Hr1, Hr2, Hr3, Hr4; cbn.
  - split; [right; eexists; reflexivity|].
    split; [discriminate|]. intros r1 r2 [= <- <-] Heq. contradiction.
  - split; [left; reflexivity|].
    split; [intros _; exists response1, response2; split; [reflexivity | exact E]|].
    intros r1 r2 [= <- <-] Heq. contradiction.
Qed.

(** C6: the load-balancing spec maps one external port to two backends of
    different ports before any exchange; it passes only when the two
    exchanges on the external port gave different responses, and fails
    whenever the two responses are equal. *)
Theorem load_balancing_requires_different_responses (polls : nat) (w : W) :
  let res := It_load_balances_the_connections externalIP routerApiConfig node
               json_Marshal polls (w, []) in
  two_backends_mapped externalIP routerApiConfig json_Marshal node res
  /\ load_balancing_contract res.
Proof.
  cbv zeta. split; [split|].
  - apply backends_differ.
  - apply It_load_balances_maps_first.
  - apply It_load_balances_oracle.
Qed.

End router_theorems.

(** ** The routing specs on the echo network *)

Section router_examples.
Import router fakes.

(** The echo of the expected server is a success. *)
Example checkConnection_echo :
  let res := checkConnection [] "10.244.8.2:60001" "serverId1"
               (network ["serverId1"] 0, []) in
  fst res = Ret [None]
  /\ snd (snd res) =
     [DialTimeout "tcp" "10.244.8.2:60001" 1000000000 (inr 1%nat);
      Nanosecond 123456789; Write 1%nat "Time is 123456789" None;
      Read 1%nat 27 "serverId1:Time is 123456789" None;
      Close 1%nat None; Send None].
Proof. vm_compute. split; reflexivity. Qed.

(** The echo of another server is a mismatch. *)
Example checkConnection_other_server :
  fst (checkConnection [] "10.244.8.2:60001" "serverId1"
         (network ["serverId2"] 0, []))
  = Ret [Some (mismatch "serverId2:Time is 123456789"
                        "serverId1:Time is 123456789")].
Proof. vm_compute. reflexivity. Qed.

(** Three refused dials, then the echo: four attempts, and the spec goes
    on. *)
Example verifyConnection_after_three_errors :
  let res := verifyConnection router_api 11 60001 "serverId1"
               (network ["serverId1"] 3, []) in
  fst res = Ret tt /\ attempts (snd (snd res)) = 4%nat.
Proof. vm_compute. split; reflexivity. Qed.

(** Eleven refused dials: eleven attempts, and the assertion fails. *)
Example verifyConnection_gives_up :
  let res := verifyConnection router_api 11 60001 "serverId1"
               (network ["serverId1"] 11, []) in
  fst res = Abort (not_to_have_occurred (foreign_error "dial tcp: connection refused"))
  /\ attempts (snd (snd res)) = 11%nat.
Proof. vm_compute. split; reflexivity. Qed.

Lemma verifyConnection_is_bounded_witness :
  verifyConnection_contract
    (verifyConnection router_api 11 60001 "serverId1"
       (network ["serverId1"] 3, [])).
Proof.
  apply (verifyConnection_is_bounded router_api 11 60001 "serverId1"
           (network ["serverId1"] 3)).
  lia.
Defined.

(** Two backends behind the port: two different responses, the spec
    passes. *)
Example load_balancing_two_backends :
  let res := It_load_balances_the_connections "10.244.0.1" router_api 1
               marshal_requests 20 (network ["serverId3"; "serverId4"] 2, []) in
  fst res = Ret tt
  /\ responses (snd (snd res)) = ["serverId3:Hello"; "serverId4:Hello"]
  /\ posts (snd (snd res)) =
     [("http://10.244.8.2:9999/v0/external_ports", "application/json", "61001:2")].
Proof. vm_compute. repeat split. Qed.

(** One backend answers both times: the spec fails. *)
Example load_balancing_one_backend :
  fst (It_load_balances_the_connections "10.244.0.1" router_api 1
         marshal_requests 20 (network ["serverId3"] 2, []))
  = Abort (Fail "Expected serverId3:Hello not to equal serverId3:Hello").
Proof. vm_compute. reflexivity. Qed.

End router_examples.

(** ** The statsd specs *)

Section stats_theorems.
Import stats.
Context {W : Type} {api : RoutingAPI W}.

Lemma stats_bind_call {A B : Type} (f : W -> A * W) (ev : A -> Event)
  (k : A -> M St B) (w : W) (tr : list Event) :
  bind (call f ev) k (w, tr) =
  k (fst (f w)) (snd (f w), (tr ++ [ev (fst (f w))])%list).
Proof. unfold bind, call; cbn. destruct (f w); reflexivity. Qed.

Lemma lines_app (a b : list Event) : lines (a ++ b) = (lines a ++ lines b)%list.
Proof. unfold lines. apply flat_map_app. Qed.

(** One [Eventually ... Receive(Equal(expected))], from any state: it
    passes only after it took the expected line, having dropped the lines
    before it. *)
Lemma Eventually_Should_Receive_Equal_run (expected : string) :
  forall (polls : nat) (w : W) (tr : list Event),
  exists out w' ext,
    Eventually_Should_Receive_Equal polls expected (w, tr)
      = (out, (w', (tr ++ ext)%list))
    /\ (out = Ret tt \/ exists msg, out = Abort (Fail msg))
    /\ (out = Ret tt ->
        exists dropped,
          lines ext = (dropped ++ [expected])%list /\ ~ In expected dropped).
Proof.
  induction polls as [|polls IH]; intros w tr.
  - do 3 eexists. split; [cbn; rewrite app_nil_r; reflexivity|].
    split; [right; eexists; reflexivity | discriminate].
  - cbn [Eventually_Should_Receive_Equal]. rewrite stats_bind_call.
    destruct (fakeStatsdChan_receive w) as [r w1]; cbn [fst snd].
    destruct r as [|text|].
    + destruct (IH w1 (tr ++ [Receive Nothing])%list)
        as (out & w' & ext & -> & Ho & Hl).
      exists out, w', (Receive Nothing :: ext).
      split; [rewrite <- app_assoc; reflexivity|].
      split; [exact Ho | exact Hl].
    + destruct (text =? expected)%string eqn:E.
      * apply String.eqb_eq in E. subst text.
        exists (Ret tt), w1, [Receive (Line expected)].
        split; [reflexivity|]. split; [left; reflexivity|].
        intros _. exists []. split; [reflexivity | intros []].
      * apply String.eqb_neq in E.
        destruct (IH w1 (tr ++ [Receive (Line text)])%list)
          as (out & w' & ext & -> & Ho & Hl).
        exists out, w', (Receive (Line text) :: ext).
        split; [rewrite <- app_assoc; reflexivity|].
        split; [exact Ho|].
        intros Hr. destruct (Hl Hr) as (dropped & Hd & Hn).
        exists (text :: dropped).
        change (lines (Receive (Line text) :: ext)) with (text :: lines ext).
        rewrite Hd.
        split; [reflexivity|].
        intros [Heq | Hin]; [congruence | exact (Hn Hin)].
    + do 3 eexists. split; [reflexivity|].
      split; [right; eexists; reflexivity | discriminate].
Qed.

Lemma plus_then_minus_run (polls1 polls2 : nat) (w : W) (tr : list Event) :
  lines tr = [] ->
  let res := bind (Eventually_Should_Receive_Equal polls1 total_http_routes_plus)
               (fun _ => Eventually_Should_Receive_Equal polls2
                           total_http_routes_minus) (w, tr) in
  (fst res = Ret tt \/ exists msg, fst res = Abort (Fail msg))
  /\ (fst res = Ret tt -> plus_before_minus (snd (snd res)))
  /\ exists ext, snd (snd res) = (tr ++ ext)%list.
Proof.
  intros Htr.
  destruct (Eventually_Should_Receive_Equal_run total_http_routes_plus polls1 w tr)
    as (o1 & w1 & ext1 & H1 & Ho1 & Hl1).
  cbv zeta. rewrite (run_bind _ _ _ _ _ H1).
  destruct Ho1 as [-> | (msg & ->)].
  2:{ cbn [fst snd]. split; [right; eexists; reflexivity|].
      split; [discriminate | eexists; reflexivity]. }
  destruct (Eventually_Should_Receive_Equal_run total_http_routes_minus polls2
              w1 (tr ++ ext1)%list)
    as (o2 & w2 & ext2 & H2 & Ho2 & Hl2).
  rewrite H2. cbn [fst snd].
  split; [exact Ho2|]. split.
  - intros Hr. destruct (Hl1 eq_refl) as (before & Hb & Hnb).
    destruct (Hl2 Hr) as (between & Hm & Hnm).
    exists before, between.
    rewrite !lines_app, Htr, Hb, Hm. cbn [app].
    rewrite <- app_assoc. split; [reflexivity|]. split; assumption.
  - exists (ext1 ++ ext2)%list. rewrite app_assoc. reflexivity.
Qed.

(** C4: the statsd oracle.  The spec of a deleted route and the spec of an
    expired route pass only when, after the route was upserted (and
    deleted), the fake statsd channel gave the line
    routing_api.total_http_routes:+1|g and, after it, the line
    routing_api.total_http_routes:-1|g; they fail otherwise. *)
Theorem statsd_plus_strictly_before_minus (polls1 polls2 : nat) (w : W) :
  let deleted :=
    It_gets_statsd_messages_for_deleted_routes polls1 polls2 (w, []) in
  let expired :=
    It_gets_statsd_messages_for_expired_routes polls1 polls2 (w, []) in
  (fst deleted = Ret tt \/ exists msg, fst deleted = Abort (Fail msg))
  /\ (fst deleted = Ret tt ->
      plus_before_minus (snd (snd deleted))
      /\ exists err err' rest,
           snd (snd deleted) =
           UpsertRoutes [route1] err :: DeleteRoutes [route1] err' :: rest)
  /\ (fst expired = Ret tt \/ exists msg, fst expired = Abort (Fail msg))
  /\ (fst expired = Ret tt ->
      plus_before_minus (snd (snd expired))
      /\ exists err rest,
           snd (snd expired) =
           UpsertRoutes [db.NewRoute "z.a.k" 63 "42.42.42.42" "Tomato" "" 1] err
             :: rest).
Proof.
  cbv zeta.
  unfold It_gets_statsd_messages_for_deleted_routes,
    It_gets_statsd_messages_for_expired_routes.
  rewrite !stats_bind_call. cbn [fst snd app].
  destruct (client_UpsertRoutes [route1] w) as [err w1].
  destruct (client_UpsertRoutes
              [db.NewRoute "z.a.k" 63 "42.42.42.42" "Tomato" "" 1] w)
    as [erre w1e].
  cbn [fst snd].
  destruct (client_DeleteRoutes [route1] w1) as [err' w2]. cbn [fst snd].
  destruct (plus_then_minus_run polls1 polls2 w2
              [UpsertRoutes [route1] err; DeleteRoutes [route1] err'] eq_refl)
    as (Hd1 & Hd2 & (extd & Hd3)).
  destruct (plus_then_minus_run polls1 polls2 w1e
              [UpsertRoutes [db.NewRoute "z.a.k" 63 "42.42.42.42" "Tomato" "" 1] erre]
              eq_refl)
    as (He1 & He2 & (exte & He3)).
  split; [exact Hd1|]. split.
  - intros Hr. split; [exact (Hd2 Hr)|].
    exists err, err', extd. exact Hd3.
  - split; [exact He1|]. intros Hr. split; [exact (He2 Hr)|].
    exists erre, exte. exact He3.
Qed.

End stats_theorems.

Section stats_examples.
Import stats fakes.

(** "+1" and then "-1": the spec passes. *)
Example deleted_route_is_seen :
  let res := It_gets_statsd_messages_for_deleted_routes 100 100
               (added_then_removed, []) in
  fst res = Ret tt
  /\ lines (snd (snd res)) =
     ["routing_api.total_http_routes:1|g"; "routing_api.total_http_routes:+1|g";
      "routing_api.total_http_routes:2|g"; "routing_api.total_http_routes:-1|g"].
Proof. vm_compute. split; reflexivity. Qed.

(** "-1" before "+1", and no "-1" after it: the spec fails. *)
Example removal_before_addition_fails :
  fst (It_gets_statsd_messages_for_deleted_routes 100 100
         (removed_then_added, []))
  = Abort (Fail "Timed out waiting to receive routing_api.total_http_routes:-1|g").
Proof. vm_compute. reflexivity. Qed.

End stats_examples.

(** ** The certificate template *)

Section golangtls_theorems.
Import golangtls.
Context {W : Type} {sys : Sys W}.

Lemma golangtls_bind_call {A B : Type} (f : W -> A * W) (ev : A -> Event)
  (k : A -> M St B) (w : W) (tr : list Event) :
  bind (call f ev) k (w, tr) =
  k (fst (f w)) (snd (f w), (tr ++ [ev (fst (f w))])%list).
Proof. unfold bind, call; cbn. destruct (f w); reflexivity. Qed.

(** C10, as amended: a template that CertTemplate returns has a serial
    number in [0, 2^128) (the limit it hands to rand.Int), a NotBefore that
    is the reading of the clock taken for it, and a NotAfter that is one
    hour after a second reading of the clock, taken after the first: the
    template is valid for one hour and the time between the two readings. *)
Theorem CertTemplate_fields (w : W) (tmpl : Certificate) :
  rand_Int_in_range ->
  fst (CertTemplate (w, [])) = Ret (Some tmpl, None) ->
  exists t1 t2,
    snd (snd (CertTemplate (w, []))) =
      [RandInt (2 ^ 128) (inr (SerialNumber tmpl)); Now t1; Now t2]
    /\ 0 <= SerialNumber tmpl < 2 ^ 128
    /\ NotBefore tmpl = t1
    /\ NotAfter tmpl = t2 + time_Hour
    /\ NotAfter tmpl - NotBefore tmpl = time_Hour + (t2 - t1).
Proof.
  intros Hrand. unfold CertTemplate.
  rewrite golangtls_bind_call.
  change (Z.shiftl 1 128) with (2 ^ 128).
  destruct (rand_Int (2 ^ 128) w) as [[e|n] w1] eqn:Hr; cbn [fst snd app].
  - discriminate.
  - rewrite !golangtls_bind_call.
    destruct (time_Now w1) as [t1 w2]; cbn [fst snd].
    destruct (time_Now w2) as [t2 w3]; cbn [fst snd app].
    intros [= <-]. cbn [SerialNumber NotBefore NotAfter].
    exists t1, t2. split; [reflexivity|].
    split; [exact (Hrand _ _ _ _ Hr)|].
    split; [reflexivity|]. split; [reflexivity | lia].
Qed.

End golangtls_theorems.

Section golangtls_examples.
Import golangtls fakes.

Lemma FakeSys_rand_Int_in_range : rand_Int_in_range (W := FakeSys).
Proof.
  intros max w w' n. cbn.
  destruct (0 <? max) eqn:E; [|discriminate].
  apply Z.ltb_lt in E. intros [= <- _]. apply Z.mod_pos_bound. exact E.
Qed.

Example CertTemplate_on_a_ticking_clock :
  CertTemplate (ticking, [])
  = (Ret (Some sample_template, None),
     ({| clock := 1500; tick := 250; seed := 2 ^ 128 + 42 |},
      [RandInt (2 ^ 128) (inr 42); Now 1000; Now 1250])).
Proof. vm_compute. reflexivity. Qed.

Lemma CertTemplate_fields_witness :
  exists t1 t2,
    snd (snd (CertTemplate (ticking, []))) =
      [RandInt (2 ^ 128) (inr (SerialNumber sample_template)); Now t1; Now t2]
    /\ 0 <= SerialNumber sample_template < 2 ^ 128
    /\ NotBefore sample_template = t1
    /\ NotAfter sample_template = t2 + time_Hour
    /\ NotAfter sample_template - NotBefore sample_template = time_Hour + (t2 - t1).
Proof.
  apply (CertTemplate_fields (W := FakeSys)
           ticking sample_template).
  - exact FakeSys_rand_Int_in_range.
  - vm_compute. reflexivity.
Defined.

(** The claim of C10 as worded fails on a clock that moves between the two
    readings: NotAfter is then more than one hour after NotBefore. *)
Lemma CertTemplate_not_valid_for_exactly_one_hour :
  ~ valid_for_exactly_one_hour (W := FakeSys).
Proof.
  intros H.
  specialize (H ticking
                sample_template).
  assert (E : NotAfter sample_template = NotBefore sample_template + time_Hour)
    by (apply H; vm_compute; reflexivity).
  vm_compute in E. discriminate E.
Qed.

End golangtls_examples.

(** ** Package db: the readers and the deletes *)

Section db_readers.
Import db.
Context {W : Type} {api : KeysAPI W}.
Context {JSON_Route : JSON Route} {JSON_TcpRouteMapping : JSON TcpRouteMapping}
        {JSON_RouterGroup : JSON RouterGroup}.
Variable url_QueryEscape : string -> string.

Lemma ReadRouterGroups_range_all (nodes : list Node) :
  forall (results l : list RouterGroup),
    Forall2 decodes nodes l ->
    ReadRouterGroups_range nodes results = inr (results ++ l)%list.
Proof.
  induction nodes as [|node nodes IH]; intros results l H; inversion H; subst.
  - cbn. rewrite app_nil_r. reflexivity.
  - cbn [ReadRouterGroups_range].
    match goal with Hd : decodes _ _ |- _ => unfold decodes in Hd; rewrite Hd end.
    rewrite (IH _ _ ltac:(eassumption)), <- app_assoc. reflexivity.
Qed.

Lemma ReadRouterGroups_range_first_failure (before : list Node) :
  forall (results : list RouterGroup) node after e,
    Forall (fun n => exists rg : RouterGroup, decodes n rg) before ->
    json_Unmarshal (A := RouterGroup) (Node_Value node) = inl e ->
    ReadRouterGroups_range (before ++ node :: after) results = inl ([], Some e).
Proof.
  induction before as [|n before IH]; intros results node after e Hb He.
  - cbn. rewrite He. reflexivity.
  - inversion Hb as [|? ? (rg & Hrg) Hb']; subst.
    cbn [app ReadRouterGroups_range]. unfold decodes in Hrg. rewrite Hrg.
    apply IH; assumption.
Qed.

Lemma ReadRouterGroups_range_inl (nodes : list Node) :
  forall (results : list RouterGroup) r,
    ReadRouterGroups_range nodes results = inl r ->
    fst r = [] /\ snd r <> None.
Proof.
  induction nodes as [|node nodes IH]; intros results r; cbn [ReadRouterGroups_range].
  - discriminate.
  - destruct (json_Unmarshal (Node_Value node)) as [e|rg].
    + intros [= <-]. split; [reflexivity | discriminate].
    + apply IH.
Qed.

(** X2: ReadRouterGroups reads the directory of the router groups once.  A
    directory that is not there is an empty list and no error; any other
    error of etcd is returned with an empty list.  The groups are returned
    in the order of the nodes when every node decodes; when one does not,
    the error of the first such node is returned with an empty list: the
    list returned with an error is always empty. *)
Theorem ReadRouterGroups_lists_all_or_nothing (w : W) :
  let getOpts := {| Recursive := true |} in
  let g := keysAPI_Get ROUTER_GROUP_BASE_KEY getOpts w in
  let res := ReadRouterGroups (w, []) in
  snd res = (snd g, [CallGet ROUTER_GROUP_BASE_KEY getOpts (fst (fst g)) (snd (fst g))])
  /\ (is_client_Error ErrorCodeKeyNotFound (snd (fst g)) = true ->
      fst res = Ret ([], None))
  /\ (forall e, snd (fst g) = Some e ->
      is_client_Error ErrorCodeKeyNotFound (Some e) = false ->
      fst res = Ret ([], Some e))
  /\ (forall resp l, fst g = (Some resp, None) ->
      Forall2 decodes (Node_Nodes (Response_Node resp)) l ->
      fst res = Ret (l, None))
  /\ (forall resp before node after e, fst g = (Some resp, None) ->
      Node_Nodes (Response_Node resp) = (before ++ node :: after)%list ->
      Forall (fun n => exists rg : RouterGroup, decodes n rg) before ->
      json_Unmarshal (A := RouterGroup) (Node_Value node) = inl e ->
      fst res = Ret ([], Some e))
  /\ (forall l e, fst res = Ret (l, Some e) -> l = []).
Proof.
  cbv zeta. unfold ReadRouterGroups. rewrite bind_Get.
  destruct (keysAPI_Get ROUTER_GROUP_BASE_KEY {| Recursive := true |} w)
    as [[response err] w1]. cbn [fst snd app].
  split.
  { destruct err as [e|]; cbn [is_nil negb].
    - destruct (is_client_Error ErrorCodeKeyNotFound (Some e)); reflexivity.
    - rewrite bind_deref. destruct response as [resp|]; [|reflexivity].
      destruct (ReadRouterGroups_range (Node_Nodes (Response_Node resp)) []);
        reflexivity. }
  split.
  { intros Hk. destruct err as [e|]; [|discriminate Hk].
    cbn [is_nil negb]. rewrite Hk. reflexivity. }
  split.
  { intros e [= ->] Hk. cbn [is_nil negb]. rewrite Hk. reflexivity. }
  split.
  { intros resp l [= -> ->] Hl. cbn [is_nil negb]. rewrite bind_deref.
    rewrite (ReadRouterGroups_range_all _ [] l Hl). reflexivity. }
  split.
  { intros resp before node after e [= -> ->] Hn Hb He. cbn [is_nil negb].
    rewrite bind_deref, Hn.
    rewrite (ReadRouterGroups_range_first_failure before [] node after e Hb He).
    reflexivity. }
  intros l e. destruct err as [e0|]; cbn [is_nil negb].
  - destruct (is_client_Error ErrorCodeKeyNotFound (Some e0)); intros [= <- _];
      reflexivity.
  - rewrite bind_deref. destruct response as [resp|]; [|discriminate].
    destruct (ReadRouterGroups_range (Node_Nodes (Response_Node resp)) [])
      as [r|results] eqn:E.
    + destruct (ReadRouterGroups_range_inl _ _ _ E) as [Hl _].
      destruct r as [l' e']. cbn in Hl. subst l'. intros [= <- _]. reflexivity.
    + discriminate.
Qed.

(** X3: ReadRouterGroup reads the key of the guid once.  A key that is not
    there is reported as the zero-value group with a nil error, as the
    comment on the function says; any other error of etcd is returned with
    the zero-value group; a stored value that decodes is returned with a
    nil error, and one that does not is reported by the error of the
    decoder. *)
Theorem ReadRouterGroup_reports_a_missing_group_as_zero
  (left : string -> RouterGroup) (guid : string) (w : W) :
  let key := (ROUTER_GROUP_BASE_KEY ++ "/" ++ guid)%string in
  let getOpts := {| Recursive := true |} in
  let g := keysAPI_Get key getOpts w in
  let res := ReadRouterGroup left guid (w, []) in
  snd res = (snd g, [CallGet key getOpts (fst (fst g)) (snd (fst g))])
  /\ (is_client_Error ErrorCodeKeyNotFound (snd (fst g)) = true ->
      fst res = Ret (zero_RouterGroup, None))
  /\ (forall e, snd (fst g) = Some e ->
      is_client_Error ErrorCodeKeyNotFound (Some e) = false ->
      fst res = Ret (zero_RouterGroup, Some e))
  /\ (forall resp result, fst g = (Some resp, None) ->
      json_Unmarshal (Node_Value (Response_Node resp)) = inr result ->
      fst res = Ret (result, None))
  /\ (forall resp e, fst g = (Some resp, None) ->
      json_Unmarshal (A := RouterGroup) (Node_Value (Response_Node resp)) = inl e ->
      fst res = Ret (left (Node_Value (Response_Node resp)), Some e))
  /\ (fst g = (None, None) -> exists msg, fst res = Abort (Panic msg)).
Proof.
  cbv zeta. unfold ReadRouterGroup, generateRouterGroupKey.
  cbn [RouterGroup_Guid]. rewrite bind_Get.
  destruct (keysAPI_Get (ROUTER_GROUP_BASE_KEY ++ "/" ++ guid) {| Recursive := true |} w)
    as [[response err] w1]. cbn [fst snd app].
  split.
  { destruct err as [e|]; cbn [is_nil negb].
    - destruct (is_client_Error ErrorCodeKeyNotFound (Some e)); reflexivity.
    - rewrite bind_deref. destruct response as [resp|]; [|reflexivity].
      destruct (json_Unmarshal (Node_Value (Response_Node resp))); reflexivity. }
  split.
  { intros Hk. destruct err as [e|]; [|discriminate Hk].
    cbn [is_nil negb]. rewrite Hk. reflexivity. }
  split.
  { intros e [= ->] Hk. cbn [is_nil negb]. rewrite Hk. reflexivity. }
  split.
  { intros resp result [= -> ->] Hu. cbn [is_nil negb].
    rewrite bind_deref, Hu. reflexivity. }
  split.
  { intros resp e [= -> ->] Hu. cbn [is_nil negb].
    rewrite bind_deref, Hu. reflexivity. }
  intros [= -> ->]. cbn [is_nil negb]. rewrite bind_deref. eexists; reflexivity.
Qed.

Lemma ReadRoutes_range_all (nodes : list Node) :
  forall (listRoutes l : list Route),
    Forall2 decodes nodes l ->
    ReadRoutes_range nodes listRoutes = inr (listRoutes ++ l)%list.
Proof.
  induction nodes as [|node nodes IH]; intros acc l H; inversion H; subst.
  - cbn. rewrite app_nil_r. reflexivity.
  - cbn [ReadRoutes_range].
    match goal with Hd : decodes _ _ |- _ => unfold decodes in Hd; rewrite Hd end.
    rewrite (IH _ _ ltac:(eassumption)), <- app_assoc. reflexivity.
Qed.

Lemma ReadRoutes_range_inr (nodes : list Node) :
  forall (listRoutes l : list Route),
    ReadRoutes_range nodes listRoutes = inr l ->
    exists l', l = (listRoutes ++ l')%list /\ Forall2 decodes nodes l'.
Proof.
  induction nodes as [|node nodes IH]; intros acc l; cbn [ReadRoutes_range].
  - intros [= <-]. exists []. rewrite app_nil_r. split; [reflexivity | constructor].
  - destruct (json_Unmarshal (Node_Value node)) as [e|route] eqn:E; [discriminate|].
    intros H. destruct (IH _ _ H) as (l' & -> & Hl').
    exists (route :: l'). rewrite <- app_assoc. split; [reflexivity|].
    constructor; assumption.
Qed.

(** X4: ReadRoutes reads the directory of the routes once, and what it
    returns is all or nothing: the routes of all the nodes, in the order of
    the nodes, when every node decodes, and otherwise the empty list. *)
Theorem ReadRoutes_lists_all_or_nothing (w : W) :
  let getOpts := {| Recursive := true |} in
  let g := keysAPI_Get HTTP_ROUTE_BASE_KEY getOpts w in
  let res := ReadRoutes (w, []) in
  snd res = (snd g, [CallGet HTTP_ROUTE_BASE_KEY getOpts (fst (fst g)) (snd (fst g))])
  /\ (forall resp l, fst g = (Some resp, None) ->
      Forall2 decodes (Node_Nodes (Response_Node resp)) l ->
      fst res = Ret (l, None))
  /\ (forall l e, fst res = Ret (l, e) ->
      l = []
      \/ exists resp, fst g = (Some resp, None)
                      /\ Forall2 decodes (Node_Nodes (Response_Node resp)) l).
Proof.
  cbv zeta. unfold ReadRoutes. rewrite bind_Get.
  destruct (keysAPI_Get HTTP_ROUTE_BASE_KEY {| Recursive := true |} w)
    as [[response err] w1]. cbn [fst snd app].
  split.
  { destruct err as [e|]; cbn [is_nil negb]; [reflexivity|].
    rewrite bind_deref. destruct response as [resp|]; [|reflexivity].
    destruct (ReadRoutes_range (Node_Nodes (Response_Node resp)) []); reflexivity. }
  split.
  { intros resp l [= -> ->] Hl. cbn [is_nil negb]. rewrite bind_deref.
    rewrite (ReadRoutes_range_all _ [] l Hl). reflexivity. }
  intros l e. destruct err as [e0|]; cbn [is_nil negb].
  - intros [= <- _]. left; reflexivity.
  - rewrite bind_deref. destruct response as [resp|]; [|discriminate].
    destruct (ReadRoutes_range (Node_Nodes (Response_Node resp)) []) as [r|l0] eqn:E.
    + rewrite (ReadRoutes_range_returns _ _ _ E). intros [= <- _]. left; reflexivity.
    + intros [= <- _]. destruct (ReadRoutes_range_inr _ _ _ E) as (l' & -> & Hl').
      right. exists resp. split; [reflexivity | exact Hl'].
Qed.

Lemma Forall2_decodes_app {A : Type} {codec : JSON A} (n1 n2 : list Node) :
  forall l : list A,
    Forall2 decodes (n1 ++ n2) l ->
    exists l1 l2, l = (l1 ++ l2)%list /\ Forall2 decodes n1 l1 /\ Forall2 decodes n2 l2.
Proof. intros l H. apply Forall2_app_inv_l in H. destruct H as (l1 & l2 & H1 & H2 & ->). eauto. Qed.

Lemma ReadTcpRouteMappings_mappings_all (nodes : list Node) :
  forall (acc l : list TcpRouteMapping),
    Forall2 decodes nodes l ->
    ReadTcpRouteMappings_mappings nodes acc = inr (acc ++ l)%list.
Proof.
  induction nodes as [|node nodes IH]; intros acc l H; inversion H; subst.
  - cbn. rewrite app_nil_r. reflexivity.
  - cbn [ReadTcpRouteMappings_mappings].
    match goal with Hd : decodes _ _ |- _ => unfold decodes in Hd; rewrite Hd end.
    rewrite (IH _ _ ltac:(eassumption)), <- app_assoc. reflexivity.
Qed.

Lemma ReadTcpRouteMappings_mappings_inr (nodes : list Node) :
  forall (acc l : list TcpRouteMapping),
    ReadTcpRouteMappings_mappings nodes acc = inr l ->
    exists l', l = (acc ++ l')%list /\ Forall2 decodes nodes l'.
Proof.
  induction nodes as [|node nodes IH]; intros acc l; cbn [ReadTcpRouteMappings_mappings].
  - intros [= <-]. exists []. rewrite app_nil_r. split; [reflexivity | constructor].
  - destruct (json_Unmarshal (Node_Value node)) as [e|m] eqn:E; [discriminate|].
    intros H. destruct (IH _ _ H) as (l' & -> & Hl').
    exists (m :: l'). rewrite <- app_assoc. split; [reflexivity|].
    constructor; assumption.
Qed.

Lemma ReadTcpRouteMappings_externalPorts_all (nodes : list Node) :
  forall (acc l : list TcpRouteMapping),
    Forall2 decodes (flat_map Node_Nodes nodes) l ->
    ReadTcpRouteMappings_externalPorts nodes acc = inr (acc ++ l)%list.
Proof.
  induction nodes as [|node nodes IH]; intros acc l H.
  - cbn in H. inversion H; subst. cbn. rewrite app_nil_r. reflexivity.
  - cbn [flat_map] in H. apply Forall2_decodes_app in H.
    destruct H as (l1 & l2 & -> & H1 & H2).
    cbn [ReadTcpRouteMappings_externalPorts].
    rewrite (ReadTcpRouteMappings_mappings_all _ acc l1 H1).
    rewrite (IH _ l2 H2), <- app_assoc. reflexivity.
Qed.

Lemma ReadTcpRouteMappings_externalPorts_inr (nodes : list Node) :
  forall (acc l : list TcpRouteMapping),
    ReadTcpRouteMappings_externalPorts nodes acc = inr l ->
    exists l', l = (acc ++ l')%list /\ Forall2 decodes (flat_map Node_Nodes nodes) l'.
Proof.
  induction nodes as [|node nodes IH]; intros acc l;
    cbn [ReadTcpRouteMappings_externalPorts].
  - intros [= <-]. exists []. rewrite app_nil_r. split; [reflexivity | constructor].
  - destruct (ReadTcpRouteMappings_mappings (Node_Nodes node) acc) as [r|acc'] eqn:E;
      [discriminate|].
    intros H. destruct (ReadTcpRouteMappings_mappings_inr _ _ _ E) as (l1 & -> & H1).
    destruct (IH _ _ H) as (l2 & -> & H2).
    exists (l1 ++ l2)%list. rewrite <- app_assoc. split; [reflexivity|].
    cbn [flat_map]. apply Forall2_app; assumption.
Qed.

Lemma ReadTcpRouteMappings_routerGroups_all (nodes : list Node) :
  forall (acc l : list TcpRouteMapping),
    Forall2 decodes (mapping_nodes nodes) l ->
    ReadTcpRouteMappings_routerGroups nodes acc = inr (acc ++ l)%list.
Proof.
  induction nodes as [|node nodes IH]; intros acc l H.
  - cbn in H. inversion H; subst. cbn. rewrite app_nil_r. reflexivity.
  - unfold mapping_nodes in H. cbn [flat_map] in H. apply Forall2_decodes_app in H.
    destruct H as (l1 & l2 & -> & H1 & H2).
    cbn [ReadTcpRouteMappings_routerGroups].
    rewrite (ReadTcpRouteMappings_externalPorts_all _ acc l1 H1).
    rewrite (IH _ l2 H2), <- app_assoc. reflexivity.
Qed.

Lemma ReadTcpRouteMappings_routerGroups_inr (nodes : list Node) :
  forall (acc l : list TcpRouteMapping),
    ReadTcpRouteMappings_routerGroups nodes acc = inr l ->
    exists l', l = (acc ++ l')%list /\ Forall2 decodes (mapping_nodes nodes) l'.
Proof.
  induction nodes as [|node nodes IH]; intros acc l;
    cbn [ReadTcpRouteMappings_routerGroups].
  - intros [= <-]. exists []. rewrite app_nil_r. split; [reflexivity | constructor].
  - destruct (ReadTcpRouteMappings_externalPorts (Node_Nodes node) acc) as [r|acc'] eqn:E;
      [discriminate|].
    intros H. destruct (ReadTcpRouteMappings_externalPorts_inr _ _ _ E) as (l1 & -> & H1).
    destruct (IH _ _ H) as (l2 & -> & H2).
    exists (l1 ++ l2)%list. rewrite <- app_assoc. split; [reflexivity|].
    unfold mapping_nodes. cbn [flat_map]. apply Forall2_app; assumption.
Qed.

(** X5: ReadTcpRouteMappings reads the directory of the TCP route mappings
    once and looks for the mappings three levels down: under a router
    group, under an external port.  What it returns is all or nothing: the
    mappings of all those nodes, in the order of the tree, when every one
    of them decodes, and otherwise the empty list. *)
Theorem ReadTcpRouteMappings_lists_all_or_nothing (w : W) :
  let getOpts := {| Recursive := true |} in
  let g := keysAPI_Get TCP_MAPPING_BASE_KEY getOpts w in
  let res := ReadTcpRouteMappings (w, []) in
  snd res = (snd g, [CallGet TCP_MAPPING_BASE_KEY getOpts (fst (fst g)) (snd (fst g))])
  /\ (forall resp l, fst g = (Some resp, None) ->
      Forall2 decodes (mapping_nodes (Node_Nodes (Response_Node resp))) l ->
      fst res = Ret (l, None))
  /\ (forall l e, fst res = Ret (l, e) ->
      l = []
      \/ exists resp,
           fst g = (Some resp, None)
           /\ Forall2 decodes (mapping_nodes (Node_Nodes (Response_Node resp))) l).
Proof.
  cbv zeta. unfold ReadTcpRouteMappings. rewrite bind_Get.
  destruct (keysAPI_Get TCP_MAPPING_BASE_KEY {| Recursive := true |} w)
    as [[response err] w1]. cbn [fst snd app].
  split.
  { destruct err as [e|]; cbn [is_nil negb]; [reflexivity|].
    rewrite bind_deref. destruct response as [resp|]; [|reflexivity].
    destruct (ReadTcpRouteMappings_routerGroups (Node_Nodes (Response_Node resp)) []);
      reflexivity. }
  split.
  { intros resp l [= -> ->] Hl. cbn [is_nil negb]. rewrite bind_deref.
    rewrite (ReadTcpRouteMappings_routerGroups_all _ [] l Hl). reflexivity. }
  intros l e. destruct err as [e0|]; cbn [is_nil negb].
  - intros [= <- _]. left; reflexivity.
  - rewrite bind_deref. destruct response as [resp|]; [|discriminate].
    destruct (ReadTcpRouteMappings_routerGroups (Node_Nodes (Response_Node resp)) [])
      as [r|l0] eqn:E.
    + rewrite (ReadTcpRouteMappings_routerGroups_returns _ _ _ E).
      intros [= <- _]. left; reflexivity.
    + intros [= <- _].
      destruct (ReadTcpRouteMappings_routerGroups_inr _ _ _ E) as (l' & -> & Hl').
      right. exists resp. split; [reflexivity | exact Hl'].
Qed.

Lemma bind_Delete {B : Type} (key : string)
  (k : option Response * option error -> M St B) (w : W) (tr : list Call) :
  bind (Delete key) k (w, tr) =
  k (fst (keysAPI_Delete key w))
    (snd (keysAPI_Delete key w),
     (tr ++ [CallDelete key (snd (fst (keysAPI_Delete key w)))])%list).
Proof. unfold bind, Delete; simpl. destruct (keysAPI_Delete key w); reflexivity. Qed.

(** X6: DeleteRoute and DeleteTcpRouteMapping make one call of etcd, the
    Delete of the key of the route (of the mapping).  The error of etcd for
    a key that is not there comes back as a DBError of type KeyNotFound
    that names what was not found; any other error comes back as it is,
    and nil comes back exactly when etcd gave nil. *)
Theorem Delete_translates_key_not_found
  (String_ : TcpRouteMapping -> string)
  (route : Route) (tcpMapping : TcpRouteMapping) (w : W) :
  let key := generateHttpRouteKey url_QueryEscape route in
  let d := keysAPI_Delete key w in
  let key' := generateTcpRouteMappingKey tcpMapping in
  let d' := keysAPI_Delete key' w in
  DeleteRoute url_QueryEscape route (w, [])
  = (Ret (delete_result "The specified route could not be found." (snd (fst d))),
     (snd d, [CallDelete key (snd (fst d))]))
  /\ DeleteTcpRouteMapping String_ tcpMapping (w, [])
     = (Ret (delete_result
               ("The specified route (" ++ String_ tcpMapping ++ ") could not be found.")
               (snd (fst d'))),
        (snd d', [CallDelete key' (snd (fst d'))]))
  /\ (forall message err,
        (delete_result message err = None <-> err = None)
        /\ (forall t m, delete_result message err = Some (DBError t m) ->
            err = Some (DBError t m)
            \/ (t = KeyNotFound /\ m = message
                /\ exists m', err = Some (client_Error ErrorCodeKeyNotFound m')))).
Proof.
  cbv zeta. unfold DeleteRoute, DeleteTcpRouteMapping, delete_result.
  rewrite !bind_Delete. cbn [fst snd app].
  split; [|split].
  - destruct (keysAPI_Delete _ w) as [[response err] w1]. cbn [fst snd].
    destruct err as [e|]; cbn [is_nil negb andb]; [|reflexivity].
    destruct (is_client_Error ErrorCodeKeyNotFound (Some e)); reflexivity.
  - destruct (keysAPI_Delete (generateTcpRouteMappingKey tcpMapping) w)
      as [[response err] w1]. cbn [fst snd].
    destruct err as [e|]; cbn [is_nil negb andb]; [|reflexivity].
    destruct (is_client_Error ErrorCodeKeyNotFound (Some e)); reflexivity.
  - intros message err. split.
    + destruct err as [e|]; [|cbn; tauto].
      destruct (is_client_Error ErrorCodeKeyNotFound (Some e)); split; discriminate.
    + intros t m. destruct err as [[c m'| | |]|]; cbn [is_client_Error];
        try (intros [= <- <-]; left; reflexivity); try discriminate.
      destruct (c =? ErrorCodeKeyNotFound) eqn:E; [|discriminate].
      apply Z.eqb_eq in E. subst c. intros [= <- <-].
      right. repeat split. eexists; reflexivity.
Qed.

End db_readers.

(** ** Package db: what the save functions write *)

Section db_writes.
Import db.
Context {W : Type} {api : KeysAPI W}.
Context {JSON_Route : JSON Route} {JSON_TcpRouteMapping : JSON TcpRouteMapping}
        {JSON_RouterGroup : JSON RouterGroup}.
Variable url_QueryEscape : string -> string.

#[local] Hint Rewrite @bind_Get @bind_Set @bind_NewModificationTag : go_calls.

Lemma rounds_Get (key : string) write (first : bool)
  (response : option Response) (err : option error) (ext : list Call) :
  head_is_Get ext -> rounds key write false ext ->
  rounds key write first (CallGet key readOpts response err :: ext).
Proof.
  intros Hh Hr. cbn [rounds]. split; [reflexivity|]. split; [reflexivity|].
  destruct ext as [|[| |] ext]; cbn in Hh; try discriminate; exact Hr.
Qed.

Lemma rounds_Get_Set (key : string) write (first : bool)
  (response : option Response) (err : option error)
  (value : string) (opts : SetOptions) (r : option Response) (e : option error)
  (ext : list Call) :
  write first response err value opts -> rounds key write false ext ->
  rounds key write first
    (CallGet key readOpts response err :: CallSet key value opts r e :: ext).
Proof. intros Hw Hr. cbn [rounds]. repeat split; assumption. Qed.

Ltac round_leaf H :=
  inversion H; subst; clear H;
  eexists; split; [ rewrite <- ?app_assoc; reflexivity | ];
  cbn [app]; split; [ try reflexivity; exact I | ];
  first [ exact I
        | apply rounds_Get; [exact I | exact I]
        | apply rounds_Get_Set; [ | exact I ] ].

Ltac round_rec H :=
  let ext := fresh "ext" in
  let Hh := fresh "Hh" in
  let Hr := fresh "Hr" in
  destruct H as (ext & -> & Hh & Hr);
  eexists; split; [ rewrite <- ?app_assoc; reflexivity | ];
  cbn [app]; split; [ reflexivity | ];
  first [ apply rounds_Get; [exact Hh | exact Hr]
        | apply rounds_Get_Set; [ | exact Hr ] ].

Ltac first_round :=
  match goal with
  | Hb : (0 <? ?r)%nat = false |- (?r =? 0)%nat = true =>
      apply Nat.ltb_ge in Hb; apply Nat.eqb_eq; lia
  end.

Ltac write_ok Hsame :=
  match goal with
  | Ht : Some ?z = ?ttl_of ?r |- exists ttl, ?ttl_of ?r = Some ttl /\ _ =>
      exists z; split; [ symmetry; exact Ht | ]
  | Ht : ?ttl_of ?r = Some ?z |- exists ttl, ?ttl_of ?r = Some ttl /\ _ =>
      exists z; split; [ exact Ht | ]
  end;
  rewrite ?Hsame;
  first
    [ split; [ reflexivity | eexists; split; [ eassumption | reflexivity ] ]
    | split; [ first_round
             | split; [ first [ assumption | reflexivity ]
                      | split; [ reflexivity | eexists; reflexivity ] ] ] ].

Lemma SaveRoute_loop_rounds (route : Route) (key : string) :
  forall (fuel retries : nat) (route' : Route) (w : W) (tr : list Call)
         (out : outcome (flow (option error))) (w' : W) (tr' : list Call),
    (forall t, Route_with_tag route' t = Route_with_tag route t) ->
    Route_TTL route' = Route_TTL route ->
    SaveRoute_loop fuel key retries route' (w, tr) = (out, (w', tr')) ->
    exists ext, tr' = (tr ++ ext)%list /\ head_is_Get ext
                /\ rounds key (route_write route) (retries =? 0)%nat ext.
Proof.
  induction fuel as [|fuel IH]; intros retries route' w tr out w' tr' Hsame Httl H.
  { cbn in H. inversion H; subst. exists []. rewrite app_nil_r.
    repeat split; exact I. }
  cbn [SaveRoute_loop] in H.
  destruct (retries <=? maxRetries)%nat.
  2:{ inversion H; subst. exists []. rewrite app_nil_r. repeat split; exact I. }
  rewrite ?Hsame in H. cbn [Route_TTL Route_with_tag] in H.
  run H.
  all: try (apply IH in H; [ | let x := fresh "tag" in intros x; first [exact (Hsame x) | reflexivity]
                             | cbn [Route_TTL Route_with_tag]; congruence ]).
  all: unfold ret, abort_with in H.
  all: first [ round_leaf H | round_rec H | idtac "stuck" ].
  all: unfold route_write.
  all: solve [write_ok Hsame].
Qed.

Lemma SaveTcpRouteMapping_loop_rounds (tcpMapping : TcpRouteMapping) (key : string) :
  forall (fuel retries : nat) (tcpMapping' : TcpRouteMapping) (w : W) (tr : list Call)
         (out : outcome (flow (option error))) (w' : W) (tr' : list Call),
    (forall t, TcpMapping_with_tag tcpMapping' t = TcpMapping_with_tag tcpMapping t) ->
    TcpMapping_TTL tcpMapping' = TcpMapping_TTL tcpMapping ->
    SaveTcpRouteMapping_loop fuel key retries tcpMapping' (w, tr) = (out, (w', tr')) ->
    exists ext, tr' = (tr ++ ext)%list /\ head_is_Get ext
                /\ rounds key (mapping_write tcpMapping) (retries =? 0)%nat ext.
Proof.
  induction fuel as [|fuel IH];
    intros retries tcpMapping' w tr out w' tr' Hsame Httl H.
  { cbn in H. inversion H; subst. exists []. rewrite app_nil_r.
    repeat split; exact I. }
  cbn [SaveTcpRouteMapping_loop] in H.
  destruct (retries <=? maxRetries)%nat.
  2:{ inversion H; subst. exists []. rewrite app_nil_r. repeat split; exact I. }
  rewrite ?Hsame in H. cbn [TcpMapping_TTL TcpMapping_with_tag] in H.
  run H.
  all: try (apply IH in H; [ | let x := fresh "tag" in intros x; first [exact (Hsame x) | reflexivity]
                             | cbn [TcpMapping_TTL TcpMapping_with_tag]; congruence ]).
  all: unfold ret, abort_with in H.
  all: first [ round_leaf H | round_rec H ].
  all: unfold mapping_write.
  all: solve [write_ok Hsame].
Qed.

Lemma rounds_In (key : string) write :
  forall (n : nat) (tr : list Call) (first : bool) (c : Call),
    (List.length tr <= n)%nat ->
    rounds key write first tr -> In c tr ->
    match c with
    | CallGet k opts _ _ => k = key /\ opts = readOpts
    | CallSet k value setOpts _ _ =>
      k = key
      /\ exists f response err,
           In (CallGet key readOpts response err) tr
           /\ write f response err value setOpts
    | CallDelete _ _ => False
    end.
Proof.
  induction n as [|n IH]; intros tr first c Hn Hr Hin.
  { destruct tr; [destruct Hin | cbn in Hn; lia]. }
  destruct tr as [|[k o response err| |] rest]; cbn [rounds] in Hr;
    try contradiction; try solve [destruct Hin].
  destruct Hr as (-> & -> & Hr).
  destruct Hin as [<- | Hin]; [split; reflexivity|].
  destruct rest as [|[k1 o1 r1 e1|k1 v1 so1 r1 e1|k1 e1] rest'].
  - destruct Hin.
  - assert (Hlen : (List.length (CallGet k1 o1 r1 e1 :: rest') <= n)%nat)
      by (cbn [List.length] in *; lia).
    pose proof (IH _ false c Hlen Hr Hin) as Hc.
    destruct c; try exact Hc.
    destruct Hc as (-> & f & response' & err' & Hin' & Hw).
    split; [reflexivity|]. exists f, response', err'. split; [right; exact Hin' | exact Hw].
  - destruct Hr as (-> & Hw & Hr).
    destruct Hin as [<- | Hin].
    + split; [reflexivity|]. exists first, response, err.
      split; [left; reflexivity | exact Hw].
    + assert (Hlen : (List.length rest' <= n)%nat)
        by (cbn [List.length] in *; lia).
      pose proof (IH _ false c Hlen Hr Hin) as Hc.
      destruct c; try exact Hc.
      destruct Hc as (-> & f & response' & err' & Hin' & Hw').
      split; [reflexivity|]. exists f, response', err'.
      split; [right; right; exact Hin' | exact Hw'].
  - cbn [rounds] in Hr. contradiction.
Qed.

(** X7: SaveRoute and SaveTcpRouteMapping never write unconditionally.
    Every run, however it ends, works in rounds on the one key of the
    route (of the mapping): a Get and then at most one Set.  A Set after a
    Get that found the value is an update: it writes the value with the
    stored modification tag incremented and is conditional on the index of
    the node read (PrevIndex).  A Set after a Get that found no key is a
    create, made in the first round only: it is conditional on the key not
    being there (PrevExist false).  Both carry the TTL of the route in
    seconds, and no run deletes anything. *)
Theorem Save_writes_are_conditional
  (fuel : nat) (route : Route) (tcpMapping : TcpRouteMapping) (w : W) :
  let key := generateHttpRouteKey url_QueryEscape route in
  let tr := snd (snd (SaveRoute url_QueryEscape fuel route (w, []))) in
  let key' := generateTcpRouteMappingKey tcpMapping in
  let tr' := snd (snd (SaveTcpRouteMapping fuel tcpMapping (w, []))) in
  rounds key (route_write route) true tr
  /\ rounds key' (mapping_write tcpMapping) true tr'
  /\ (forall k value setOpts r e,
        In (CallSet k value setOpts r e) tr ->
        k = key
        /\ exists first response err,
             In (CallGet key readOpts response err) tr
             /\ route_write route first response err value setOpts)
  /\ (forall k value setOpts r e,
        In (CallSet k value setOpts r e) tr' ->
        k = key'
        /\ exists first response err,
             In (CallGet key' readOpts response err) tr'
             /\ mapping_write tcpMapping first response err value setOpts)
  /\ (forall k e, ~ In (CallDelete k e) tr /\ ~ In (CallDelete k e) tr').
Proof.
  cbv zeta.
  assert (H1 : rounds (generateHttpRouteKey url_QueryEscape route) (route_write route) true
                 (snd (snd (SaveRoute url_QueryEscape fuel route (w, []))))).
  { unfold SaveRoute.
    destruct (SaveRoute_loop fuel (generateHttpRouteKey url_QueryEscape route) 0 route
                (w, [])) as [out [w' tr']] eqn:H.
    rewrite (run_bind _ _ _ _ _ H).
    apply (SaveRoute_loop_rounds route) in H; [ | reflexivity | reflexivity ].
    destruct H as (ext & -> & _ & Hr). cbn [app].
    destruct out as [[err | retries] | why]; cbn [SaveRoute_end]; try exact Hr.
    destruct (maxRetries <? retries)%nat; exact Hr. }
  assert (H2 : rounds (generateTcpRouteMappingKey tcpMapping) (mapping_write tcpMapping) true
                 (snd (snd (SaveTcpRouteMapping fuel tcpMapping (w, []))))).
  { unfold SaveTcpRouteMapping.
    destruct (SaveTcpRouteMapping_loop fuel (generateTcpRouteMappingKey tcpMapping) 0
                tcpMapping (w, [])) as [out [w' tr']] eqn:H.
    rewrite (run_bind _ _ _ _ _ H).
    apply (SaveTcpRouteMapping_loop_rounds tcpMapping) in H; [ | reflexivity | reflexivity ].
    destruct H as (ext & -> & _ & Hr). cbn [app].
    destruct out as [[err | retries] | why]; cbn [SaveTcpRouteMapping_end]; exact Hr. }
  split; [exact H1|]. split; [exact H2|].
  split; [|split].
  - intros k value setOpts r e Hin.
    exact (rounds_In _ _ _ _ _ _ (Nat.le_refl _) H1 Hin).
  - intros k value setOpts r e Hin.
    exact (rounds_In _ _ _ _ _ _ (Nat.le_refl _) H2 Hin).
  - intros k e. split; intros Hin.
    + exact (rounds_In _ _ _ _ _ _ (Nat.le_refl _) H1 Hin).
    + exact (rounds_In _ _ _ _ _ _ (Nat.le_refl _) H2 Hin).
Qed.

End db_writes.

(** ** Package db: the goroutine of WatchRouteChanges *)

Section db_watch.
Import db.
Context {W Watcher : Type} {watching : Watching W Watcher}.
Variable Event : Type.
Variable NewEvent : option Response -> Event * option error.

Lemma bind_watch_call {A B : Type} (f : W -> A * W) (ev : A -> Watch Event)
  (k : A -> M (WatchSt Event) B) (w : W) (tr : list (Watch Event)) :
  bind (watch_call Event f ev) k (w, tr)
  = k (fst (f w)) (snd (f w), (tr ++ [ev (fst (f w))])%list).
Proof. unfold bind, watch_call. cbn. destruct (f w); reflexivity. Qed.

Lemma bind_send_event {B : Type} (event : Event)
  (k : unit -> M (WatchSt Event) B) (w : W) (tr : list (Watch Event)) :
  bind (send_event Event event) k (w, tr)
  = if fst (events_taken w)
    then k tt (snd (events_taken w), (tr ++ [SendEvent event])%list)
    else (Abort Blocked, (snd (events_taken w), tr)).
Proof.
  unfold bind, send_event. cbn [fst snd].
  destruct (events_taken w) as [[|] w']; reflexivity.
Qed.

Lemma ended_cons (a : Watch Event) (l : list (Watch Event)) :
  ended Event [a] = false -> ended Event (a :: l) = ended Event l.
Proof.
  destruct l as [|b l]; [intros ->; reflexivity|]. intros _. reflexivity.
Qed.

Lemma dispatchWatchEvents_loop_forwards (key : string) :
  forall (fuel : nat) (watcher : Watcher) (w : W) (tr : list (Watch Event)),
  exists ext,
    snd (snd (dispatchWatchEvents_loop Event NewEvent fuel key watcher (w, tr)))
    = (tr ++ ext)%list
    /\ forwards Event NewEvent key ext
    /\ (fst (dispatchWatchEvents_loop Event NewEvent fuel key watcher (w, tr)) = Ret tt
        <-> ended Event ext = true)
    /\ (fst (dispatchWatchEvents_loop Event NewEvent fuel key watcher (w, tr)) = Ret tt
        \/ fst (dispatchWatchEvents_loop Event NewEvent fuel key watcher (w, tr))
           = Abort Blocked
        \/ fst (dispatchWatchEvents_loop Event NewEvent fuel key watcher (w, tr))
           = Abort OutOfFuel).
Proof.
  induction fuel as [|fuel IH]; intros watcher w tr.
  { exists []. rewrite app_nil_r. cbn.
    split; [reflexivity|]. split; [exact I|].
    split; [split; discriminate | right; right; reflexivity]. }
  cbn [dispatchWatchEvents_loop]. rewrite bind_watch_call.
  destruct (watcher_Next watcher w) as [[resp err] w1]. cbn [fst snd].
  destruct err as [e|].
  - destruct (is_client_Error ErrorCodeEventIndexCleared (Some e)) eqn:Hc.
    + rewrite bind_watch_call.
      destruct (keysAPI_Watcher key true w1) as [watcher' w2]. cbn [fst snd].
      destruct (IH watcher' w2 ((tr ++ [Next resp (Some e)]) ++ [NewWatcher key true])%list)
        as (ext & Hext & Hf & Hend & Hout).
      exists (Next resp (Some e) :: NewWatcher key true :: ext).
      split; [rewrite Hext, <- !app_assoc; reflexivity|].
      split; [cbn [forwards]; rewrite Hc; repeat split; exact Hf|].
      split; [|exact Hout].
      rewrite ended_cons.
      * rewrite ended_cons by reflexivity. exact Hend.
      * unfold ended. cbn [last].
        destruct e as [c m| | |]; try discriminate Hc; reflexivity.
    + destruct (error_eqb e context_Canceled) eqn:Hcan; cbn [negb].
      * exists [Next resp (Some e)]. cbn [ret fst snd].
        split; [reflexivity|].
        split; [cbn [forwards]; rewrite Hc, Hcan; reflexivity|].
        split; [|left; reflexivity].
        unfold ended. cbn [last]. rewrite Hcan. split; reflexivity.
      * unfold send_error. cbn [fst snd].
        destruct (errors_taken w1) as [[|] w2]; cbn [fst snd].
        -- exists [Next resp (Some e); SendError e]. rewrite <- app_assoc.
           split; [reflexivity|].
           split; [cbn [forwards]; rewrite Hc, Hcan; right; reflexivity|].
           split; [split; reflexivity | left; reflexivity].
        -- exists [Next resp (Some e)].
           split; [reflexivity|].
           split; [cbn [forwards]; rewrite Hc, Hcan; left; reflexivity|].
           split; [|right; left; reflexivity].
           unfold ended. cbn [last]. rewrite Hcan. split; discriminate.
  - destruct (NewEvent resp) as [event err] eqn:HN.
    destruct err as [e|].
    + unfold send_error. cbn [fst snd].
      destruct (errors_taken w1) as [[|] w2]; cbn [fst snd].
      * exists [Next resp None; SendError e]. rewrite <- app_assoc.
        split; [reflexivity|].
        split; [cbn [forwards]; rewrite HN; right; reflexivity|].
        split; [split; reflexivity | left; reflexivity].
      * exists [Next resp None].
        split; [reflexivity|].
        split; [cbn [forwards]; rewrite HN; left; reflexivity|].
        split; [split; discriminate | right; left; reflexivity].
    + rewrite bind_send_event.
      destruct (events_taken w1) as [[|] w2]; cbn [fst snd].
      * destruct (IH watcher w2 ((tr ++ [Next resp None]) ++ [SendEvent event])%list)
          as (ext & Hext & Hf & Hend & Hout).
        exists (Next resp None :: SendEvent event :: ext).
        split; [rewrite Hext, <- !app_assoc; reflexivity|].
        split; [cbn [forwards]; rewrite HN; split; [reflexivity | exact Hf]|].
        split; [|exact Hout].
        rewrite !ended_cons by reflexivity. exact Hend.
      * exists [Next resp None].
        split; [reflexivity|].
        split; [cbn [forwards]; rewrite HN; exact I|].
        split; [split; discriminate | right; left; reflexivity].
Qed.

Lemma forwards_nothing_after_an_error (key : string) :
  forall (n : nat) (ext before after : list (Watch Event)) (e : error),
    (List.length ext <= n)%nat ->
    forwards Event NewEvent key ext ->
    ext = (before ++ SendError e :: after)%list -> after = [].
Proof.
  induction n as [|n IH]; intros ext before after e Hn Hf Heq.
  { destruct ext; [destruct before; discriminate | cbn in Hn; lia]. }
  destruct ext as [|a rest]; [destruct before; discriminate|].
  destruct a as [k r|resp err|ev|e'| |]; cbn [forwards] in Hf; try contradiction.
  destruct before as [|b before]; [discriminate|].
  cbn [app] in Heq. injection Heq as <- Hrest.
  cbn [List.length] in Hn.
  destruct err as [e0|].
  - destruct (is_client_Error ErrorCodeEventIndexCleared (Some e0)).
    + destruct rest as [|[k r| | | | |] rest']; try contradiction.
      destruct Hf as (_ & _ & Hf).
      destruct before as [|b before]; [discriminate|].
      cbn [app] in Hrest. injection Hrest as <- Hrest.
      apply (IH rest' before after e); [cbn [List.length] in Hn; lia | exact Hf | exact Hrest].
    + destruct (error_eqb e0 context_Canceled).
      * subst rest. destruct before; discriminate.
      * destruct Hf as [-> | ->]; [destruct before; discriminate|].
        destruct before as [|b [|b' before]]; try discriminate.
        injection Hrest as _ <-. reflexivity.
  - destruct (NewEvent resp) as [event [e0|]].
    + destruct Hf as [-> | ->]; [destruct before; discriminate|].
      destruct before as [|b [|b' before]]; try discriminate.
      injection Hrest as _ <-. reflexivity.
    + destruct rest as [|[| |ev'| | |] rest']; try contradiction.
      { destruct before; discriminate. }
      destruct Hf as (_ & Hf).
      destruct before as [|b before]; [discriminate|].
      cbn [app] in Hrest. injection Hrest as <- Hrest.
      apply (IH rest' before after e); [cbn [List.length] in Hn; lia | exact Hf | exact Hrest].
Qed.

(** X8: dispatchWatchEvents, the goroutine behind WatchRouteChanges.  It
    makes a recursive watcher on the key and then forwards: every response
    of the watcher is sent on as the event made of it, in order; a new
    watcher is made, and the loop goes on, exactly after the watcher
    reported that the event index was cleared; any other error of the
    watcher ends the loop and is sent on the errors channel, unless it is
    context.Canceled; an error of NewEvent is sent and ends the loop.  So
    at most one error is ever sent, and nothing after it.  The goroutine
    returns exactly when the loop has ended, and then, and only then, it
    closes the errors channel and after it the events channel; otherwise
    it is blocked in a send that nobody takes, or still forwarding. *)
Theorem dispatchWatchEvents_forwards_until_an_error
  (fuel : nat) (key : string) (w : W) :
  let res := dispatchWatchEvents Event NewEvent fuel key (w, []) in
  exists ext,
    snd (snd res)
    = (NewWatcher key true :: ext
         ++ (if ended Event ext then [CloseErrors; CloseEvents] else []))%list
    /\ forwards Event NewEvent key ext
    /\ (fst res = Ret tt <-> ended Event ext = true)
    /\ (fst res = Ret tt \/ fst res = Abort Blocked \/ fst res = Abort OutOfFuel)
    /\ (forall before e after,
          ext = (before ++ SendError e :: after)%list -> after = []).
Proof.
  cbv zeta. unfold dispatchWatchEvents. rewrite bind_watch_call.
  destruct (keysAPI_Watcher key true w) as [watcher w1]. cbn [fst snd app].
  destruct (dispatchWatchEvents_loop_forwards key fuel watcher w1 [NewWatcher key true])
    as (ext & Hext & Hf & Hend & Hout).
  exists ext.
  destruct (dispatchWatchEvents_loop Event NewEvent fuel key watcher
              (w1, [NewWatcher key true])) as [out [w2 tr2]] eqn:Hloop.
  cbn [fst snd] in Hext, Hend, Hout. subst tr2.
  assert (Hrun :
    defer_ (close_events Event)
      (defer_ (close_errors Event)
         (dispatchWatchEvents_loop Event NewEvent fuel key watcher))
      (w1, [NewWatcher key true])
    = (out, (w2, ([NewWatcher key true] ++ ext)
                   ++ (if ended Event ext then [CloseErrors; CloseEvents] else []))%list)).
  { unfold defer_ at 1 2. rewrite Hloop.
    destruct Hout as [-> | [-> | ->]].
    - rewrite (proj1 Hend eq_refl). cbn. rewrite <- !app_assoc. reflexivity.
    - destruct (ended Event ext) eqn:E;
        [discriminate (proj2 Hend eq_refl)|].
      cbn. rewrite app_nil_r. reflexivity.
    - destruct (ended Event ext) eqn:E;
        [discriminate (proj2 Hend eq_refl)|].
      cbn. rewrite app_nil_r. reflexivity. }
  rewrite Hrun. cbn [fst snd app].
  split; [reflexivity|].
  split; [exact Hf|].
  split; [exact Hend|].
  split; [exact Hout|].
  intros before e after Heq.
  exact (forwards_nothing_after_an_error key _ ext before after e (Nat.le_refl _) Hf Heq).
Qed.

End db_watch.

(** ** Package helpers: what the loaders hand on *)

Section loaded_configuration.

Lemma helpers_LoadConfig_returns
  (json_Decode : string -> error + helpers.RoutingConfig)
  (config_LoadConfig : M Env (option helpers.Config))
  (env : Env) (r : helpers.RoutingConfig) :
  fst (helpers.LoadConfig json_Decode config_LoadConfig env) = Ret r ->
  exists oauth cfg address,
    helpers.OAuth r = Some oauth
    /\ helpers.Config_ r = Some cfg
    /\ nth_error (helpers.Addresses r) 0 = Some address
    /\ helpers.AppsDomain cfg <> ""
    /\ helpers.ApiEndpoint cfg <> ""
    /\ helpers.RoutingApiUrl r = "https://" ++ helpers.ApiEndpoint cfg.
Proof.
  intros H. unfold helpers.LoadConfig in H.
  destruct (helpers.loadConfigJsonFromPath json_Decode env) as [[c|why] env1] eqn:Hc;
    unfold bind at 1 in H; rewrite Hc in H; [|discriminate H].
  destruct (config_LoadConfig env1) as [[cfg|why] env2] eqn:Hcfg;
    unfold bind at 1 in H; rewrite Hcfg in H; [|discriminate H].
  cbn [helpers.with_Config helpers.OAuth helpers.Addresses helpers.Config_] in H.
  destruct (helpers.OAuth c) as [oauth|] eqn:Ho; cbn [is_nil] in H; [|discriminate H].
  destruct (List.length (helpers.Addresses c) =? 0)%nat eqn:Ha; [discriminate H|].
  rewrite bind_deref in H. destruct cfg as [cfg|]; [|discriminate H].
  destruct (helpers.AppsDomain cfg =? "")%string eqn:Hd; [discriminate H|].
  rewrite bind_deref in H.
  destruct (helpers.ApiEndpoint cfg =? "")%string eqn:He; [discriminate H|].
  rewrite bind_deref in H. cbn in H. injection H as <-.
  cbn [helpers.with_RoutingApiUrl helpers.with_Config helpers.OAuth
       helpers.Addresses helpers.Config_ helpers.RoutingApiUrl].
  apply String.eqb_neq in Hd, He.
  destruct (helpers.Addresses c) as [|address rest] eqn:Hl; [discriminate Ha|].
  exists oauth, cfg, address. repeat split; assumption.
Qed.

(** X9: a configuration that a loader returns is complete.  Whatever the
    environment and the file, what helpers.LoadConfig returns has an oauth
    section, at least one address, the configuration of cf-test-helpers
    with a non-empty apps domain and a non-empty API endpoint, and the
    routing API URL made of that endpoint; what the RouterApiConfig loader
    returns has an address, a non-zero port and a non-empty BBS address. *)
Theorem LoadConfig_returns_a_complete_configuration
  (json_Decode : string -> error + helpers.RoutingConfig)
  (config_LoadConfig : M Env (option helpers.Config))
  (json_Decode' : string -> error + router_helpers.RouterApiConfig)
  (env : Env) (r : helpers.RoutingConfig) (r' : router_helpers.RouterApiConfig) :
  fst (helpers.LoadConfig json_Decode config_LoadConfig env) = Ret r ->
  fst (router_helpers.LoadConfig json_Decode' env) = Ret r' ->
  (helpers.OAuth r <> None
   /\ helpers.Addresses r <> []
   /\ (exists address, nth_error (helpers.Addresses r) 0 = Some address)
   /\ exists cfg,
        helpers.Config_ r = Some cfg
        /\ helpers.AppsDomain cfg <> ""
        /\ helpers.ApiEndpoint cfg <> ""
        /\ helpers.RoutingApiUrl r = "https://" ++ helpers.ApiEndpoint cfg)
  /\ (router_helpers.Address r' <> ""
      /\ router_helpers.Port r' <> 0
      /\ router_helpers.BBSAddress r' <> "").
Proof.
  intros H H'. split.
  - destruct (helpers_LoadConfig_returns _ _ _ _ H)
      as (oauth & cfg & address & Ho & Hc & Ha & Hd & He & Hu).
    split; [rewrite Ho; discriminate|].
    split; [intros E; rewrite E in Ha; discriminate Ha|].
    split; [exists address; exact Ha|].
    exists cfg. repeat split; assumption.
  - unfold router_helpers.LoadConfig in H'.
    destruct (router_helpers.loadConfigJsonFromPath json_Decode' env)
      as [[c|why] env1] eqn:Hc;
      unfold bind at 1 in H'; rewrite Hc in H'; [|discriminate H'].
    destruct (router_helpers.Address c =? "")%string eqn:Ha; [discriminate H'|].
    destruct (router_helpers.Port c =? 0) eqn:Hp; [discriminate H'|].
    cbn in H'. injection H' as <-.
    apply String.eqb_neq in Ha. apply Z.eqb_neq in Hp.
    destruct (router_helpers.BBSAddress c =? "")%string eqn:Hb.
    + cbn. repeat split; try assumption. discriminate.
    + apply String.eqb_neq in Hb. repeat split; assumption.
Qed.

Lemma LoadConfig_returns_a_complete_configuration_witness :
  (helpers.OAuth
     (helpers.with_RoutingApiUrl
        (helpers.with_Config fakes.sample_RoutingConfig (Some fakes.sample_cf_Config))
        "https://api.bosh-lite.com") <> None
   /\ helpers.Addresses
        (helpers.with_RoutingApiUrl
           (helpers.with_Config fakes.sample_RoutingConfig (Some fakes.sample_cf_Config))
           "https://api.bosh-lite.com") <> []
   /\ (exists address,
         nth_error
           (helpers.Addresses
              (helpers.with_RoutingApiUrl
                 (helpers.with_Config fakes.sample_RoutingConfig
                    (Some fakes.sample_cf_Config))
                 "https://api.bosh-lite.com")) 0 = Some address)
   /\ exists cfg,
        helpers.Config_
          (helpers.with_RoutingApiUrl
             (helpers.with_Config fakes.sample_RoutingConfig (Some fakes.sample_cf_Config))
             "https://api.bosh-lite.com") = Some cfg
        /\ helpers.AppsDomain cfg <> ""
        /\ helpers.ApiEndpoint cfg <> ""
        /\ helpers.RoutingApiUrl
             (helpers.with_RoutingApiUrl
                (helpers.with_Config fakes.sample_RoutingConfig
                   (Some fakes.sample_cf_Config))
                "https://api.bosh-lite.com") = "https://" ++ helpers.ApiEndpoint cfg)
  /\ (router_helpers.Address
        (router_helpers.with_BBSAddress fakes.sample_RouterApiConfig
           router_helpers.DEFAULT_BBS_API_URL) <> ""
      /\ router_helpers.Port
           (router_helpers.with_BBSAddress fakes.sample_RouterApiConfig
              router_helpers.DEFAULT_BBS_API_URL) <> 0
      /\ router_helpers.BBSAddress
           (router_helpers.with_BBSAddress fakes.sample_RouterApiConfig
              router_helpers.DEFAULT_BBS_API_URL) <> "").
Proof.
  apply (LoadConfig_returns_a_complete_configuration
           (fun _ => inr fakes.sample_RoutingConfig) fakes.cf_LoadConfig_sample
           (fun _ => inr fakes.sample_RouterApiConfig) fakes.configured).
  - reflexivity.
  - reflexivity.
Defined.

End loaded_configuration.

Section uaa_theorems.
Import helpers.
Context {W Client Token : Type} {uaa : UAA W Client Token}.

Lemma bind_uaa_call {A B : Type} (f : W -> A * W) (ev : A -> UaaCall Client)
  (k : A -> M (UaaSt (Client := Client)) B) (w : W) (tr : list (UaaCall Client)) :
  bind (uaa_call f ev) k (w, tr)
  = k (fst (f w)) (snd (f w), (tr ++ [ev (fst (f w))])%list).
Proof. unfold bind, uaa_call. cbn. destruct (f w); reflexivity. Qed.

(** X10: NewUaaClient on a configuration that LoadConfig returned.  It
    never fails on a nil pointer of the configuration.  It asks for one
    client, for the token endpoint and port, the client name and secret of
    the oauth section and the SSL setting of the cf configuration, with 3
    retries 500ms apart and an expiration buffer of 30s; an error of that
    call fails the spec.  It returns the client only after one forced
    fetch of a token succeeded, and fails the spec when the fetch fails. *)
Theorem NewUaaClient_on_a_loaded_configuration
  (json_Decode : string -> error + RoutingConfig)
  (config_LoadConfig : M Env (option Config))
  (env : Env) (routerApiConfig : RoutingConfig) (w : W) :
  fst (LoadConfig json_Decode config_LoadConfig env) = Ret routerApiConfig ->
  let res := NewUaaClient (Token := Token) routerApiConfig (w, []) in
  exists c oauth,
    Config_ routerApiConfig = Some c /\ OAuth routerApiConfig = Some oauth
    /\ let cfg := uaa_config c oauth in
       let n := uaaclient_NewClient (Token := Token) cfg w in
       match fst n with
       | (_, Some e) =>
         snd (snd res) = [NewClient cfg (fst (fst n)) (Some e)]
         /\ exists msg, fst res = Abort (Fail msg)
       | (None, None) =>
         snd (snd res) = [NewClient cfg None None]
         /\ exists msg, fst res = Abort (Panic msg)
       | (Some client, None) =>
         let f := uaaClient_FetchToken client true (snd n) in
         snd (snd res) = [NewClient cfg (Some client) None;
                          FetchToken client true (snd (fst f))]
         /\ match snd (fst f) with
            | None => fst res = Ret client
            | Some e => exists msg, fst res = Abort (Fail msg)
            end
       end.
Proof.
  intros Hload.
  destruct (helpers_LoadConfig_returns json_Decode config_LoadConfig env
              routerApiConfig Hload) as (oauth & c & _ & Ho & Hc & _).
  cbv zeta. exists c, oauth. split; [exact Hc|]. split; [exact Ho|].
  unfold NewUaaClient. rewrite Ho, Hc. rewrite !bind_deref.
  change (TokenEndpoint oauth ++ ":" ++ itoa (Port oauth))
    with (UaaEndpoint (uaa_config c oauth)).
  rewrite bind_uaa_call.
  change {| UaaEndpoint := UaaEndpoint (uaa_config c oauth);
            SkipVerification := SkipSSLValidation c;
            UaaConfig_ClientName := ClientName oauth;
            UaaConfig_ClientSecret := ClientSecret oauth;
            MaxNumberOfRetries := 3;
            RetryInterval := 500 * time_Millisecond;
            ExpirationBufferInSec := 30 |}
    with (uaa_config c oauth).
  destruct (uaaclient_NewClient (uaa_config c oauth) w) as [[uaaClient err] w1].
  cbn [fst snd app].
  destruct err as [e|]; cbn [Expect_ToNot_HaveOccurred].
  { rewrite bind_abort. cbn [fst snd]. destruct uaaClient;
      (split; [reflexivity | eexists; reflexivity]). }
  rewrite bind_ret, bind_deref.
  destruct uaaClient as [client|]; [|split; [reflexivity | eexists; reflexivity]].
  rewrite bind_uaa_call.
  destruct (uaaClient_FetchToken client true w1) as [[token err] w2].
  cbn [fst snd app].
  split; [destruct err; reflexivity|].
  destruct err as [e|]; cbn [Expect_ToNot_HaveOccurred].
  - rewrite bind_abort. eexists; reflexivity.
  - reflexivity.
Qed.

End uaa_theorems.

Section uaa_examples.
Import helpers fakes.

Lemma NewUaaClient_on_a_loaded_configuration_witness :
  fst (NewUaaClient (Token := string)
         (with_RoutingApiUrl (with_Config sample_RoutingConfig (Some sample_cf_Config))
            "https://api.bosh-lite.com")
         ({| tokens_given := 0 |}, []))
  = Ret "tcp_emitter"
  /\ exists c oauth,
       Config_ (with_RoutingApiUrl (with_Config sample_RoutingConfig (Some sample_cf_Config))
                  "https://api.bosh-lite.com") = Some c
       /\ OAuth (with_RoutingApiUrl (with_Config sample_RoutingConfig (Some sample_cf_Config))
                   "https://api.bosh-lite.com") = Some oauth
       /\ UaaEndpoint (uaa_config c oauth) = "https://uaa.bosh-lite.com:443".
Proof.
  split; [reflexivity|].
  destruct (NewUaaClient_on_a_loaded_configuration (Token := string)
              (fun _ => inr sample_RoutingConfig) cf_LoadConfig_sample configured
              (with_RoutingApiUrl (with_Config sample_RoutingConfig (Some sample_cf_Config))
                 "https://api.bosh-lite.com")
              {| tokens_given := 0 |} eq_refl) as (c & oauth & Hc & Ho & _).
  exists c, oauth. split; [exact Hc|]. split; [exact Ho|].
  cbn in Hc, Ho. injection Hc as <-. injection Ho as <-. reflexivity.
Defined.

End uaa_examples.

(** ** Package router: the specs made of configureMapping and verifyConnection *)

Section router_specs.
Import router.
Context {W : Type} {net : Net W}.
Variable externalIP : string.
Variable routerApiConfig : router_helpers.RouterApiConfig.
Variable node : Z.
Variable json_Marshal : list MappingRequest -> string * option error.

#[local] Hint Rewrite @bind_call @bind_conn_Read_into @run_send_empty @run_call : go_calls.

(** One attempt, from any state: if it reports nil, it read back the echo. *)
Lemma checkConnection_attempt (address serverId : string) (w : W) (tr : list Event) :
  exists v w' ext,
    checkConnection [] address serverId (w, tr) = (Ret [v], (w', (tr ++ ext)%list))
    /\ posts ext = [] /\ attempts ext = 1%nat
    /\ (v = None -> echoed address serverId ext).
Proof.
  destruct (checkConnection [] address serverId (w, tr)) as [out [w' tr']] eqn:H.
  unfold checkConnection in H.
  run H.
  all: inversion H; subst; clear H.
  all: do 3 eexists; split; [ rewrite <- ?app_assoc; reflexivity | ].
  all: split; [reflexivity|]; split; [reflexivity|].
  all: intros Hv; try discriminate Hv.
  all: repeat match goal with
       | Hb : negb (is_nil ?x) = _ |- _ =>
           first [ is_var x; destruct x; try discriminate Hb; clear Hb
                 | try discriminate Hb; clear Hb ]
       end.
  all: try discriminate Hv.
  subst. apply negb_false_iff, String.eqb_eq in Heqb1.
  exists [], c, z, s0. unfold echo_of, message_at.
  rewrite length_zeros. split; [reflexivity | exact Heqb1].
Qed.

Lemma echoed_app (address serverId : string) (before ext : list Event) :
  echoed address serverId ext -> echoed address serverId (before ++ ext).
Proof.
  intros (b & conn & n & data & -> & He).
  exists (before ++ b)%list, conn, n, data.
  split; [rewrite app_assoc; reflexivity | exact He].
Qed.

(** The loop of verifyConnection, from any state. *)
Lemma verifyConnection_loop_run (address serverId : string) :
  forall (fuel : nat) (i : Z) (v : option error) (w : W) (tr : list Event),
    0 <= i <= 10 -> (Z.to_nat (10 - i) < fuel)%nat ->
    exists out w' ext,
      verifyConnection_loop fuel address serverId i [v] (w, tr)
      = (out, (w', (tr ++ ext)%list))
      /\ posts ext = []
      /\ Z.of_nat (attempts ext) <= 10 - i
      /\ ((out = Ret tt /\ ((ext = [] /\ v = None) \/ echoed address serverId ext))
          \/ (exists e, out = Abort (not_to_have_occurred e)
                        /\ Z.of_nat (attempts ext) = 10 - i)).
Proof.
  induction fuel as [|fuel IH]; intros i v w tr Hi Hfuel; [lia|].
  cbn [verifyConnection_loop].
  destruct v as [e|]; cbn [is_nil negb].
  2:{ exists (Ret tt), w, []. rewrite app_nil_r.
      split; [reflexivity|]. split; [reflexivity|].
      split; [unfold attempts; cbn [filter List.length]; lia|].
      left. split; [reflexivity|]. left. split; reflexivity. }
  destruct (i <? 10) eqn:Hlt.
  - apply Z.ltb_lt in Hlt.
    destruct (checkConnection_attempt address serverId w tr)
      as (v' & w1 & ext1 & Hc & Hp1 & Ha1 & He1).
    rewrite (run_bind _ _ _ _ _ Hc).
    destruct (IH (i + 1) v' w1 (tr ++ ext1)%list ltac:(lia) ltac:(lia))
      as (out & w' & ext & Hrun & Hp & Ha & Hout).
    exists out, w', (ext1 ++ ext)%list.
    split; [rewrite Hrun, app_assoc; reflexivity|].
    split; [rewrite posts_app, Hp1, Hp; reflexivity|].
    rewrite attempts_app, Ha1.
    split; [lia|].
    destruct Hout as [(-> & [(-> & ->) | Hecho]) | (e' & -> & Ha')].
    + left. split; [reflexivity|]. right. rewrite app_nil_r. exact (He1 eq_refl).
    + left. split; [reflexivity|]. right. apply echoed_app. exact Hecho.
    + right. exists e'. split; [reflexivity | lia].
  - apply Z.ltb_ge in Hlt. assert (i = 10) by lia. subst i.
    exists (Abort (not_to_have_occurred e)), w, []. rewrite app_nil_r.
    split; [reflexivity|]. split; [reflexivity|].
    split; [unfold attempts; cbn [filter List.length]; lia|].
    right. exists e. split; reflexivity.
Qed.

(** verifyConnection, from any state: it goes on only after the echo of the
    server was read back, within eleven attempts, and posts nothing. *)
Lemma verifyConnection_run (fuel : nat) (externalPort : Z) (serverId : string)
  (w : W) (tr : list Event) :
  (11 <= fuel)%nat ->
  let address :=
    (router_helpers.Address routerApiConfig ++ ":" ++ itoa externalPort)%string in
  exists out w' ext,
    verifyConnection routerApiConfig fuel externalPort serverId (w, tr)
    = (out, (w', (tr ++ ext)%list))
    /\ posts ext = []
    /\ (1 <= attempts ext <= 11)%nat
    /\ ((out = Ret tt /\ echoed address serverId ext)
        \/ (exists e, out = Abort (not_to_have_occurred e)
                      /\ attempts ext = 11%nat)).
Proof.
  intros Hfuel address. unfold verifyConnection. fold address.
  destruct (checkConnection_attempt address serverId w tr)
    as (v & w1 & ext1 & Hc & Hp1 & Ha1 & He1).
  rewrite (run_bind _ _ _ _ _ Hc).
  destruct (verifyConnection_loop_run address serverId fuel 0 v w1 (tr ++ ext1)%list
              ltac:(lia) ltac:(lia))
    as (out & w' & ext & Hrun & Hp & Ha & Hout).
  exists out, w', (ext1 ++ ext)%list.
  split; [rewrite Hrun, app_assoc; reflexivity|].
  split; [rewrite posts_app, Hp1, Hp; reflexivity|].
  rewrite attempts_app, Ha1.
  split; [lia|].
  destruct Hout as [(-> & [(-> & ->) | Hecho]) | (e' & -> & Ha')].
  - left. split; [reflexivity|]. rewrite app_nil_r. exact (He1 eq_refl).
  - left. split; [reflexivity|]. apply echoed_app. exact Hecho.
  - right. exists e'. split; [reflexivity | lia].
Qed.

(** configureMapping, from any state. *)
Lemma configureMapping_step (externalPort : Z) (backendPorts : list Z)
  (w : W) (tr : list Event) :
  exists out w' ext,
    configureMapping externalIP routerApiConfig json_Marshal
      externalPort backendPorts (w, tr) = (out, (w', (tr ++ ext)%list))
    /\ attempts ext = 0%nat
    /\ ((out = Ret tt
         /\ exists ev, ext = [ev]
                       /\ mapped externalIP routerApiConfig json_Marshal
                            externalPort backendPorts ev)
        \/ ((exists msg, out = Abort (Fail msg)) /\ List.length (posts ext) <= 1)%nat).
Proof.
  destruct (configureMapping_run externalIP routerApiConfig json_Marshal
              externalPort backendPorts w tr)
    as (out & w' & ext & Hrun & Hout & Hm & Hp).
  exists out, w', ext. split; [exact Hrun|].
  destruct (snd (json_Marshal (mapping_requests externalIP externalPort backendPorts)))
    as [e|] eqn:E.
  - destruct Hm as [-> Hfail]; [discriminate|].
    split; [reflexivity|]. right. split; [exact Hfail | cbn; lia].
  - destruct (Hp eq_refl) as (result & -> & Hok).
    split; [reflexivity|].
    destruct Hout as [-> | Hfail].
    + left. split; [reflexivity|]. eexists. split; [reflexivity|].
      destruct (proj1 Hok eq_refl) as (resp & -> & Hs).
      exists resp. split; [reflexivity | exact Hs].
    + right. split; [exact Hfail | cbn; lia].
Qed.

(** X11: the spec "routes traffic to sample receiver".  With fuel for the
    rounds of verifyConnection every run ends, passed or failed, after at
    most two requests to the router API and 22 connection attempts.  It
    passes only when the external port was mapped to the first receiver and
    answered 200 OK, the echo of serverId1 was then read back on that port,
    the same port was mapped to the second receiver alone and answered 200
    OK, and the echo of serverId2 was then read back on it.  The mapping is
    altered only after the first receiver answered: a run with a second
    request has the first mapping accepted and the echo of serverId1 before
    it. *)
Theorem routes_traffic_to_the_mapped_receiver (fuel : nat) (w : W) :
  (11 <= fuel)%nat ->
  let res := It_routes_traffic_to_sample_receiver externalIP routerApiConfig node
               json_Marshal fuel (w, []) in
  let address :=
    (router_helpers.Address routerApiConfig ++ ":" ++ itoa (60000 + node))%string in
  let tr := snd (snd res) in
  (fst res = Ret tt \/ exists msg, fst res = Abort (Fail msg))
  /\ (attempts tr <= 22)%nat
  /\ (List.length (posts tr) <= 2)%nat
  /\ (fst res = Ret tt ->
      exists post1 ext1 post2 ext2,
        tr = (post1 :: ext1 ++ post2 :: ext2)%list
        /\ mapped externalIP routerApiConfig json_Marshal
             (60000 + node) [9000 + node] post1
        /\ posts ext1 = [] /\ echoed address "serverId1" ext1
        /\ mapped externalIP routerApiConfig json_Marshal
             (60000 + node) [9500 + node] post2
        /\ posts ext2 = [] /\ echoed address "serverId2" ext2)
  /\ (List.length (posts tr) = 2%nat ->
      exists post1 ext1 rest,
        tr = (post1 :: ext1 ++ rest)%list
        /\ mapped externalIP routerApiConfig json_Marshal
             (60000 + node) [9000 + node] post1
        /\ posts ext1 = [] /\ echoed address "serverId1" ext1).
Proof.
  intros Hfuel. cbv zeta. unfold It_routes_traffic_to_sample_receiver.
  set (address := (router_helpers.Address routerApiConfig ++ ":" ++ itoa (60000 + node))%string).
  destruct (configureMapping_step (60000 + node) [9000 + node] w [])
    as (o1 & w1 & e1 & H1 & Ha1 & Ho1).
  rewrite (run_bind _ _ _ _ _ H1). cbn [app] in *.
  destruct Ho1 as [(-> & post1 & -> & Hm1) | ((msg & ->) & Hl1)].
  2:{ cbn [fst snd].
      split; [right; eexists; reflexivity|].
      split; [lia|]. split; [lia|].
      split; [discriminate|]. intros Hc; lia. }
  destruct (verifyConnection_run fuel (60000 + node) "serverId1" w1 [post1] Hfuel)
    as (o2 & w2 & e2 & H2 & Hp2 & Ha2 & Ho2).
  fold address in Ho2.
  rewrite (run_bind _ _ _ _ _ H2).
  assert (Hpost1 : posts [post1] = [("http://" ++ router_helpers.Address routerApiConfig
                                      ++ ":" ++ itoa (router_helpers.Port routerApiConfig)
                                      ++ "/v0/external_ports",
                                    "application/json",
                                    fst (json_Marshal
                                           (mapping_requests externalIP (60000 + node)
                                              [9000 + node])))]%string).
  { destruct Hm1 as (resp & -> & _). reflexivity. }
  assert (Hatt1 : attempts [post1] = 0%nat).
  { destruct Hm1 as (resp & -> & _). reflexivity. }
  destruct Ho2 as [(-> & Hecho1) | (e & -> & Ha2')].
  2:{ cbn [fst snd].
      split; [right; eexists; reflexivity|].
      rewrite attempts_app, posts_app, Hp2, Hpost1, Hatt1.
      split; [lia|]. split; [cbn; lia|].
      split; [discriminate|]. cbn. discriminate. }
  destruct (configureMapping_step (60000 + node) [9500 + node] w2 ([post1] ++ e2)%list)
    as (o3 & w3 & e3 & H3 & Ha3 & Ho3).
  rewrite (run_bind _ _ _ _ _ H3).
  destruct Ho3 as [(-> & post2 & -> & Hm2) | ((msg & ->) & Hl3)].
  2:{ cbn [fst snd].
      split; [right; eexists; reflexivity|].
      rewrite !attempts_app, !posts_app, Hp2, Hpost1, Hatt1, Ha3, !length_app.
      split; [lia|]. split; [cbn [List.length app]; lia|].
      split; [discriminate|].
      intros _. exists post1, e2, e3. rewrite <- app_assoc.
      split; [reflexivity|]. split; [exact Hm1|]. split; [exact Hp2 | exact Hecho1]. }
  destruct (verifyConnection_run fuel (60000 + node) "serverId2" w3
              (([post1] ++ e2) ++ [post2])%list Hfuel)
    as (o4 & w4 & e4 & H4 & Hp4 & Ha4 & Ho4).
  fold address in Ho4.
  rewrite H4. cbn [fst snd].
  assert (Hatt2 : attempts [post2] = 0%nat).
  { destruct Hm2 as (resp & -> & _). reflexivity. }
  assert (Hlen2 : List.length (posts [post2]) = 1%nat).
  { destruct Hm2 as (resp & -> & _). reflexivity. }
  rewrite !attempts_app, !posts_app, Hp2, Hp4, Hpost1, Hatt1, Hatt2, !length_app, Hlen2.
  split; [destruct Ho4 as [(-> & _) | (e & -> & _)];
          [left; reflexivity | right; eexists; reflexivity]|].
  split; [lia|]. split; [cbn [List.length app]; lia|].
  split.
  - intros Hret. destruct Ho4 as [(_ & Hecho2) | (e & -> & _)]; [|discriminate Hret].
    exists post1, e2, post2, e4.
    split; [rewrite <- !app_assoc; reflexivity|].
    repeat split; assumption.
  - intros _. exists post1, e2, (post2 :: e4).
    split; [rewrite <- !app_assoc; reflexivity|].
    split; [exact Hm1|]. split; [exact Hp2 | exact Hecho1].
Qed.

(** X12: the spec "sends traffic on the different external ports to the
    same container port".  With fuel for the rounds of verifyConnection
    every run ends after at most 22 connection attempts, and nothing is
    asked of the router API.  It passes only when the echo of serverId6
    was read back on the first external port and, after that, on the
    second; the second port is tried only after the first answered. *)
Theorem sends_traffic_on_both_external_ports (fuel : nat) (w : W) :
  (11 <= fuel)%nat ->
  let res := It_sends_traffic_on_the_different_external_ports routerApiConfig node
               fuel (w, []) in
  let address1 :=
    (router_helpers.Address routerApiConfig ++ ":" ++ itoa (34500 + node))%string in
  let address2 :=
    (router_helpers.Address routerApiConfig ++ ":" ++ itoa (12300 + node))%string in
  let tr := snd (snd res) in
  posts tr = []
  /\ (1 <= attempts tr <= 22)%nat
  /\ ((fst res = Ret tt
       /\ exists ext1 ext2,
            tr = (ext1 ++ ext2)%list
            /\ echoed address1 "serverId6" ext1
            /\ echoed address2 "serverId6" ext2)
      \/ (exists msg, fst res = Abort (Fail msg))
         /\ (attempts tr = 11%nat
             \/ exists ext1 ext2,
                  tr = (ext1 ++ ext2)%list
                  /\ echoed address1 "serverId6" ext1
                  /\ attempts ext2 = 11%nat)).
Proof.
  intros Hfuel. cbv zeta. unfold It_sends_traffic_on_the_different_external_ports.
  destruct (verifyConnection_run fuel (34500 + node) "serverId6" w [] Hfuel)
    as (o1 & w1 & e1 & H1 & Hp1 & Ha1 & Ho1).
  rewrite (run_bind _ _ _ _ _ H1). cbn [app] in *.
  destruct Ho1 as [(-> & Hecho1) | (e & -> & Ha1')].
  2:{ cbn [fst snd]. split; [exact Hp1|]. split; [lia|].
      right. split; [eexists; reflexivity|]. left. exact Ha1'. }
  destruct (verifyConnection_run fuel (12300 + node) "serverId6" w1 e1 Hfuel)
    as (o2 & w2 & e2 & H2 & Hp2 & Ha2 & Ho2).
  rewrite H2. cbn [fst snd].
  rewrite posts_app, attempts_app, Hp1, Hp2.
  split; [reflexivity|]. split; [lia|].
  destruct Ho2 as [(-> & Hecho2) | (e & -> & Ha2')].
  - left. split; [reflexivity|]. exists e1, e2. repeat split; assumption.
  - right. split; [eexists; reflexivity|]. right.
    exists e1, e2. repeat split; assumption.
Qed.

End router_specs.

Section router_specs_examples.
Import router fakes.

(** Both receivers answer in turn: the spec passes after two requests and
    two attempts. *)
Example routes_traffic_to_both_receivers :
  let res := It_routes_traffic_to_sample_receiver "10.244.0.1" router_api 1
               marshal_requests 11 (network ["serverId1"; "serverId2"] 0, []) in
  fst res = Ret tt
  /\ attempts (snd (snd res)) = 2%nat
  /\ posts (snd (snd res)) =
     [("http://10.244.8.2:9999/v0/external_ports", "application/json", "60001:1");
      ("http://10.244.8.2:9999/v0/external_ports", "application/json", "60001:1")].
Proof. vm_compute. repeat split. Qed.

Lemma routes_traffic_to_the_mapped_receiver_witness :
  (attempts (snd (snd (It_routes_traffic_to_sample_receiver "10.244.0.1" router_api 1
                        marshal_requests 11
                        (network ["serverId1"; "serverId2"] 0, []))))
  <= 22)%nat.
Proof.
  assert (Hfuel : (11 <= 11)%nat) by lia.
  destruct (routes_traffic_to_the_mapped_receiver "10.244.0.1" router_api 1
              marshal_requests 11 (network ["serverId1"; "serverId2"] 0) Hfuel)
    as (_ & H & _).
  exact H.
Defined.

Lemma sends_traffic_on_both_external_ports_witness :
  posts (snd (snd (It_sends_traffic_on_the_different_external_ports router_api 1 11
                     (network ["serverId6"] 0, [])))) = [].
Proof.
  assert (Hfuel : (11 <= 11)%nat) by lia.
  destruct (sends_traffic_on_both_external_ports router_api 1 11
              (network ["serverId6"] 0) Hfuel) as (H & _).
  exact H.
Defined.

End router_specs_examples.

(** ** The other statsd specs *)

Section stats_specs.
Import stats.
Context {W : Type} {api : RoutingAPI W}.

Lemma times_app (expected : string) (a b : list string) :
  times expected (a ++ b) = (times expected a + times expected b)%nat.
Proof. unfold times. rewrite filter_app, length_app. reflexivity. Qed.

Lemma times_absent (expected : string) (l : list string) :
  ~ In expected l -> times expected l = 0%nat.
Proof.
  unfold times. induction l as [|x l IH]; intros Hn; [reflexivity|].
  cbn [filter]. destruct (String.eqb expected x) eqn:E.
  - apply String.eqb_eq in E. subst x. elim Hn. left; reflexivity.
  - apply IH. intros Hin. apply Hn. right; exact Hin.
Qed.

Lemma times_one (expected : string) : times expected [expected] = 1%nat.
Proof. unfold times. cbn [filter]. rewrite String.eqb_refl. reflexivity. Qed.

(** One [Eventually ... Receive(Equal(expected))], from any state: it
    passes when it has taken the expected line, once, as the last line it
    took, and fails without having seen it. *)
Lemma Eventually_Should_Receive_Equal_outcome (expected : string) :
  forall (polls : nat) (w : W) (tr : list Event),
  exists out w' ext,
    Eventually_Should_Receive_Equal polls expected (w, tr)
      = (out, (w', (tr ++ ext)%list))
    /\ ((out = Ret tt
         /\ exists dropped,
              lines ext = (dropped ++ [expected])%list /\ ~ In expected dropped)
        \/ ((exists msg, out = Abort (Fail msg)) /\ ~ In expected (lines ext))).
Proof.
  induction polls as [|polls IH]; intros w tr.
  - do 3 eexists. split; [cbn; rewrite app_nil_r; reflexivity|].
    right. split; [eexists; reflexivity | intros []].
  - cbn [Eventually_Should_Receive_Equal]. rewrite stats_bind_call.
    destruct (fakeStatsdChan_receive w) as [r w1]; cbn [fst snd].
    destruct r as [|text|].
    + destruct (IH w1 (tr ++ [Receive Nothing])%list)
        as (out & w' & ext & -> & Ho).
      exists out, w', (Receive Nothing :: ext).
      split; [rewrite <- app_assoc; reflexivity | exact Ho].
    + destruct (text =? expected)%string eqn:E.
      * apply String.eqb_eq in E. subst text.
        exists (Ret tt), w1, [Receive (Line expected)].
        split; [reflexivity|]. left. split; [reflexivity|].
        exists []. split; [reflexivity | intros []].
      * apply String.eqb_neq in E.
        destruct (IH w1 (tr ++ [Receive (Line text)])%list)
          as (out & w' & ext & -> & Ho).
        exists out, w', (Receive (Line text) :: ext).
        split; [rewrite <- app_assoc; reflexivity|].
        change (lines (Receive (Line text) :: ext)) with (text :: lines ext).
        destruct Ho as [(-> & dropped & Hd & Hn) | (Hf & Hn)].
        -- left. split; [reflexivity|]. exists (text :: dropped). rewrite Hd.
           split; [reflexivity|].
           intros [Heq | Hin]; [congruence | exact (Hn Hin)].
        -- right. split; [exact Hf|].
           intros [Heq | Hin]; [congruence | exact (Hn Hin)].
    + do 3 eexists. split; [reflexivity|].
      right. split; [eexists; reflexivity | intros []].
Qed.

(** The same, counted: a pass adds one to the times the line was taken, a
    failure adds nothing. *)
Lemma Eventually_Should_Receive_Equal_counts (expected : string)
  (polls : nat) (w : W) (tr : list Event) :
  exists out w' ext,
    Eventually_Should_Receive_Equal polls expected (w, tr)
      = (out, (w', (tr ++ ext)%list))
    /\ ((out = Ret tt /\ times expected (lines ext) = 1%nat
         /\ exists before, lines ext = (before ++ [expected])%list)
        \/ ((exists msg, out = Abort (Fail msg))
            /\ times expected (lines ext) = 0%nat)).
Proof.
  destruct (Eventually_Should_Receive_Equal_outcome expected polls w tr)
    as (out & w' & ext & Hrun & Ho).
  exists out, w', ext. split; [exact Hrun|].
  destruct Ho as [(-> & dropped & Hd & Hn) | (Hf & Hn)].
  - left. split; [reflexivity|]. split; [|exists dropped; exact Hd].
    rewrite Hd, times_app, (times_absent _ _ Hn), times_one. reflexivity.
  - right. split; [exact Hf | exact (times_absent _ _ Hn)].
Qed.

(** X13: the specs "Gets statsd messages for existing routes" and "Gets
    statsd messages for new routes".  The first passes exactly when the
    line routing_api.total_http_routes:1|g was taken from the channel
    twice, and then that line is the last one taken.  The second upserts
    the route first, without looking at the error of the upsert, and passes
    exactly when the line routing_api.total_http_routes:+1|g was taken
    after that.  Both fail otherwise. *)
Theorem statsd_totals_are_seen_twice (polls1 polls2 polls : nat) (w : W) :
  let existing := It_gets_statsd_messages_for_existing_routes polls1 polls2 (w, []) in
  let fresh := It_gets_statsd_messages_for_new_routes polls (w, []) in
  (fst existing = Ret tt \/ exists msg, fst existing = Abort (Fail msg))
  /\ (fst existing = Ret tt
      <-> times total_http_routes_one (lines (snd (snd existing))) = 2%nat)
  /\ (fst existing = Ret tt ->
      exists before,
        lines (snd (snd existing)) = (before ++ [total_http_routes_one])%list)
  /\ (fst fresh = Ret tt \/ exists msg, fst fresh = Abort (Fail msg))
  /\ (exists err rest,
        snd (snd fresh) = UpsertRoutes [route1] err :: rest
        /\ lines rest = lines (snd (snd fresh)))
  /\ (fst fresh = Ret tt
      <-> times total_http_routes_plus (lines (snd (snd fresh))) = 1%nat).
Proof.
  cbv zeta.
  unfold It_gets_statsd_messages_for_existing_routes,
    It_gets_statsd_messages_for_new_routes.
  assert (Hexisting :
    let existing :=
      bind (Eventually_Should_Receive_Equal polls1 total_http_routes_one)
           (fun _ => Eventually_Should_Receive_Equal polls2 total_http_routes_one)
           (w, []) in
    (fst existing = Ret tt \/ exists msg, fst existing = Abort (Fail msg))
    /\ (fst existing = Ret tt
        <-> times total_http_routes_one (lines (snd (snd existing))) = 2%nat)
    /\ (fst existing = Ret tt ->
        exists before,
          lines (snd (snd existing)) = (before ++ [total_http_routes_one])%list)).
  { cbv zeta.
    destruct (Eventually_Should_Receive_Equal_counts total_http_routes_one polls1 w [])
      as (o1 & w1 & e1 & H1 & Ho1).
    rewrite (run_bind _ _ _ _ _ H1). cbn [app] in *.
    destruct Ho1 as [(-> & Ht1 & _) | ((msg & ->) & Ht1)].
    2:{ cbn [fst snd]. rewrite Ht1.
        split; [right; eexists; reflexivity|].
        split; [split; discriminate | discriminate]. }
    destruct (Eventually_Should_Receive_Equal_counts total_http_routes_one polls2 w1 e1)
      as (o2 & w2 & e2 & H2 & Ho2).
    rewrite H2. cbn [fst snd]. rewrite lines_app, times_app, Ht1.
    destruct Ho2 as [(-> & Ht2 & (before & Hb)) | ((msg & ->) & Ht2)]; rewrite Ht2.
    - split; [left; reflexivity|]. split; [split; reflexivity|].
      intros _. exists (lines e1 ++ before)%list. rewrite Hb, app_assoc. reflexivity.
    - split; [right; eexists; reflexivity|].
      split; [split; discriminate | discriminate]. }
  destruct Hexisting as (He1 & He2 & He3).
  split; [exact He1|]. split; [exact He2|]. split; [exact He3|].
  rewrite stats_bind_call. cbn [fst snd app].
  destruct (client_UpsertRoutes [route1] w) as [err w1]. cbn [fst snd].
  destruct (Eventually_Should_Receive_Equal_counts total_http_routes_plus polls w1
              [UpsertRoutes [route1] err])
    as (o2 & w2 & e2 & H2 & Ho2).
  rewrite H2. cbn [fst snd app].
  change (lines (UpsertRoutes [route1] err :: e2)) with (lines e2).
  split; [destruct Ho2 as [(-> & _) | ((msg & ->) & _)];
          [left; reflexivity | right; eexists; reflexivity]|].
  split; [exists err, e2; split; reflexivity|].
  destruct Ho2 as [(-> & Ht2 & _) | ((msg & ->) & Ht2)]; rewrite Ht2;
    split; try reflexivity; discriminate.
Qed.

End stats_specs.

(** ** "should increase subscriptions by 4" *)

Section stats_subscriptions.
Import stats.
Context {W Stream : Type} {api : RoutingAPI W} {source : EventSource W Stream}.

Lemma bind_SubscribeToEvents {B : Type}
  (k : error + Stream -> M (SubSt (Stream := Stream)) B)
  (w : W) (tr : list Event) (calls : list (StreamCall Stream)) :
  bind SubscribeToEvents_ k ((w, tr), calls)
  = k (fst (client_SubscribeToEvents w))
      ((snd (client_SubscribeToEvents w), tr),
       (calls ++ [SubscribeToEvents (fst (client_SubscribeToEvents w))])%list).
Proof.
  unfold bind, SubscribeToEvents_. cbn [fst snd].
  destruct (client_SubscribeToEvents w); reflexivity.
Qed.

Lemma run_Close (eventStream : Stream)
  (w : W) (tr : list Event) (calls : list (StreamCall Stream)) :
  Close_ eventStream ((w, tr), calls)
  = (Ret tt, ((snd (eventStream_Close eventStream w), tr),
              (calls ++ [StreamClose eventStream
                           (fst (eventStream_Close eventStream w))])%list)).
Proof.
  unfold Close_. cbn [fst snd]. destruct (eventStream_Close eventStream w); reflexivity.
Qed.

(** A deferred Close, around a body that ends: the stream is closed after
    the body, whether it passed or failed. *)
Lemma defer_Close (eventStream : Stream) (m : M (SubSt (Stream := Stream)) unit)
  (s : SubSt) (out : outcome unit) (w : W) (tr : list Event)
  (calls : list (StreamCall Stream)) :
  m s = (out, ((w, tr), calls)) ->
  (out = Ret tt \/ exists msg, out = Abort (Fail msg)) ->
  defer_ (Close_ eventStream) m s
  = (out, ((snd (eventStream_Close eventStream w), tr),
           (calls ++ [StreamClose eventStream
                        (fst (eventStream_Close eventStream w))])%list)).
Proof.
  intros Hm Ho. unfold defer_. rewrite Hm, run_Close.
  destruct Ho as [-> | (msg & ->)]; reflexivity.
Qed.

(** The four receives, in the state of the spec. *)
Lemma four_receives (polls1 polls2 polls3 polls4 : nat)
  (w : W) (calls : list (StreamCall Stream)) :
  let m :=
    bind (lift (Eventually_Should_Receive_Equal polls1 total_http_subscriptions_plus))
      (fun _ =>
       bind (lift (Eventually_Should_Receive_Equal polls2 total_http_subscriptions_plus))
         (fun _ =>
          bind (lift (Eventually_Should_Receive_Equal polls3 total_http_subscriptions_plus))
            (fun _ =>
             lift (Eventually_Should_Receive_Equal polls4
                     total_http_subscriptions_plus)))) in
  exists out w' tr,
    m ((w, []), calls) = (out, ((w', tr), calls))
    /\ (out = Ret tt \/ exists msg, out = Abort (Fail msg))
    /\ (out = Ret tt <-> times total_http_subscriptions_plus (lines tr) = 4%nat)
    /\ (times total_http_subscriptions_plus (lines tr) <= 4)%nat.
Proof.
  cbv zeta.
  assert (Hlift : forall polls (w0 : W) (tr0 : list Event)
                         (k : unit -> M (SubSt (Stream := Stream)) unit),
    exists out w1 ext,
      bind (lift (Eventually_Should_Receive_Equal polls total_http_subscriptions_plus)) k
           ((w0, tr0), calls)
      = match out with
        | Ret a => k a ((w1, (tr0 ++ ext)%list), calls)
        | Abort why => (Abort why, ((w1, (tr0 ++ ext)%list), calls))
        end
      /\ lift (Eventually_Should_Receive_Equal polls total_http_subscriptions_plus)
           ((w0, tr0), calls)
         = (out, ((w1, (tr0 ++ ext)%list), calls))
      /\ ((out = Ret tt /\ times total_http_subscriptions_plus (lines ext) = 1%nat)
          \/ ((exists msg, out = Abort (Fail msg))
              /\ times total_http_subscriptions_plus (lines ext) = 0%nat))).
  { intros polls w0 tr0 k.
    destruct (Eventually_Should_Receive_Equal_counts total_http_subscriptions_plus
                polls w0 tr0) as (out & w1 & ext & Hrun & Ho).
    exists out, w1, ext.
    assert (Hl : lift (Eventually_Should_Receive_Equal polls total_http_subscriptions_plus)
                   ((w0, tr0), calls) = (out, ((w1, (tr0 ++ ext)%list), calls))).
    { unfold lift. cbn [fst snd]. rewrite Hrun. reflexivity. }
    split; [unfold bind; rewrite Hl; destruct out; reflexivity|].
    split; [exact Hl|].
    destruct Ho as [(-> & Ht & _) | (Hf & Ht)];
      [left; split; [reflexivity | exact Ht] | right; split; assumption]. }
  destruct (Hlift polls1 w [] (fun _ =>
       bind (lift (Eventually_Should_Receive_Equal polls2 total_http_subscriptions_plus))
         (fun _ =>
          bind (lift (Eventually_Should_Receive_Equal polls3 total_http_subscriptions_plus))
            (fun _ =>
             lift (Eventually_Should_Receive_Equal polls4
                     total_http_subscriptions_plus)))))
    as (o1 & w1 & e1 & -> & _ & Ho1).
  cbn [app].
  destruct Ho1 as [(-> & Ht1) | ((msg & ->) & Ht1)].
  2:{ do 3 eexists. split; [reflexivity|]. rewrite Ht1.
      split; [right; eexists; reflexivity|].
      split; [split; discriminate | lia]. }
  destruct (Hlift polls2 w1 e1 (fun _ =>
          bind (lift (Eventually_Should_Receive_Equal polls3 total_http_subscriptions_plus))
            (fun _ =>
             lift (Eventually_Should_Receive_Equal polls4
                     total_http_subscriptions_plus))))
    as (o2 & w2 & e2 & -> & _ & Ho2).
  destruct Ho2 as [(-> & Ht2) | ((msg & ->) & Ht2)].
  2:{ do 3 eexists. split; [reflexivity|]. rewrite lines_app, times_app, Ht1, Ht2.
      split; [right; eexists; reflexivity|].
      split; [split; discriminate | lia]. }
  destruct (Hlift polls3 w2 (e1 ++ e2)%list (fun _ =>
             lift (Eventually_Should_Receive_Equal polls4
                     total_http_subscriptions_plus)))
    as (o3 & w3 & e3 & -> & _ & Ho3).
  destruct Ho3 as [(-> & Ht3) | ((msg & ->) & Ht3)].
  2:{ do 3 eexists. split; [reflexivity|].
      rewrite !lines_app, !times_app, Ht1, Ht2, Ht3.
      split; [right; eexists; reflexivity|].
      split; [split; discriminate | lia]. }
  destruct (Hlift polls4 w3 ((e1 ++ e2) ++ e3)%list (fun _ => ret tt))
    as (o4 & w4 & e4 & _ & -> & Ho4).
  do 3 eexists. split; [reflexivity|].
  rewrite !lines_app, !times_app, Ht1, Ht2, Ht3.
  destruct Ho4 as [(-> & Ht4) | ((msg & ->) & Ht4)]; rewrite Ht4.
  - split; [left; reflexivity|]. split; [split; reflexivity | lia].
  - split; [right; eexists; reflexivity|].
    split; [split; discriminate | lia].
Qed.

Lemma combine_snoc {A B : Type} (l : list A) (l' : list B) (a : A) (b : B) :
  List.length l = List.length l' ->
  combine (l ++ [a]) (l' ++ [b]) = (combine l l' ++ [(a, b)])%list.
Proof.
  revert l'. induction l as [|x l IH]; intros [|y l'] H; try discriminate H.
  - reflexivity.
  - cbn. rewrite IH by (cbn in H; lia). reflexivity.
Qed.

Lemma opens_and_closes_receives (polls1 polls2 polls3 polls4 : nat) :
  opens_and_closes (Stream := Stream) 0
    (bind (lift (Eventually_Should_Receive_Equal polls1 total_http_subscriptions_plus))
      (fun _ =>
       bind (lift (Eventually_Should_Receive_Equal polls2 total_http_subscriptions_plus))
         (fun _ =>
          bind (lift (Eventually_Should_Receive_Equal polls3 total_http_subscriptions_plus))
            (fun _ =>
             lift (Eventually_Should_Receive_Equal polls4
                     total_http_subscriptions_plus))))).
Proof.
  intros w calls.
  destruct (four_receives polls1 polls2 polls3 polls4 w calls)
    as (out & w' & tr & Hrun & Ho & Hiff & _).
  exists out, w', tr, [], [], []. cbn [map rev combine app List.length].
  rewrite app_nil_r.
  split; [exact Hrun|]. split; [reflexivity|]. split; [left; reflexivity|].
  split; [lia|]. split; [intros Hc; elim Hc; reflexivity|].
  split; [exact Ho|].
  split; [|intros _; reflexivity].
  split.
  - intros Hr. split; [reflexivity | apply Hiff; exact Hr].
  - intros [_ Ht]. apply Hiff; exact Ht.
Qed.

Lemma opens_and_closes_step (n : nat) (body : M (SubSt (Stream := Stream)) unit) :
  opens_and_closes n body ->
  opens_and_closes (Stream := Stream) (S n)
    (bind SubscribeToEvents_
       (fun r => bind (Expect_stream r)
                   (fun eventStream => defer_ (Close_ eventStream) body))).
Proof.
  intros Hbody w calls. rewrite bind_SubscribeToEvents.
  destruct (client_SubscribeToEvents w) as [[e|s] w1]; cbn [fst snd Expect_stream].
  - rewrite bind_abort.
    exists (Abort (Fail ("Expected success, but got an error: " ++ Error e))),
           w1, [], [], [SubscribeToEvents (inl e)], [].
    cbn [map rev combine app List.length]. 
    split; [reflexivity|]. split; [reflexivity|].
    split; [right; eexists; reflexivity|].
    split; [lia|]. split; [intros _; lia|].
    split; [right; eexists; reflexivity|].
    split; [split; [discriminate | intros [Hc _]; discriminate Hc]|].
    intros Hc; elim Hc; reflexivity.
  - rewrite bind_ret.
    destruct (Hbody w1 (calls ++ [SubscribeToEvents (inr s)])%list)
      as (out & w' & tr & streams & failure & errs & Hrun & Hlen & Hfail & Hle & Hlt
          & Ho & Hiff & Hlines).
    rewrite (defer_Close s body _ out w' tr _ Hrun Ho).
    exists out, (snd (eventStream_Close s w')), tr, (s :: streams), failure,
           (errs ++ [fst (eventStream_Close s w')])%list.
    split.
    { f_equal. f_equal. cbn [map rev].
      rewrite combine_snoc by (rewrite length_rev; symmetry; exact Hlen).
      rewrite map_app. cbn [map fst snd].
      rewrite <- !app_assoc. reflexivity. }
    split; [rewrite length_app; cbn [List.length]; lia|].
    split; [exact Hfail|].
    cbn [List.length].
    split; [lia|]. split; [intros Hf; specialize (Hlt Hf); lia|].
    split; [exact Ho|].
    split.
    + split.
      * intros Hr. destruct (proj1 Hiff Hr) as [Hn Ht]. split; [lia | exact Ht].
      * intros [Hn Ht]. apply Hiff. split; [lia | exact Ht].
    + intros Hl. specialize (Hlines Hl). lia.
Qed.

(** X14: the spec "should increase subscriptions by 4".  Every run ends,
    passed or failed.  It subscribes up to four times, stops subscribing at
    the first failure, and closes every stream it opened, the last opened
    first, also when an assertion has failed.  It takes nothing from the
    statsd channel before the four streams are open, and it passes exactly
    when the four streams were opened and the line
    routing_api.total_http_subscriptions:+1|g was taken four times. *)
Theorem subscriptions_are_counted_and_closed
  (polls1 polls2 polls3 polls4 : nat) (w : W) :
  let res := It_should_increase_subscriptions_by_4 (Stream := Stream)
               polls1 polls2 polls3 polls4 ((w, []), []) in
  let calls := snd (snd res) in
  let tr := snd (fst (snd res)) in
  (fst res = Ret tt \/ exists msg, fst res = Abort (Fail msg))
  /\ (exists streams failure errs,
        calls = (map (fun s => SubscribeToEvents (inr s)) streams
                   ++ failure
                   ++ map (fun c => StreamClose (fst c) (snd c))
                          (combine (rev streams) errs))%list
        /\ List.length errs = List.length streams
        /\ (failure = [] \/ exists e, failure = [SubscribeToEvents (inl e)])
        /\ (List.length streams <= 4)%nat
        /\ (failure <> [] -> (List.length streams < 4)%nat)
        /\ (fst res = Ret tt
            <-> List.length streams = 4%nat
                /\ times total_http_subscriptions_plus (lines tr) = 4%nat)
        /\ (lines tr <> [] -> List.length streams = 4%nat)).
Proof.
  cbv zeta. unfold It_should_increase_subscriptions_by_4.
  pose proof (opens_and_closes_step _ _
               (opens_and_closes_step _ _
                 (opens_and_closes_step _ _
                   (opens_and_closes_step _ _
                     (opens_and_closes_receives polls1 polls2 polls3 polls4)))))
    as H.
  destruct (H w []) as (out & w' & tr & streams & failure & errs & Hrun & Hlen & Hfail
                        & Hle & Hlt & Ho & Hiff & Hlines).
  cbn [app] in Hrun. rewrite Hrun. cbn [fst snd].
  split; [exact Ho|].
  exists streams, failure, errs.
  split; [reflexivity|]. split; [exact Hlen|]. split; [exact Hfail|].
  split; [exact Hle|]. split; [exact Hlt|]. split; [exact Hiff | exact Hlines].
Qed.

End stats_subscriptions.

(** ** The fake statsd server *)

Section stats_listener.
Import stats.
Context {W : Type} {server : StatsdServer W}.

Lemma bind_Read_ {B : Type} (buffer : string)
  (k : string * option error -> M FedSt B) (w : W) (tr : list Fed) :
  bind (Read_ buffer) k (w, tr)
  = k (fst (fakeStatsdServer_Read (String.length buffer) w))
      (snd (fakeStatsdServer_Read (String.length buffer) w),
       (tr ++ [UDPRead (fst (fst (fakeStatsdServer_Read (String.length buffer) w)))
                       (snd (fst (fakeStatsdServer_Read (String.length buffer) w)))])%list).
Proof.
  unfold bind, Read_. cbn [fst snd].
  destruct (fakeStatsdServer_Read (String.length buffer) w); reflexivity.
Qed.

Lemma bind_send_line {B : Type} (text : string)
  (k : unit -> M FedSt B) (w : W) (tr : list Fed) :
  bind (send_line text) k (w, tr)
  = if fst (statsChan_taken w)
    then k tt (snd (statsChan_taken w), (tr ++ [SendLine text])%list)
    else (Abort Blocked, (snd (statsChan_taken w), tr)).
Proof.
  unfold bind, send_line. cbn [fst snd].
  destruct (statsChan_taken w) as [[|] w']; reflexivity.
Qed.

(** The sends of the lines of one buffer: all of them, or the first few
    when a send blocks. *)
Lemma send_lines_run (tokens : list string) :
  forall (w : W) (tr : list Fed),
  exists out w' sent rest,
    tokens = (sent ++ rest)%list
    /\ send_lines tokens (w, tr) = (out, (w', (tr ++ map SendLine sent)%list))
    /\ ((out = Ret tt /\ rest = []) \/ (out = Abort Blocked /\ rest <> [])).
Proof.
  induction tokens as [|text tokens IH]; intros w tr.
  - exists (Ret tt), w, [], []. cbn. rewrite app_nil_r.
    split; [reflexivity|]. split; [reflexivity|]. left; split; reflexivity.
  - cbn [send_lines]. rewrite bind_send_line.
    destruct (statsChan_taken w) as [[|] w1]; cbn [fst snd].
    + destruct (IH w1 (tr ++ [SendLine text])%list)
        as (out & w' & sent & rest & -> & Hrun & Ho).
      exists out, w', (text :: sent), rest.
      split; [reflexivity|].
      split; [rewrite Hrun, <- app_assoc; reflexivity | exact Ho].
    + exists (Abort Blocked), w1, [], (text :: tokens). cbn. rewrite app_nil_r.
      split; [reflexivity|]. split; [reflexivity|].
      right. split; [reflexivity | discriminate].
Qed.

Lemma not_closed_by_sends (sent : list string) :
  ~ In CloseChan (map SendLine sent).
Proof.
  intros H. apply in_map_iff in H. destruct H as (x & Hx & _). discriminate Hx.
Qed.

Lemma listener_run :
  forall (fuel : nat) (w : W) (tr : list Fed),
  exists out w' ext,
    listener fuel (w, tr) = (out, (w', (tr ++ ext)%list))
    /\ feeds ext
    /\ (out = Ret tt <-> In CloseChan ext)
    /\ (out = Ret tt \/ out = Abort Blocked \/ out = Abort OutOfFuel).
Proof.
  induction fuel as [|fuel IH]; intros w tr.
  { exists (Abort OutOfFuel), w, []. rewrite app_nil_r.
    split; [reflexivity|]. split; [constructor|].
    split; [split; [discriminate | intros []] | right; right; reflexivity]. }
  cbn [listener]. rewrite bind_Read_. rewrite length_zeros.
  destruct (fakeStatsdServer_Read 1000 w) as [[data err] w1]. cbn [fst snd].
  destruct err as [e|]; cbn [is_nil negb].
  - exists (Ret tt), w1, [UDPRead data (Some e); CloseChan].
    split; [unfold close_statsChan; cbn [fst snd]; rewrite <- app_assoc; reflexivity|].
    split; [constructor|].
    split; [split; [intros _; right; left; reflexivity | reflexivity]
           | left; reflexivity].
  - destruct (send_lines_run (ScanLines (copy (zeros 1000) data) "") w1
                (tr ++ [UDPRead data None])%list)
      as (out & w2 & sent & rest & Htok & Hrun & Ho).
    rewrite (run_bind _ _ _ _ _ Hrun).
    destruct Ho as [(-> & ->) | (-> & Hrest)].
    + rewrite app_nil_r in Htok. subst sent.
      destruct (IH w2 ((tr ++ [UDPRead data None])
                         ++ map SendLine (ScanLines (copy (zeros 1000) data) ""))%list)
        as (out & w' & ext & Hrun' & Hf & Hiff & Hout).
      exists out, w',
        (UDPRead data None
           :: map SendLine (ScanLines (copy (zeros 1000) data) "") ++ ext)%list.
      split; [rewrite Hrun', <- !app_assoc; reflexivity|].
      split; [constructor; exact Hf|].
      split; [|exact Hout].
      rewrite Hiff. split.
      * intros Hin. right. apply in_or_app. right; exact Hin.
      * intros [Hc | Hin]; [discriminate Hc|].
        apply in_app_or in Hin. destruct Hin as [Hin | Hin]; [|exact Hin].
        elim (not_closed_by_sends _ Hin).
    + exists (Abort Blocked), w2, (UDPRead data None :: map SendLine sent).
      split; [rewrite <- app_assoc; reflexivity|].
      split; [econstructor; eassumption|].
      split; [|right; left; reflexivity].
      split; [discriminate|].
      intros [Hc | Hin]; [discriminate Hc | elim (not_closed_by_sends _ Hin)].
Qed.

Lemma split_after_sends (sent : list string) :
  forall (tr before after : list Fed),
    (map SendLine sent ++ tr)%list = (before ++ CloseChan :: after)%list ->
    exists before2,
      before = (map SendLine sent ++ before2)%list
      /\ tr = (before2 ++ CloseChan :: after)%list.
Proof.
  induction sent as [|x sent IH]; intros tr before after Heq.
  - exists before. split; [reflexivity | exact Heq].
  - destruct before as [|b before]; [discriminate Heq|].
    cbn [map app] in Heq. injection Heq as <- Heq.
    destruct (IH tr before after Heq) as (before2 & -> & Htr).
    exists before2. split; [reflexivity | exact Htr].
Qed.

Lemma feeds_closed_last (tr : list Fed) :
  feeds tr ->
  forall before after, tr = (before ++ CloseChan :: after)%list ->
    after = [] /\ exists before' data e, before = (before' ++ [UDPRead data (Some e)])%list.
Proof.
  induction 1 as [|data e|data sent rest Htok Hrest|data tr Hf IH];
    intros before after Heq.
  - destruct before; discriminate.
  - destruct before as [|b [|b' before]]; try discriminate.
    + injection Heq as <- <-. split; [reflexivity|].
      exists [], data, e. reflexivity.
    + injection Heq as _ _ Heq. destruct before; discriminate.
  - exfalso. destruct before as [|b before]; [discriminate|].
    injection Heq as _ Heq.
    apply (not_closed_by_sends sent). rewrite Heq.
    apply in_or_app. right. left. reflexivity.
  - destruct before as [|b before]; [discriminate|].
    injection Heq as <- Heq.
    destruct (split_after_sends _ _ _ _ Heq) as (before2 & -> & Htr).
    destruct (IH before2 after Htr) as (-> & before' & data' & e & ->).
    split; [reflexivity|].
    exists (UDPRead data None
              :: map SendLine (ScanLines (copy (zeros 1000) data) "") ++ before'),
           data', e.
    cbn [app]. rewrite <- app_assoc. reflexivity.
Qed.

(** *** The lines of a buffer *)

Lemma copy_zeros (data : string) :
  forall n : nat,
    (String.length data <= n)%nat ->
    copy (zeros n) data = data ++ zeros (n - String.length data).
Proof.
  induction data as [|c data IH]; intros n Hn.
  - cbn [String.length append]. rewrite Nat.sub_0_r. destruct n; reflexivity.
  - destruct n as [|n]; [cbn in Hn; lia|].
    cbn [zeros copy String.length append Nat.sub].
    rewrite IH by (cbn in Hn; lia). reflexivity.
Qed.

Lemma append_assoc (a b c : string) : (a ++ b) ++ c = a ++ (b ++ c).
Proof. induction a as [|x a IH]; cbn; [reflexivity | now rewrite IH]. Qed.

Lemma length_append (a b : string) :
  String.length (a ++ b) = (String.length a + String.length b)%nat.
Proof. induction a as [|x a IH]; cbn; [reflexivity | now rewrite IH]. Qed.

Lemma append_nil_r (a : string) : a ++ "" = a.
Proof. induction a as [|x a IH]; cbn; [reflexivity | now rewrite IH]. Qed.

Lemma ScanLines_one_line (l : string) :
  forall data line : string,
    one_line l = true ->
    ScanLines (l ++ data) line = ScanLines data (line ++ l).
Proof.
  induction l as [|c l IH]; intros data line Hl.
  - cbn [append]. rewrite append_nil_r. reflexivity.
  - cbn [one_line] in Hl. apply andb_true_iff in Hl. destruct Hl as [Hc Hl].
    apply negb_true_iff in Hc.
    cbn [append ScanLines]. rewrite Hc.
    rewrite (IH data _ Hl), append_assoc. reflexivity.
Qed.

Lemma ScanLines_unlines (ls : list string) (data : string) :
  Forall (fun l => one_line l = true) ls ->
  ScanLines (unlines ls ++ data) "" = (map dropCR ls ++ ScanLines data "")%list.
Proof.
  induction 1 as [|l ls Hl Hls IH]; [reflexivity|].
  cbn [unlines fold_right map app].
  rewrite append_assoc, (ScanLines_one_line l _ "" Hl).
  cbn [append ScanLines is_LF]. 
  change (Ascii.eqb "010" "010") with true. cbv iota.
  rewrite <- IH. reflexivity.
Qed.

Lemma zeros_snoc (k : nat) : zeros (S k) = zeros k ++ String "000"%char "".
Proof. induction k as [|k IH]; [reflexivity|]. cbn [zeros append] in *. now rewrite <- IH. Qed.

Lemma one_line_zeros (k : nat) : one_line (zeros k) = true.
Proof. induction k as [|k IH]; [reflexivity|]. cbn [zeros one_line]. rewrite IH. reflexivity. Qed.

Lemma one_line_append (a b : string) :
  one_line a = true -> one_line b = true -> one_line (a ++ b) = true.
Proof.
  induction a as [|c a IH]; intros Ha Hb; [exact Hb|].
  cbn [one_line append] in *. apply andb_true_iff in Ha. destruct Ha as [Hc Ha].
  rewrite Hc, (IH Ha Hb). reflexivity.
Qed.

Lemma dropCR_keeps (s : string) (c : ascii) :
  is_CR c = false -> dropCR (s ++ String c "") = s ++ String c "".
Proof.
  intros Hc. induction s as [|x s IH].
  - cbn. rewrite Hc. reflexivity.
  - cbn [append dropCR]. rewrite IH.
    destruct (s ++ String c "") eqn:E; [destruct s; discriminate E | reflexivity].
Qed.

(** The tokens of the buffer after a datagram of complete lines [ls] and
    an unterminated rest: the lines, and the rest with the zero bytes of
    the buffer behind it. *)
Lemma ScanLines_of_a_datagram (ls : list string) (rest : string) :
  Forall (fun l => one_line l = true) ls ->
  one_line rest = true ->
  (String.length (unlines ls ++ rest) < 1000)%nat ->
  ScanLines (copy (zeros 1000) (unlines ls ++ rest)) ""
  = (map dropCR ls
       ++ [(rest ++ zeros (1000 - String.length (unlines ls ++ rest)))%string])%list.
Proof.
  intros Hls Hrest Hlen.
  rewrite copy_zeros by lia.
  rewrite append_assoc, (ScanLines_unlines ls _ Hls). f_equal.
  remember (1000 - String.length (unlines ls ++ rest))%nat as k eqn:Hk.
  destruct k as [|k]; [lia|].
  assert (Hone : one_line (rest ++ zeros (S k)) = true)
    by (apply one_line_append; [exact Hrest | apply one_line_zeros]).
  pose proof (ScanLines_one_line (rest ++ zeros (S k)) "" "" Hone) as Hscan.
  rewrite append_nil_r in Hscan. rewrite Hscan. cbn [append ScanLines].
  rewrite zeros_snoc, <- append_assoc.
  rewrite dropCR_keeps by reflexivity.
  destruct ((rest ++ zeros k) ++ String "000"%char "") eqn:E.
  - destruct (rest ++ zeros k); discriminate E.
  - reflexivity.
Qed.

Lemma copy_take (n : nat) :
  forall data : string,
    (n <= String.length data)%nat -> copy (zeros n) data = take n data.
Proof.
  induction n as [|n IH]; intros data Hn; [destruct data; reflexivity|].
  destruct data as [|c data]; [cbn in Hn; lia|].
  cbn [zeros copy take]. rewrite IH by (cbn in Hn; lia). reflexivity.
Qed.

Lemma ScanLines_of_a_rest (rest : string) :
  one_line rest = true ->
  ScanLines rest "" = if (rest =? "")%string then [] else [dropCR rest].
Proof.
  intros Hrest.
  pose proof (ScanLines_one_line rest "" "" Hrest) as H.
  rewrite append_nil_r in H. rewrite H. reflexivity.
Qed.

(** The tokens of a buffer that the datagram fills: the lines of its first
    1000 bytes, and what follows their last newline as it is. *)
Lemma ScanLines_of_a_full_buffer (data : string) (ls : list string) (rest : string) :
  Forall (fun l => one_line l = true) ls ->
  one_line rest = true ->
  (1000 <= String.length data)%nat ->
  take 1000 data = unlines ls ++ rest ->
  ScanLines (copy (zeros 1000) data) ""
  = (map dropCR ls ++ (if (rest =? "")%string then [] else [dropCR rest]))%list.
Proof.
  intros Hls Hrest Hlen Htake.
  rewrite (copy_take 1000 data Hlen), Htake.
  rewrite (ScanLines_unlines ls _ Hls), (ScanLines_of_a_rest rest Hrest).
  reflexivity.
Qed.

(** X15: the goroutine of the fake statsd server.  After every datagram it
    sends the lines of its 1000-byte buffer on the channel, in order, and
    goes on reading; when a read fails it closes the channel and returns,
    and that is the only way it returns: otherwise it is blocked in a send
    that nobody takes, or still reading.  The lines of the buffer are the
    lines of the datagram that end in a newline (without their carriage
    return), and then the rest of the buffer as one more line.  After a
    datagram of less than 1000 bytes that rest is what follows the last
    newline of the datagram with the zero bytes of the buffer behind it:
    a metric that is not followed by a newline does not reach the spec as
    it was sent.  A datagram of 1000 bytes or more fills the buffer: the
    lines are those of its first 1000 bytes, and what follows their last
    newline arrives with no zero byte behind it. *)
Theorem listener_feeds_the_lines_of_the_buffer (fuel : nat) (w : W) :
  let res := listener fuel (w, []) in
  let tr := snd (snd res) in
  feeds tr
  /\ (fst res = Ret tt <-> In CloseChan tr)
  /\ (fst res = Ret tt \/ fst res = Abort Blocked \/ fst res = Abort OutOfFuel)
  /\ (forall before after,
        tr = (before ++ CloseChan :: after)%list ->
        after = []
        /\ exists before' data e, before = (before' ++ [UDPRead data (Some e)])%list)
  /\ (forall (ls : list string) (rest : string),
        Forall (fun l => one_line l = true) ls ->
        one_line rest = true ->
        (String.length (unlines ls ++ rest) < 1000)%nat ->
        ScanLines (copy (zeros 1000) (unlines ls ++ rest)) ""
        = (map dropCR ls
             ++ [(rest ++ zeros (1000 - String.length (unlines ls ++ rest)))%string])%list
        /\ rest ++ zeros (1000 - String.length (unlines ls ++ rest)) <> rest)
  /\ (forall (data : string) (ls : list string) (rest : string),
        Forall (fun l => one_line l = true) ls ->
        one_line rest = true ->
        (1000 <= String.length data)%nat ->
        take 1000 data = unlines ls ++ rest ->
        ScanLines (copy (zeros 1000) data) ""
        = (map dropCR ls
             ++ (if (rest =? "")%string then [] else [dropCR rest]))%list).
Proof.
  cbv zeta.
  destruct (listener_run fuel w []) as (out & w' & ext & Hrun & Hf & Hiff & Hout).
  rewrite Hrun. cbn [fst snd app].
  split; [exact Hf|]. split; [exact Hiff|]. split; [exact Hout|].
  split; [exact (feeds_closed_last ext Hf)|].
  split; [|exact ScanLines_of_a_full_buffer].
  intros ls rest Hls Hrest Hlen.
  split; [exact (ScanLines_of_a_datagram ls rest Hls Hrest Hlen)|].
  intros Heq.
  assert (Hl : String.length (rest ++ zeros (1000 - String.length (unlines ls ++ rest)))
               = String.length rest) by (rewrite Heq; reflexivity).
  rewrite length_append, length_zeros in Hl. lia.
Qed.

End stats_listener.

(** ** GrabName *)

Section grab_name.
Import helpers.

Lemma match_here_tcp (s : string) :
  match_here [One (Lit "t"); One (Lit "c"); One (Lit "p")] s
  = if strings_HasPrefix s "tcp" then Some "tcp" else None.
Proof.
  destruct s as [|a [|b [|c s]]]; cbn [match_here strings_HasPrefix atom_matches option_map];
    try reflexivity.
  - destruct (Ascii.eqb a "t"); reflexivity.
  - destruct (Ascii.eqb a "t"); [|reflexivity]. destruct (Ascii.eqb b "c"); reflexivity.
  - destruct (Ascii.eqb a "t") eqn:Ea; [|reflexivity].
    destruct (Ascii.eqb b "c") eqn:Eb; [|reflexivity].
    destruct (Ascii.eqb c "p") eqn:Ec; [|reflexivity].
    apply Ascii.eqb_eq in Ea, Eb, Ec. subst. destruct s; reflexivity.
Qed.

Lemma match_here_star (c : ascii) (s : string) :
  match_here re_tcp (String c s)
  = if negb (is_LF c) then
      match match_here re_tcp s with
      | Some m => Some (String c m)
      | None => if strings_HasPrefix (String c s) "tcp" then Some "tcp" else None
      end
    else if strings_HasPrefix (String c s) "tcp" then Some "tcp" else None.
Proof.
  rewrite <- match_here_tcp. reflexivity.
Qed.

Lemma match_here_empty : match_here re_tcp "" = None.
Proof. reflexivity. Qed.

Lemma FindStringSubmatch_eq (re : Regexp) (s : string) :
  FindStringSubmatch re s
  = match match_here re s with
    | Some m => [m]
    | None =>
      match s with
      | EmptyString => []
      | String _ s' => FindStringSubmatch re s'
      end
    end.
Proof. destruct s; reflexivity. Qed.

Lemma strings_Contains_cons (c : ascii) (s substr : string) :
  strings_Contains (String c s) substr
  = strings_HasPrefix (String c s) substr || strings_Contains s substr.
Proof. reflexivity. Qed.

Lemma strings_Contains_false (c : ascii) (s substr : string) :
  strings_Contains (String c s) substr = false ->
  strings_HasPrefix (String c s) substr = false /\ strings_Contains s substr = false.
Proof. rewrite strings_Contains_cons. apply orb_false_iff. Qed.

(** Nothing matches where there is no "tcp". *)
Lemma match_here_without_tcp (s : string) :
  strings_Contains s "tcp" = false -> match_here re_tcp s = None.
Proof.
  induction s as [|c s IH]; intros Hno; [reflexivity|].
  apply strings_Contains_false in Hno. destruct Hno as [Hp Hs].
  rewrite match_here_star, (IH Hs), Hp. destruct (negb (is_LF c)); reflexivity.
Qed.

Lemma FindStringSubmatch_without_tcp (s : string) :
  strings_Contains s "tcp" = false -> FindStringSubmatch re_tcp s = [].
Proof.
  induction s as [|c s IH]; intros Hno; [reflexivity|].
  rewrite FindStringSubmatch_eq, (match_here_without_tcp _ Hno).
  apply strings_Contains_false in Hno. exact (IH (proj2 Hno)).
Qed.

(** And something matches where "tcp" begins. *)
Lemma match_here_at_tcp (s : string) :
  strings_HasPrefix s "tcp" = true -> exists m, match_here re_tcp s = Some m.
Proof.
  intros Hp. destruct s as [|c s]; [discriminate Hp|].
  rewrite match_here_star, Hp.
  destruct (negb (is_LF c)); [|eexists; reflexivity].
  destruct (match_here re_tcp s); eexists; reflexivity.
Qed.

Lemma FindStringSubmatch_with_tcp (s : string) :
  strings_Contains s "tcp" = true -> exists m, FindStringSubmatch re_tcp s = [m].
Proof.
  induction s as [|c s IH]; intros Hyes; [discriminate Hyes|].
  rewrite FindStringSubmatch_eq.
  destruct (match_here re_tcp (String c s)) as [m|] eqn:Hm; [exists m; reflexivity|].
  rewrite strings_Contains_cons in Hyes. apply orb_true_iff in Hyes.
  destruct Hyes as [Hp | Hs]; [|exact (IH Hs)].
  destruct (match_here_at_tcp _ Hp) as [m Hm']. congruence.
Qed.

Lemma HasPrefix_tcp_in_line (l tail : string) :
  line_ends tail ->
  strings_HasPrefix (l ++ tail) "tcp" = strings_HasPrefix l "tcp".
Proof.
  intros [-> | [t ->]];
    destruct l as [|a [|b [|c l]]]; cbn [append strings_HasPrefix];
    rewrite ?andb_false_r; try reflexivity.
Qed.

Lemma match_here_line_without_tcp (l : string) :
  forall tail : string,
    one_line l = true -> strings_Contains l "tcp" = false -> line_ends tail ->
    match_here re_tcp (l ++ tail) = None.
Proof.
  induction l as [|c l IH]; intros tail Hl Hno Hend.
  - destruct Hend as [-> | [t ->]]; reflexivity.
  - cbn [one_line] in Hl. apply andb_true_iff in Hl. destruct Hl as [Hc Hl].
    apply strings_Contains_false in Hno. destruct Hno as [Hp Hs].
    change (String c l ++ tail) with (String c (l ++ tail)).
    rewrite match_here_star, Hc, (IH tail Hl Hs Hend).
    change (String c (l ++ tail)) with (String c l ++ tail).
    rewrite (HasPrefix_tcp_in_line _ _ Hend), Hp. reflexivity.
Qed.

(** A line without "tcp" is passed over. *)
Lemma FindStringSubmatch_next_line (l : string) :
  forall s : string,
    one_line l = true -> strings_Contains l "tcp" = false ->
    FindStringSubmatch re_tcp (l ++ String "010" s) = FindStringSubmatch re_tcp s.
Proof.
  induction l as [|c l IH]; intros s Hl Hno.
  - cbn [append]. rewrite FindStringSubmatch_eq.
    assert (Hnone : match_here re_tcp (String "010" s) = None)
      by (apply (match_here_line_without_tcp "" (String "010" s) eq_refl eq_refl);
          right; eexists; reflexivity).
    rewrite Hnone. reflexivity.
  - rewrite FindStringSubmatch_eq.
    rewrite (match_here_line_without_tcp _ (String "010" s) Hl Hno)
      by (right; eexists; reflexivity).
    cbn [one_line] in Hl. apply andb_true_iff in Hl.
    apply strings_Contains_false in Hno.
    cbn [append]. exact (IH s (proj2 Hl) (proj2 Hno)).
Qed.

Lemma string_append_assoc (a b c : string) : (a ++ b) ++ c = a ++ (b ++ c).
Proof. induction a as [|x a IH]; cbn; [reflexivity | now rewrite IH]. Qed.

Lemma FindStringSubmatch_after_lines (before : list string) (s : string) :
  Forall (fun l => one_line l = true /\ strings_Contains l "tcp" = false) before ->
  FindStringSubmatch re_tcp (unlines before ++ s) = FindStringSubmatch re_tcp s.
Proof.
  induction 1 as [|l before [Hl Hno] _ IH]; [reflexivity|].
  cbn [unlines fold_right]. rewrite string_append_assoc. cbn [append].
  rewrite (FindStringSubmatch_next_line l _ Hl Hno). exact IH.
Qed.

Lemma one_line_app (a b : string) :
  one_line (a ++ b) = true -> one_line a = true /\ one_line b = true.
Proof.
  induction a as [|c a IH]; cbn [append one_line]; intros H; [split; [reflexivity | exact H]|].
  apply andb_true_iff in H. destruct H as [Hc H]. destruct (IH H) as [Ha Hb].
  rewrite Hc, Ha. split; [reflexivity | exact Hb].
Qed.

(** The star is greedy: in its line, the match ends with the last "tcp". *)
Lemma match_here_to_the_last_tcp (m : string) :
  forall rest tail : string,
    one_line m = true -> one_line rest = true ->
    strings_Contains rest "tcp" = false -> line_ends tail ->
    match_here re_tcp (m ++ "tcp" ++ rest ++ tail) = Some (m ++ "tcp").
Proof.
  induction m as [|c m IH]; intros rest tail Hm Hrest Hno Hend.
  - cbn [append]. rewrite match_here_star. cbn [is_LF negb].
    change (negb (Ascii.eqb "t" "010")) with true. cbv iota.
    change (String "c" (String "p" (rest ++ tail)))
      with (("cp" ++ rest) ++ tail).
    rewrite match_here_line_without_tcp; [reflexivity | | | exact Hend].
    + cbn [append one_line is_LF]. exact Hrest.
    + cbn [append]. rewrite !strings_Contains_cons, Hno. reflexivity.
  - cbn [one_line] in Hm. apply andb_true_iff in Hm. destruct Hm as [Hc Hm].
    change (String c m ++ "tcp" ++ rest ++ tail)
      with (String c (m ++ "tcp" ++ rest ++ tail)).
    rewrite match_here_star, Hc, (IH rest tail Hm Hrest Hno Hend). reflexivity.
Qed.

(** The first of the fields that a space separates. *)
Lemma strings_Split_first (s : string) :
  exists name names after,
    strings_Split s " " = name :: names
    /\ s = name ++ after
    /\ strings_Contains name " " = false
    /\ (after = "" \/ exists a, after = String " " a).
Proof.
  induction s as [|c s (name & names & after & Hsplit & Hs & Hname & Hafter)].
  - exists "", [], "". repeat split. left. reflexivity.
  - cbn [strings_Split]. destruct (Ascii.eqb c " ") eqn:Hc.
    + apply Ascii.eqb_eq in Hc. subst c.
      exists "", (strings_Split s " "), (String " " s). repeat split.
      right. eexists. reflexivity.
    + rewrite Hsplit. exists (String c name), names, after.
      split; [reflexivity|]. split; [cbn [append]; congruence|].
      split; [|exact Hafter].
      rewrite strings_Contains_cons, Hname. cbn [strings_HasPrefix]. rewrite Hc. reflexivity.
Qed.

Lemma Expect_at_least_one (n : nat) :
  Expect_To_BeNumerically_ge (Z.of_nat (Datatypes.S n)) 1 = ret tt.
Proof.
  unfold Expect_To_BeNumerically_ge.
  destruct (Z.geb_spec (Z.of_nat (Datatypes.S n)) 1) as [_ | Hlt]; [reflexivity | lia].
Qed.

Lemma GrabName_run (logLines : string) (failed : Failer) :
  GrabName logLines failed
  = match FindStringSubmatch re_tcp logLines with
    | [] => (Ret "", (failed ++ ["Expected 0 to be >= 1"])%list)
    | match_0 :: _ => (Ret (hd "" (strings_Split match_0 " ")), failed)
    end.
Proof.
  unfold GrabName, defer_GinkgoRecover. cbv zeta.
  destruct (FindStringSubmatch re_tcp logLines) as [|match_0 matches]; [reflexivity|].
  cbn [List.length]. rewrite Expect_at_least_one, bind_ret.
  cbn [index_0]. rewrite bind_ret.
  destruct (strings_Split_first match_0) as (name & names & after & Hsplit & _).
  rewrite Hsplit. cbn [List.length]. rewrite Expect_at_least_one, bind_ret.
  reflexivity.
Qed.

(** X16: GrabName never panics and never blocks: it returns a name, and
    reports a failure to Ginkgo exactly when its input has no "tcp" in it;
    the name is empty then.  Otherwise it looks at the first line that has
    "tcp" in it, up to the last "tcp" of that line, and returns what stands
    there before the first space: the whole of it when there is no space. *)
Theorem GrabName_takes_the_first_word_of_the_first_tcp_line
  (logLines : string) (failed : Failer) :
  let res := GrabName logLines failed in
  (exists name, fst res = Ret name)
  /\ (snd res = failed <-> strings_Contains logLines "tcp" = true)
  /\ (strings_Contains logLines "tcp" = false ->
      fst res = Ret "" /\ exists msg, snd res = (failed ++ [msg])%list)
  /\ (forall (before : list string) (m rest tail : string),
        Forall (fun l => one_line l = true /\ strings_Contains l "tcp" = false)
               before ->
        one_line (m ++ rest) = true ->
        strings_Contains rest "tcp" = false ->
        line_ends tail ->
        logLines = unlines before ++ m ++ "tcp" ++ rest ++ tail ->
        snd res = failed
        /\ exists name after,
             fst res = Ret name
             /\ m ++ "tcp" = name ++ after
             /\ strings_Contains name " " = false
             /\ (after = "" \/ exists a, after = String " " a)).
Proof.
  cbv zeta. rewrite GrabName_run.
  assert (Hgrow : forall msg : string, (failed ++ [msg])%list <> failed).
  { intros msg Heq. apply (f_equal (@List.length string)) in Heq.
    rewrite length_app in Heq. cbn [List.length] in Heq. lia. }
  split; [destruct (FindStringSubmatch re_tcp logLines); eexists; reflexivity|].
  split.
  { destruct (strings_Contains logLines "tcp") eqn:Hc.
    - destruct (FindStringSubmatch_with_tcp _ Hc) as [m ->]. cbn [snd]. tauto.
    - rewrite (FindStringSubmatch_without_tcp _ Hc). cbn [snd].
      split; [intros H; destruct (Hgrow _ H) | discriminate]. }
  split.
  { intros Hc. rewrite (FindStringSubmatch_without_tcp _ Hc).
    split; [reflexivity | eexists; reflexivity]. }
  intros before m rest tail Hbefore Hline Hno Hend ->.
  destruct (one_line_app _ _ Hline) as [Hm Hrest].
  rewrite (FindStringSubmatch_after_lines before _ Hbefore).
  rewrite FindStringSubmatch_eq, (match_here_to_the_last_tcp m rest tail Hm Hrest Hno Hend).
  cbn [fst snd]. split; [reflexivity|].
  destruct (strings_Split_first (m ++ "tcp")) as (name & names & after & Hsplit & Hs & Hname & Hafter).
  exists name, after. rewrite Hsplit. cbn [hd].
  split; [reflexivity|]. split; [exact Hs|]. split; [exact Hname | exact Hafter].
Qed.

End grab_name.

Section grab_name_examples.
Import helpers.

(** The output of [cf router-groups]: the name of the first group of type
    tcp. *)
Example GrabName_of_router_groups :
  GrabName ("Getting router groups as admin ..." ++ String "010" ""
            ++ String "010" "" ++ "name          type" ++ String "010" ""
            ++ "default-tcp   tcp" ++ String "010" "") []
  = (Ret "default-tcp", []).
Proof. reflexivity. Qed.

(** A group name that goes on after "tcp", with no "tcp" after it in the
    line, is cut. *)
Example GrabName_cuts_after_tcp :
  GrabName ("default-tcp-group reserved" ++ String "010" "") []
  = (Ret "default-tcp", []).
Proof. reflexivity. Qed.

Example GrabName_without_tcp :
  GrabName ("name  type" ++ String "010" "") []
  = (Ret "", ["Expected 0 to be >= 1"]).
Proof. reflexivity. Qed.

Lemma GrabName_takes_the_first_word_of_the_first_tcp_line_witness :
  exists name after,
    fst (GrabName ("name          type" ++ String "010" ""
                   ++ "default-tcp   tcp" ++ String "010" "") [])
    = Ret name
    /\ "default-tcp   " ++ "tcp" = name ++ after
    /\ strings_Contains name " " = false
    /\ (after = "" \/ exists a, after = String " " a).
Proof.
  destruct (GrabName_takes_the_first_word_of_the_first_tcp_line
              ("name          type" ++ String "010" ""
               ++ "default-tcp   tcp" ++ String "010" "") [])
    as (_ & _ & _ & H).
  destruct (H ["name          type"] "default-tcp   " "" (String "010" ""))
    as [_ H'].
  - constructor; [split; reflexivity | constructor].
  - reflexivity.
  - reflexivity.
  - right. eexists. reflexivity.
  - reflexivity.
  - exact H'.
Defined.

End grab_name_examples.

(** ** The program of the TLS asset *)

Section golangtls_program.
Import golangtls.
Context {W Key Pub File : Type} {sys : Sys W} {host : Host W Key Pub File}.

Lemma bind_host_call {A B : Type} (f : W -> A * W) (ev : A -> Call Key Pub File)
  (k : A -> M (W * list (Call Key Pub File)) B)
  (w : W) (tr : list (Call Key Pub File)) :
  bind (host_call f ev) k (w, tr) =
  k (fst (f w)) (snd (f w), (tr ++ [ev (fst (f w))])%list).
Proof. unfold bind, host_call; cbn. destruct (f w); reflexivity. Qed.

Lemma bind_say {B : Type} (ev : Call Key Pub File)
  (k : unit -> M (W * list (Call Key Pub File)) B)
  (w : W) (tr : list (Call Key Pub File)) :
  bind (say ev) k (w, tr) = k tt (w, (tr ++ [ev])%list).
Proof. reflexivity. Qed.

Lemma certWriter_run (encodedPEM name : string) (w : W)
  (tr : list (Call Key Pub File)) :
  exists out w' ext,
    certWriter encodedPEM name (w, tr) = (Ret out, (w', (tr ++ ext)%list))
    /\ writes encodedPEM name out ext.
Proof.
  unfold certWriter. rewrite bind_host_call.
  destruct (os_Create name w) as [[e|f] w1]; cbn [fst snd].
  - rewrite bind_say. unfold ret.
    eexists _, _, _. split; [rewrite <- app_assoc; reflexivity|].
    left. exists e. split; reflexivity.
  - unfold defer_. rewrite bind_host_call.
    destruct (f_Write f encodedPEM w1) as [werr w2]; cbn [fst snd].
    destruct werr as [e|]; unfold ret; cbv beta iota; rewrite bind_host_call;
      destruct (f_Close f w2) as [cerr w3]; cbn [fst snd].
    all: eexists _, _, _; (split; [rewrite <- !app_assoc; reflexivity|]).
    all: right; exists f, cerr; reflexivity.
Qed.

Lemma CreateCert_run (tmpl parent : x509_Certificate) (pub : Pub) (priv : Key)
  (w : W) (tr : list (Call Key Pub File)) :
  exists res w' r,
    CreateCert tmpl parent pub priv (w, tr)
    = (Ret res, (w', (tr ++ [CreateCertificate tmpl parent pub priv r])%list))
    /\ ((exists e, res = (None, "", Some e))
        \/ (exists certDER cert,
              r = inr certDER
              /\ x509_ParseCertificate certDER = inr cert
              /\ res = (Some cert, pem_EncodeToMemory "CERTIFICATE" certDER, None))).
Proof.
  unfold CreateCert. rewrite bind_host_call.
  destruct (x509_CreateCertificate tmpl parent pub priv w) as [[e|certDER] w1];
    cbn [fst snd].
  - eexists _, _, _. split; [reflexivity|]. left. exists e. reflexivity.
  - destruct (x509_ParseCertificate certDER) as [e|cert] eqn:Hparse.
    + eexists _, _, _. split; [reflexivity|]. left. exists e. reflexivity.
    + eexists _, _, _. split; [reflexivity|]. right. exists certDER, cert.
      split; [reflexivity|]. split; [exact Hparse | reflexivity].
Qed.

Lemma lift_CertTemplate_run (w : W) (tr : list (Call Key Pub File)) :
  exists res w' evs,
    lift (Key := Key) (Pub := Pub) (File := File) CertTemplate (w, tr)
    = (Ret res, (w', (tr ++ map Template evs)%list))
    /\ ((exists e, res = (None, Some e) /\ evs = [RandInt (2 ^ 128) (inl e)])
        \/ (exists tmpl t1 t2,
              res = (Some tmpl, None)
              /\ evs = [RandInt (2 ^ 128) (inr (SerialNumber tmpl)); Now t1; Now t2])).
Proof.
  unfold lift, CertTemplate. cbn [fst snd]. rewrite golangtls_bind_call.
  change (Z.shiftl 1 128) with (2 ^ 128).
  destruct (rand_Int (2 ^ 128) w) as [[e|n] w1]; cbn [fst snd app].
  - eexists _, _, _. split; [reflexivity|]. left. exists e. split; reflexivity.
  - rewrite !golangtls_bind_call.
    destruct (time_Now w1) as [t1 w2]; cbn [fst snd].
    destruct (time_Now w2) as [t2 w3]; cbn [fst snd app].
    eexists _, _, _. split; [reflexivity|]. right. eexists _, t1, t2.
    split; reflexivity.
Qed.

Ltac call_host H :=
  rewrite bind_host_call in H;
  match type of H with
  | context [fst (?f ?w)] =>
    lazymatch type of w with
    | W => destruct (f w) as [? ?]; cbn [fst snd] in H
    end
  end.

Ltac call_certWriter H werr :=
  match type of H with
  | bind (certWriter ?p ?n) _ (?w, ?tr) = _ =>
    let Heq := fresh "Heq" in
    destruct (certWriter_run p n w tr)
      as (werr & ? & ? & Heq & [(? & -> & ->) | (? & ? & ->)]);
    unfold bind at 1 in H; rewrite Heq in H; clear Heq;
    cbv beta iota zeta in H
  end.

Ltac call_CreateCert H :=
  match type of H with
  | bind (CreateCert ?t ?p ?pub ?priv) _ (?w, ?tr) = _ =>
    let Heq := fresh "Heq" in
    let Hparse := fresh "Hparse" in
    destruct (CreateCert_run t p pub priv w tr)
      as (? & ? & ? & Heq & [(? & ->) | (? & ? & -> & Hparse & ->)]);
    unfold bind at 1 in H; rewrite Heq in H; clear Heq;
    cbv beta iota zeta in H
  end.

Ltac call_CertTemplate H :=
  match type of H with
  | bind (lift CertTemplate) _ (?w, ?tr) = _ =>
    let Heq := fresh "Heq" in
    destruct (lift_CertTemplate_run w tr)
      as (? & ? & ? & Heq & [(? & -> & ->) | (? & ? & ? & -> & ->)]);
    unfold bind at 1 in H; rewrite Heq in H; clear Heq;
    cbn [option_map deref] in H; cbv beta iota zeta in H;
    rewrite ?bind_ret in H
  end.

Ltac finish H :=
  unfold log_Fatalf, ret, abort_with in H;
  injection H as <- <- <-.

Ltac upto_four :=
  first [ exists 0%nat; reflexivity | exists 1%nat; reflexivity
        | exists 2%nat; reflexivity | exists 3%nat; reflexivity
        | exists 4%nat; reflexivity ].

Ltac fatal H :=
  finish H;
  split; [upto_four|];
  split; [cbn; intuition reflexivity|];
  left; split; [reflexivity | eexists; reflexivity].

(** X17: certWriter always returns.  When the file cannot be created it
    prints the error and returns a new error that names the file; nothing is
    written or closed.  Otherwise it writes the bytes once and closes the
    file, also when the write failed, and returns the error of the write:
    the error of Close is dropped, so a file that could not be closed
    passes for written. *)
Theorem certWriter_closes_the_file_it_created (encodedPEM name : string)
  (w : W) (tr : list (Call Key Pub File)) :
  let res := certWriter encodedPEM name (w, tr) in
  exists out ext,
    fst res = Ret out
    /\ snd (snd res) = (tr ++ ext)%list
    /\ ((exists e,
           ext = [Created name (inl e); Println (Error e)]
           /\ out = Some (errors_New ("certWriter creating file " ++ name ++ ": "
                                       ++ Error e)))
        \/ (exists f werr cerr,
              ext = [Created name (inr f); Written f encodedPEM werr; Closed f cerr]
              /\ out = werr)).
Proof.
  cbv zeta.
  destruct (certWriter_run encodedPEM name w tr) as (out & w' & ext & Heq & Hw).
  rewrite Heq. exists out, ext. split; [reflexivity|]. split; [reflexivity|].
  destruct Hw as [(e & -> & ->) | (f & cerr & ->)].
  - left. exists e. split; reflexivity.
  - right. exists f, out, cerr. split; reflexivity.
Qed.

(** X18: the program of the TLS asset.  It asks for its four files in the
    order rootCa.crt, rootCa.key, server.crt, server.key, writes each one
    once and closes it, and stops at the first step that fails: it then
    exits through log.Fatalf and has not started the server.  Otherwise
    starting the server is the last thing it does, and by then it has
    generated two keys, made two certificates, both signed with the first
    key (the root's, a CA, under itself; the server's, not a CA, under the
    root certificate as parsed back from its DER bytes) and stored the two
    certificates and the two private keys, PEM encoded, in the four files;
    the server listens on the port of PORT with the root certificate as
    its only root CA.  The program blocks while the server serves, panics
    with the error the server returns, and returns if there is none. *)
Theorem main_serves_only_after_its_four_files (w : W) :
  let res := main (w, []) in
  let tr := snd (snd res) in
  (exists n, created tr = firstn n the_files)
  /\ files_closed tr
  /\ ((serves tr = [] /\ exists msg, fst res = Ret (Exit_1 msg))
      \/ (exists before port r rootKey servKey rootTmpl servTmpl
                 rootDER servDER rootCert,
            tr = (before
                    ++ [ListenAndServeTLS (":" ++ port)
                          [pem_EncodeToMemory "CERTIFICATE" rootDER]
                          "server.crt" "server.key" r])%list
            /\ serves before = []
            /\ In (Getenv "PORT" port) before
            /\ keys before = [rootKey; servKey]
            /\ signed before
               = [(rootTmpl, rootTmpl, PublicKey rootKey, rootKey, inr rootDER);
                  (servTmpl, rootCert, PublicKey servKey, rootKey, inr servDER)]
            /\ x509_ParseCertificate rootDER = inr rootCert
            /\ (IsCA rootTmpl = true /\ KeyUsage rootTmpl = 33)
            /\ (IsCA servTmpl = false /\ KeyUsage servTmpl = 1)
            /\ stored before
               = [("rootCa.crt", pem_EncodeToMemory "CERTIFICATE" rootDER);
                  ("rootCa.key",
                   pem_EncodeToMemory "RSA PRIVATE KEY"
                     (x509_MarshalPKCS1PrivateKey rootKey));
                  ("server.crt", pem_EncodeToMemory "CERTIFICATE" servDER);
                  ("server.key",
                   pem_EncodeToMemory "RSA PRIVATE KEY"
                     (x509_MarshalPKCS1PrivateKey servKey))]
            /\ match r with
               | Serving => fst res = Abort Blocked
               | Stopped (Some e) => fst res = Abort (Panic (Error e))
               | Stopped None => fst res = Ret Exit_0
               end)).
Proof.
  cbv zeta. destruct (main (w, [])) as [out [w' tr]] eqn:H. cbn [fst snd].
  unfold main in H.
  call_host H. destruct s as [e|rootKey]; [fatal H|].
  call_CertTemplate H; [fatal H|].
  call_CreateCert H; [fatal H|].
  call_certWriter H werr; [fatal H|]. destruct werr as [e|]; [fatal H|].
  call_certWriter H werr; [fatal H|]. destruct werr as [e|]; [fatal H|].
  call_host H. destruct s as [e|servKey]; [fatal H|].
  call_CertTemplate H; [fatal H|].
  call_CreateCert H; [fatal H|].
  call_certWriter H werr; [fatal H|]. destruct werr as [e|]; [fatal H|].
  call_certWriter H werr; [fatal H|]. destruct werr as [e|]; [fatal H|].
  rewrite bind_say in H. call_host H. rewrite bind_say in H. call_host H.
  destruct s0 as [|[e|]]; finish H.
  all: split; [exists 4%nat; reflexivity|].
  all: split; [cbn; intuition reflexivity|].
  all: match goal with
       | |- (serves ?tr = [] /\ _) \/ _ => right; exists (removelast tr)
       end.
  all: eexists _, _, _, _, _, _, _, _, _.
  all: split; [reflexivity|].
  all: split; [reflexivity|].
  all: split; [cbn; intuition|].
  all: split; [reflexivity|].
  all: split; [reflexivity|].
  all: split; [eassumption|].
  all: split; [split; reflexivity|].
  all: split; [split; reflexivity|].
  all: split; [reflexivity|].
  all: reflexivity.
Qed.

End golangtls_program.
